(** * lambda-aws-finops: the monthly cost report, embedded and verified

    A shallow embedding of [lambda_aws_finops.py]: the Lambda handler that
    queries Cost Explorer for six months of per-service cost, compares the
    ten most expensive services of the latest month with the month before,
    renders a bar chart and posts both to a Slack webhook.

    Layout: Part I embeds the program (Python values first, then one
    definition per source function, in source order); Part II proves the
    properties of the specification.

    Modelling conventions
    - a Python [str] is the list of its code points, [bytes] the list of
      its byte values;
    - a Python [float] is an IEEE-754 binary64 number, taken from the
      Standard Library's executable specification [SpecFloat]
      (precision 53, emax 1024); the literal [0] is kept as an [int];
    - a [dict] is an association list in insertion order, updated in place;
    - a raised exception is the [Raise] case of [result]; effects (logging,
      the billing query, the HTTP request) are recorded in a trace;
    - the outside world (clock, Cost Explorer, environment, the webhook) is
      a record of oracles, [World]. *)

From Stdlib Require Import Reals Lra.
From Stdlib Require Import String Ascii.
From Stdlib Require Import ZArith NArith List Bool Lia.
From Stdlib Require Import SpecFloat.
From Stdlib Require Import Sorting.Sorted Sorting.Permutation.
Import ListNotations.
Open Scope Z_scope.

(* ================================================================= *)
(** * Part I. The program *)
(* ================================================================= *)

(** ** Python strings *)

Definition char := N.
Definition str := list char.
Definition bytes := list N.

(** An ASCII literal of the source, as a [str]. *)
Definition lit (s : string) : str :=
  map N_of_ascii (list_ascii_of_string s).

(** Code points the source uses outside ASCII. *)
Definition FULL_BLOCK : char := 9608%N.          (* U+2588 *)
Definition UP_BUTTON : char := 128316%N.         (* U+1F53C *)
Definition DOWN_BUTTON : char := 128317%N.       (* U+1F53D *)
Definition HEAVY_MINUS : char := 10134%N.        (* U+2796 *)

(** The largest code point a [str] can hold. *)
Definition MAX_CODE_POINT : N := 1114111%N.      (* 0x10FFFF *)
Definition valid_str (s : str) : Prop := Forall (fun c => (c <= MAX_CODE_POINT)%N) s.

(** [a < b], [a == b] on [str]: lexicographic on code points. *)
Fixpoint str_compare (a b : str) : comparison :=
  match a, b with
  | [], [] => Eq
  | [], _ :: _ => Lt
  | _ :: _, [] => Gt
  | x :: a', y :: b' =>
      match N.compare x y with
      | Eq => str_compare a' b'
      | o => o
      end
  end.

Definition str_ltb (a b : str) : bool :=
  match str_compare a b with Lt => true | _ => false end.

Definition str_eqb (a b : str) : bool :=
  match str_compare a b with Eq => true | _ => false end.

(** [c * n]: repetition; a count below one gives the empty string. *)
Definition str_repeat (c : char) (n : Z) : str := repeat c (Z.to_nat n).

(** [s.ljust(width)]: pad with spaces on the right. *)
Definition ljust (s : str) (width : nat) : str :=
  (s ++ repeat 32%N (width - length s))%list.

(** Decimal digits of a natural number, most significant first. *)
Fixpoint digits_fuel (fuel : nat) (n : N) (acc : str) : str :=
  match fuel with
  | O => acc
  | S fuel' =>
      let acc' := ((48 + n mod 10)%N :: acc) in
      if (n <? 10)%N then acc' else digits_fuel fuel' (n / 10)%N acc'
  end.

Definition str_of_N (n : N) : str := digits_fuel (S (N.to_nat (N.log2 n))) n [].

(** [str(z)] for an [int]. *)
Definition str_of_Z (z : Z) : str :=
  match z with
  | Zneg p => (45%N :: str_of_N (Npos p))
  | _ => str_of_N (Z.to_N z)
  end.

(** Zero-padded decimal of at least [width] digits ([%02d], [%04d]). *)
Definition zero_pad (width : nat) (n : N) : str :=
  let d := str_of_N n in (repeat 48%N (width - length d) ++ d)%list.

(** ** Python numbers *)

Definition float := spec_float.
Definition prec : Z := 53.
Definition emax : Z := 1024.

Definition fadd : float -> float -> float := SFadd prec emax.
Definition fsub : float -> float -> float := SFsub prec emax.
Definition fmul : float -> float -> float := SFmul prec emax.
Definition fdiv : float -> float -> float := SFdiv prec emax.
Definition fltb : float -> float -> bool := SFltb.
Definition fleb : float -> float -> bool := SFleb.
Definition feqb : float -> float -> bool := SFeqb.

(** [float(z)] for an [int]: the nearest binary64 number. *)
Definition float_of_Z (z : Z) : float := binary_normalize prec emax z 0 false.

Definition float_inf : float := S754_infinity false.   (* float("inf") *)

Definition is_nan (x : float) : bool :=
  match x with S754_nan => true | _ => false end.

Definition is_zero (x : float) : bool :=
  match x with S754_zero _ => true | _ => false end.

(** A number of the program: the [int] literal [0] stays an [int] until it
    meets a [float]. *)
Inductive num :=
| PyInt (z : Z)
| PyFloat (x : float).

Definition to_float (a : num) : float :=
  match a with
  | PyInt z => float_of_Z z
  | PyFloat x => x
  end.

(** [a + b], [a - b], [a * b]: [int] when both are, [float] otherwise. *)
Definition num_add (a b : num) : num :=
  match a, b with
  | PyInt x, PyInt y => PyInt (x + y)
  | _, _ => PyFloat (fadd (to_float a) (to_float b))
  end.

Definition num_sub (a b : num) : num :=
  match a, b with
  | PyInt x, PyInt y => PyInt (x - y)
  | _, _ => PyFloat (fsub (to_float a) (to_float b))
  end.

Definition num_mul (a b : num) : num :=
  match a, b with
  | PyInt x, PyInt y => PyInt (x * y)
  | _, _ => PyFloat (fmul (to_float a) (to_float b))
  end.

(** [a < b], [a > b]; false whenever a NaN is involved. *)
Definition num_ltb (a b : num) : bool :=
  match a, b with
  | PyInt x, PyInt y => x <? y
  | _, _ => fltb (to_float a) (to_float b)
  end.

Definition num_gtb (a b : num) : bool := num_ltb b a.

Definition num_leb (a b : num) : bool :=
  match a, b with
  | PyInt x, PyInt y => x <=? y
  | _, _ => fleb (to_float a) (to_float b)
  end.

(** [abs(a)]. *)
Definition num_abs (a : num) : num :=
  match a with
  | PyInt z => PyInt (Z.abs z)
  | PyFloat x => PyFloat (SFabs x)
  end.

(** ** Exceptions and results *)

(** The exception classes the pipeline can meet.  [LibraryError] stands
    for any other subclass of [Exception] that boto3 or urllib raises
    (a connection failure, a timeout, an HTTP error status, ...). *)
Inductive exn_class :=
| ClientError
| IndexError
| ValueError
| ZeroDivisionError
| OverflowError
| KeyError
| LibraryError.

(** An exception: its class and [str(e)]. *)
Record exn := mk_exn { exn_cls : exn_class; exn_msg : str }.

Inductive result (A : Type) :=
| Ok (a : A)
| Raise (e : exn).
Arguments Ok {A} a.
Arguments Raise {A} e.

Definition bind {A B} (r : result A) (f : A -> result B) : result B :=
  match r with
  | Ok a => f a
  | Raise e => Raise e
  end.

Notation "x <- c1 ;; c2" := (bind c1 (fun x => c2))
  (at level 61, c1 at next level, right associativity).

Definition raise {A} (c : exn_class) (msg : string) : result A :=
  Raise (mk_exn c (lit msg)).

(** [mapM f l]: evaluate [f] on the elements in order, stop at the first
    exception. *)
Fixpoint mapM {A B} (f : A -> result B) (l : list A) : result (list B) :=
  match l with
  | [] => Ok []
  | a :: l' => b <- f a ;; bs <- mapM f l' ;; Ok (b :: bs)
  end.

(** ** Conversions between numbers and text *)

(** [int(x)]: truncation toward zero; infinities and NaN raise. *)
Definition float_trunc (x : float) : result Z :=
  match x with
  | S754_zero _ => Ok 0
  | S754_finite s m e =>
      let a := match e with
               | Zneg p => Z.shiftr (Zpos m) (Zpos p)
               | _ => Z.shiftl (Zpos m) e
               end in
      Ok (if s then - a else a)
  | S754_infinity _ => raise OverflowError "cannot convert float infinity to integer"
  | S754_nan => raise ValueError "cannot convert float NaN to integer"
  end.

Definition py_int (a : num) : result Z :=
  match a with
  | PyInt z => Ok z
  | PyFloat x => float_trunc x
  end.

(** [a / b]: true division; a zero divisor raises. *)
Definition num_is_zero (b : num) : bool :=
  match b with
  | PyInt z => z =? 0
  | PyFloat x => is_zero x
  end.

Definition num_div (a b : num) : result num :=
  if num_is_zero b then
    match a, b with
    | PyInt _, PyInt _ => raise ZeroDivisionError "division by zero"
    | _, _ => raise ZeroDivisionError "float division by zero"
    end
  else Ok (PyFloat (fdiv (to_float a) (to_float b))).

(** Round the non-negative rational [n / 2^k] to the nearest integer, ties
    to even. *)
Definition round_half_even_shift (n : Z) (k : Z) : Z :=
  let d := Z.shiftl 1 k in
  let q := n / d in
  let r := n mod d in
  match Z.compare (2 * r) d with
  | Lt => q
  | Gt => q + 1
  | Eq => if Z.even q then q else q + 1
  end.

(** [format(x, ".2f")]: the exact binary value rounded half-even to two
    decimals. *)
Definition format_2f_float (x : float) : str :=
  match x with
  | S754_nan => lit "nan"
  | S754_infinity s => ((if s then lit "-" else []) ++ lit "inf")%list
  | S754_zero s => ((if s then lit "-" else []) ++ lit "0.00")%list
  | S754_finite s m e =>
      let cents := match e with
                   | Zneg p => round_half_even_shift (Zpos m * 100) (Zpos p)
                   | _ => Z.shiftl (Zpos m * 100) e
                   end in
      ((if s then lit "-" else [])
         ++ str_of_N (Z.to_N (cents / 100)) ++ lit "."
         ++ zero_pad 2 (Z.to_N (cents mod 100)))%list
  end.

Definition format_2f (a : num) : str :=
  match a with
  | PyInt z =>
      ((if z <? 0 then lit "-" else []) ++ str_of_N (Z.to_N (Z.abs z)) ++ lit ".00")%list
  | PyFloat x => format_2f_float x
  end.

(** *** [float(s)]

    The decimal grammar of [float()] on ASCII text: surrounding white
    space, a sign, [inf], [infinity] or [nan] in any case, or digits with an
    optional fraction and exponent (single underscores between digits).
    The value is the binary64 number nearest to the decimal one, as CPython
    computes it.  Digits and spaces outside ASCII, which CPython accepts as
    well, are not modelled: the Cost Explorer API sends ASCII decimals.
    The message of the [ValueError] quotes the text as it is, where CPython
    writes its [repr]; the two agree on text without quotes, backslashes
    and characters that are not printable. *)

Definition is_space (c : char) : bool :=
  ((c =? 32) || ((9 <=? c) && (c <=? 13)))%N.

Definition is_digit (c : char) : bool := ((48 <=? c) && (c <=? 57))%N.

Definition digit_val (c : char) : Z := Z.of_N c - 48.

Definition lower (c : char) : char :=
  if ((65 <=? c) && (c <=? 90))%N then (c + 32)%N else c.

Fixpoint lstrip (s : str) : str :=
  match s with
  | c :: s' => if is_space c then lstrip s' else s
  | [] => []
  end.

Definition strip (s : str) : str := rev (lstrip (rev (lstrip s))).

(** The rest of a digit part: digits, each optionally preceded by one
    underscore.  Returns the accumulated value, the digit count and the
    unread text. *)
Fixpoint scan_digits_tail (s : str) (acc cnt : Z) : Z * Z * str :=
  match s with
  | c :: s' =>
      if is_digit c then scan_digits_tail s' (acc * 10 + digit_val c) (cnt + 1)
      else if (c =? 95)%N then
        match s' with
        | d :: s'' =>
            if is_digit d
            then scan_digits_tail s'' (acc * 10 + digit_val d) (cnt + 1)
            else (acc, cnt, s)
        | [] => (acc, cnt, s)
        end
      else (acc, cnt, s)
  | [] => (acc, cnt, [])
  end.

Definition scan_digitpart (s : str) (acc cnt : Z) : option (Z * Z * str) :=
  match s with
  | c :: s' =>
      if is_digit c
      then Some (scan_digits_tail s' (acc * 10 + digit_val c) (cnt + 1))
      else None
  | [] => None
  end.

(** [number ::= [digitpart] "." digitpart | digitpart ["."]]: the digits
    read as one integer, and how many of them follow the point. *)
Definition scan_number (s : str) : option (Z * Z * str) :=
  match scan_digitpart s 0 0 with
  | Some (m, _, 46%N :: s1) =>
      match scan_digitpart s1 m 0 with
      | Some r => Some r
      | None => Some (m, 0, s1)
      end
  | Some (m, _, s1) => Some (m, 0, s1)
  | None =>
      match s with
      | 46%N :: s1 => scan_digitpart s1 0 0
      | _ => None
      end
  end.

(** [exponent ::= ("e" | "E") [sign] digitpart]. *)
Definition scan_exponent (s : str) : option (Z * str) :=
  match s with
  | [] => Some (0, [])
  | c :: s1 =>
      if (lower c =? 101)%N then
        let '(neg, s2) := match s1 with
                          | 45%N :: t => (true, t)
                          | 43%N :: t => (false, t)
                          | _ => (false, s1)
                          end in
        match scan_digitpart s2 0 0 with
        | Some (e, _, rest) => Some (if neg then - e else e, rest)
        | None => None
        end
      else Some (0, s)
  end.

(** The binary64 number nearest to [(-1)^neg * m * 10^t]. *)
Definition float_of_decimal (neg : bool) (m t : Z) : float :=
  match m with
  | Zpos p =>
      match t with
      | Zneg k => fdiv (S754_finite neg p 0)
                       (S754_finite false (Z.to_pos (10 ^ Zpos k)) 0)
      | _ => float_of_Z ((if neg then - m else m) * 10 ^ t)
      end
  | _ => S754_zero neg
  end.

Definition float_of_str (s : str) : result float :=
  let failure := Raise (mk_exn ValueError
    (lit "could not convert string to float: '" ++ s ++ lit "'")%list) in
  let s0 := strip s in
  let '(neg, s1) := match s0 with
                    | 45%N :: t => (true, t)
                    | 43%N :: t => (false, t)
                    | _ => (false, s0)
                    end in
  let word := map lower s1 in
  if str_eqb word (lit "inf") || str_eqb word (lit "infinity")
  then Ok (S754_infinity neg)
  else if str_eqb word (lit "nan") then Ok S754_nan
  else
    match scan_number s1 with
    | Some (m, frac, s2) =>
        match scan_exponent s2 with
        | Some (e, []) => Ok (float_of_decimal neg m (e - frac))
        | _ => failure
        end
    | None => failure
    end.

(** ** Calendar dates ([datetime], its date fields) *)

Record date := mk_date { year : Z; month : Z; day : Z }.

Definition is_leap (y : Z) : bool :=
  ((y mod 4 =? 0) && negb (y mod 100 =? 0)) || (y mod 400 =? 0).

Definition days_in_month (y m : Z) : Z :=
  if m =? 2 then (if is_leap y then 29 else 28)
  else if (m =? 4) || (m =? 6) || (m =? 9) || (m =? 11) then 30
  else 31.

Definition valid_date (d : date) : bool :=
  (1 <=? year d) && (year d <=? 9999) && (1 <=? month d) && (month d <=? 12)
  && (1 <=? day d) && (day d <=? days_in_month (year d) (month d)).

(** Days since 1970-01-01 in the proleptic Gregorian calendar, and back. *)
Definition days_from_civil (d : date) : Z :=
  let y := if month d <=? 2 then year d - 1 else year d in
  let era := y / 400 in
  let yoe := y - era * 400 in
  let mp := if month d >? 2 then month d - 3 else month d + 9 in
  let doy := (153 * mp + 2) / 5 + day d - 1 in
  let doe := yoe * 365 + yoe / 4 - yoe / 100 + doy in
  era * 146097 + doe - 719468.

Definition civil_from_days (z : Z) : date :=
  let z := z + 719468 in
  let era := z / 146097 in
  let doe := z - era * 146097 in
  let yoe := (doe - doe / 1460 + doe / 36524 - doe / 146096) / 365 in
  let doy := doe - (365 * yoe + yoe / 4 - yoe / 100) in
  let mp := (5 * doy + 2) / 153 in
  let d := doy - (153 * mp + 2) / 5 + 1 in
  let m := if mp <? 10 then mp + 3 else mp - 9 in
  mk_date (if m <=? 2 then yoe + era * 400 + 1 else yoe + era * 400) m d.

(** [d - timedelta(days=n)]. *)
Definition date_minus_days (d : date) (n : Z) : result date :=
  let r := civil_from_days (days_from_civil d - n) in
  if valid_date r then Ok r else raise OverflowError "date value out of range".

(** [d.strftime("%Y-%m-%d")] and [d.strftime("%Y-%m")], the year written
    with four digits.  (CPython on glibc writes a year below 1000 without
    the leading zeros; the statements about the text of a date take years
    from 1000 on.) *)
Definition strftime_Ymd (d : date) : str :=
  (zero_pad 4 (Z.to_N (year d)) ++ lit "-" ++ zero_pad 2 (Z.to_N (month d))
     ++ lit "-" ++ zero_pad 2 (Z.to_N (day d)))%list.

Definition strftime_Ym (d : date) : str :=
  (zero_pad 4 (Z.to_N (year d)) ++ lit "-" ++ zero_pad 2 (Z.to_N (month d)))%list.

(** [datetime.strptime(s, "%Y-%m-%d")] on ASCII text.  The format compiles
    to the pattern
    [(\d\d\d\d)-(1[0-2]|0[1-9]|[1-9])-(3[01]|[12]\d|0[1-9]|[1-9]| [1-9])];
    text left after the match and a day the month does not have raise
    [ValueError].  Digits outside ASCII, which [\d] matches as well, are
    not modelled, and the message quotes the text as it is, where CPython
    writes its [repr]. *)
Definition scan_month (s : str) : option (Z * str) :=
  let two := match s with
             | a :: b :: 45%N :: rest =>
                 if ((a =? 49) && (48 <=? b) && (b <=? 50))%N
                    || ((a =? 48) && (49 <=? b) && (b <=? 57))%N
                 then Some (digit_val a * 10 + digit_val b, rest)
                 else None
             | _ => None
             end in
  match two with
  | Some r => Some r
  | None =>
      match s with
      | a :: 45%N :: rest =>
          if ((49 <=? a) && (a <=? 57))%N then Some (digit_val a, rest) else None
      | _ => None
      end
  end.

Definition scan_day (s : str) : option (Z * str) :=
  match s with
  | [] => None
  | a :: t =>
      let two := match t with
                 | b :: rest =>
                     if ((a =? 51) && (48 <=? b) && (b <=? 49))%N
                        || ((49 <=? a) && (a <=? 50) && is_digit b)%N
                        || ((a =? 48) && (49 <=? b) && (b <=? 57))%N
                     then Some (digit_val a * 10 + digit_val b, rest)
                     else None
                 | [] => None
                 end in
      match two with
      | Some r => Some r
      | None =>
          if ((49 <=? a) && (a <=? 57))%N then Some (digit_val a, t)
          else match t with
               | b :: rest =>
                   if ((a =? 32) && (49 <=? b) && (b <=? 57))%N
                   then Some (digit_val b, rest) else None
               | [] => None
               end
      end
  end.

Definition strptime_Ymd (s : str) : result date :=
  let no_match := Raise (mk_exn ValueError
    (lit "time data '" ++ s ++ lit "' does not match format '%Y-%m-%d'")%list) in
  match s with
  | y1 :: y2 :: y3 :: y4 :: 45%N :: s1 =>
      if is_digit y1 && is_digit y2 && is_digit y3 && is_digit y4 then
        match scan_month s1 with
        | Some (m, s2) =>
            match scan_day s2 with
            | Some (d, []) =>
                let y := ((digit_val y1 * 10 + digit_val y2) * 10 + digit_val y3) * 10
                         + digit_val y4 in
                if y =? 0 then raise ValueError "year 0 is out of range"
                else if d <=? days_in_month y m then Ok (mk_date y m d)
                else raise ValueError "day is out of range for month"
            | Some (_, rest) =>
                Raise (mk_exn ValueError (lit "unconverted data remains: " ++ rest)%list)
            | None => no_match
            end
        | None => no_match
        end
      else no_match
  | _ => no_match
  end.

(** ** Python containers *)

(** A [dict] with [str] keys: association list in insertion order; keys
    are unique. *)
Definition dict (V : Type) := list (str * V).

(** [d[k] = v]: a key already present keeps its place. *)
Fixpoint dict_set {V} (k : str) (v : V) (d : dict V) : dict V :=
  match d with
  | [] => [(k, v)]
  | (k', v') :: d' =>
      if str_eqb k k' then (k', v) :: d' else (k', v') :: dict_set k v d'
  end.

(** [d.get(k)]. *)
Fixpoint dict_get {V} (k : str) (d : dict V) : option V :=
  match d with
  | [] => None
  | (k', v) :: d' => if str_eqb k k' then Some v else dict_get k d'
  end.

Definition dict_keys {V} (d : dict V) : list str := map fst d.
Definition dict_values {V} (d : dict V) : list V := map snd d.

(** [l[-k]] for [k >= 1]. *)
Definition index_from_end {A} (l : list A) (k : nat) : result A :=
  match nth_error (rev l) (k - 1) with
  | Some a => Ok a
  | None => raise IndexError "list index out of range"
  end.

(** [sorted]: a stable sort.  [lt y x] says that [y] must come before [x];
    an element is put in front of the first element that need not come
    before it, so equal elements keep their order.  CPython's sort returns
    this list whenever the comparison is a strict weak order on the
    elements, which holds for strings and for numbers other than NaN. *)
Fixpoint insert_stable {A} (lt : A -> A -> bool) (x : A) (l : list A) : list A :=
  match l with
  | [] => [x]
  | y :: l' => if lt y x then y :: insert_stable lt x l' else x :: l
  end.

Definition sorted_by {A} (lt : A -> A -> bool) (l : list A) : list A :=
  fold_right (insert_stable lt) [] l.

(** [sorted(keys)] on strings. *)
Definition sorted_str (l : list str) : list str := sorted_by str_ltb l.

(** [sorted(items, key=lambda x: x[1], reverse=True)]. *)
Definition sorted_by_value_desc (l : list (str * num)) : list (str * num) :=
  sorted_by (fun y x => num_ltb (snd x) (snd y)) l.

(** [sum(values)]: starts from the [int] 0 and adds from the left.
    (CPython 3.12 and later add floats with a compensated sum, which can
    differ in the last bit for three values or more.) *)
Definition py_sum (l : list num) : num := fold_left num_add l (PyInt 0).

(** [max(values)]: the first greatest element; empty input raises. *)
Definition py_max (l : list num) : result num :=
  match l with
  | [] => raise ValueError "max() arg is an empty sequence"
  | x :: l' => Ok (fold_left (fun m y => if num_gtb y m then y else m) l' x)
  end.

(** ** The [json] module

    The values this program serialises are strings, lists and dicts with
    string keys; [json_dumps] and [json_loads] model [json.dumps] and
    [json.loads] with their default options on that fragment.  (The decoder
    rejects numbers, [true], [false] and [null], which the program never
    writes.) *)

#[local] Unset Elimination Schemes.
Inductive json :=
| JStr (s : str)
| JArr (l : list json)
| JObj (members : list (str * json)).
#[local] Set Elimination Schemes.

Definition hex_digit (n : N) : char :=
  (if n <? 10 then 48 + n else 87 + n)%N.

(** ["\\u{0:04x}".format(n)] for [n < 65536]. *)
Definition escape_u (n : N) : str :=
  [92; 117; hex_digit (n / 4096); hex_digit ((n / 256) mod 16);
   hex_digit ((n / 16) mod 16); hex_digit (n mod 16)]%N.

(** One character under [ensure_ascii]: printable ASCII as it is, the
    short escapes, [\uXXXX] for the rest, a surrogate pair above the
    basic plane. *)
Definition escape_char (c : char) : str :=
  (if c =? 34 then [92; 34]
   else if c =? 92 then [92; 92]
   else if c =? 10 then [92; 110]
   else if c =? 13 then [92; 114]
   else if c =? 9 then [92; 116]
   else if c =? 12 then [92; 102]
   else if c =? 8 then [92; 98]
   else if (32 <=? c) && (c <=? 126) then [c]
   else if c <? 65536 then escape_u c
   else
     let n := c - 65536 in
     (escape_u (55296 + (n / 1024) mod 1024) ++ escape_u (56320 + n mod 1024))%list)%N.

Definition dumps_str (s : str) : str :=
  (34%N :: flat_map escape_char s ++ [34%N])%list.

(** [", ".join(items)]. *)
Fixpoint join_comma (items : list str) : str :=
  match items with
  | [] => []
  | [x] => x
  | x :: rest => (x ++ lit ", " ++ join_comma rest)%list
  end.

Fixpoint json_dumps (v : json) : str :=
  match v with
  | JStr s => dumps_str s
  | JArr l => (lit "[" ++ join_comma (map json_dumps l) ++ lit "]")%list
  | JObj members =>
      (lit "{"
         ++ join_comma (map (fun kv => (dumps_str (fst kv) ++ lit ": " ++ json_dumps (snd kv))%list)
                            members)
         ++ lit "}")%list
  end.

(** *** Decoding *)

Definition is_json_ws (c : char) : bool :=
  ((c =? 32) || (c =? 9) || (c =? 10) || (c =? 13))%N.

Fixpoint skip_ws (s : str) : str :=
  match s with
  | c :: s' => if is_json_ws c then skip_ws s' else s
  | [] => []
  end.

Definition hex_val (c : char) : option N :=
  (if (48 <=? c) && (c <=? 57) then Some (c - 48)
   else if (97 <=? c) && (c <=? 102) then Some (c - 87)
   else if (65 <=? c) && (c <=? 70) then Some (c - 55)
   else None)%N.

Definition hex4 (a b c d : char) : option N :=
  match hex_val a, hex_val b, hex_val c, hex_val d with
  | Some x, Some y, Some z, Some w => Some (((x * 16 + y) * 16 + z) * 16 + w)%N
  | _, _, _, _ => None
  end.

Definition unescape (c : char) : option char :=
  (if c =? 34 then Some 34
   else if c =? 92 then Some 92
   else if c =? 47 then Some 47
   else if c =? 98 then Some 8
   else if c =? 102 then Some 12
   else if c =? 110 then Some 10
   else if c =? 114 then Some 13
   else if c =? 116 then Some 9
   else None)%N.

Definition is_high_surrogate (n : N) : bool := ((55296 <=? n) && (n <=? 56319))%N.
Definition is_low_surrogate (n : N) : bool := ((56320 <=? n) && (n <=? 57343))%N.
Definition join_surrogates (hi lo : N) : char :=
  (65536 + ((hi - 55296) * 1024 + (lo - 56320)))%N.

Definition cons_char (c : char) (r : option (str * str)) : option (str * str) :=
  match r with
  | Some (s, rest) => Some (c :: s, rest)
  | None => None
  end.

(** The text after an opening quote: the decoded string and what follows
    the closing quote.  A high surrogate escape directly followed by a low
    one is read as one character. *)
Fixpoint scan_string (s : str) : option (str * str) :=
  match s with
  | [] => None
  | c :: rest =>
      if (c =? 34)%N then Some ([], rest)
      else if (c =? 92)%N then
        match rest with
        | [] => None
        | e :: rest0 =>
            if (e =? 117)%N then
              match rest0 with
              | h1 :: h2 :: h3 :: h4 :: rest1 =>
                  match hex4 h1 h2 h3 h4 with
                  | Some uni =>
                      match rest1 with
                      | b :: u :: g1 :: g2 :: g3 :: g4 :: rest2 =>
                          if (b =? 92)%N && (u =? 117)%N && is_high_surrogate uni then
                            match hex4 g1 g2 g3 g4 with
                            | Some uni2 =>
                                if is_low_surrogate uni2
                                then cons_char (join_surrogates uni uni2) (scan_string rest2)
                                else cons_char uni (scan_string rest1)
                            | None => None
                            end
                          else cons_char uni (scan_string rest1)
                      | _ => cons_char uni (scan_string rest1)
                      end
                  | None => None
                  end
              | _ => None
              end
            else
              match unescape e with
              | Some c' => cons_char c' (scan_string rest0)
              | None => None
              end
        end
      else if (c <? 32)%N then None
      else cons_char c (scan_string rest)
  end.

(** [dict(pairs)]: a repeated key keeps its first place and its last
    value. *)
Definition dict_of_pairs {V} (pairs : list (str * V)) : dict V :=
  fold_left (fun d kv => dict_set (fst kv) (snd kv) d) pairs [].

(** The recursive-descent decoder.  [fuel] bounds the nesting depth plus
    the number of members read; every step consumes input, so the length
    of the text is enough. *)
Fixpoint parse_value (fuel : nat) (s : str) : option (json * str) :=
  match fuel with
  | O => None
  | S fuel' =>
      match s with
      | [] => None
      | c :: rest =>
          if (c =? 34)%N then
            match scan_string rest with
            | Some (t, rest') => Some (JStr t, rest')
            | None => None
            end
          else if (c =? 91)%N then
            match skip_ws rest with
            | [] => None
            | c' :: rest' =>
                if (c' =? 93)%N then Some (JArr [], rest')
                else match parse_elements fuel' (c' :: rest') with
                     | Some (vs, rest'') => Some (JArr vs, rest'')
                     | None => None
                     end
            end
          else if (c =? 123)%N then
            match skip_ws rest with
            | [] => None
            | c' :: rest' =>
                if (c' =? 125)%N then Some (JObj [], rest')
                else match parse_members fuel' (c' :: rest') with
                     | Some (kvs, rest'') => Some (JObj (dict_of_pairs kvs), rest'')
                     | None => None
                     end
            end
          else None
      end
  end
with parse_elements (fuel : nat) (s : str) : option (list json * str) :=
  match fuel with
  | O => None
  | S fuel' =>
      match parse_value fuel' s with
      | Some (v, rest) =>
          match skip_ws rest with
          | [] => None
          | c :: rest' =>
              if (c =? 93)%N then Some ([v], rest')
              else if (c =? 44)%N then
                match parse_elements fuel' (skip_ws rest') with
                | Some (vs, rest'') => Some (v :: vs, rest'')
                | None => None
                end
              else None
          end
      | None => None
      end
  end
with parse_members (fuel : nat) (s : str) : option (list (str * json) * str) :=
  match fuel with
  | O => None
  | S fuel' =>
      match s with
      | [] => None
      | q :: s0 =>
          if (q =? 34)%N then
            match scan_string s0 with
            | Some (k, rest) =>
                match skip_ws rest with
                | [] => None
                | c :: rest0 =>
                    if (c =? 58)%N then
                      match parse_value fuel' (skip_ws rest0) with
                      | Some (v, rest1) =>
                          match skip_ws rest1 with
                          | [] => None
                          | c' :: rest2 =>
                              if (c' =? 125)%N then Some ([(k, v)], rest2)
                              else if (c' =? 44)%N then
                                match parse_members fuel' (skip_ws rest2) with
                                | Some (kvs, rest3) => Some ((k, v) :: kvs, rest3)
                                | None => None
                                end
                              else None
                          end
                      | None => None
                      end
                    else None
                end
            | None => None
            end
          else None
      end
  end.

(** [json.loads(s)]: one value, white space around it, nothing else. *)
Definition json_loads (s : str) : option json :=
  match parse_value (S (length s)) (skip_ws s) with
  | Some (v, rest) =>
      match skip_ws rest with
      | [] => Some v
      | _ :: _ => None
      end
  | None => None
  end.

(** [s.encode("utf-8")]; a lone surrogate raises [UnicodeEncodeError], a
    [ValueError]. *)
Definition encode_char (c : char) : result bytes :=
  (if c <? 128 then Ok [c]
   else if c <? 2048 then Ok [192 + c / 64; 128 + c mod 64]
   else if (55296 <=? c) && (c <=? 57343)
        then raise ValueError "'utf-8' codec can't encode character: surrogates not allowed"
   else if c <? 65536 then Ok [224 + c / 4096; 128 + (c / 64) mod 64; 128 + c mod 64]
   else Ok [240 + c / 262144; 128 + (c / 4096) mod 64; 128 + (c / 64) mod 64; 128 + c mod 64])%N.

Definition encode_utf8 (s : str) : result bytes :=
  chunks <- mapM encode_char s ;; Ok (concat chunks).

(** ** The outside world *)

(** One group of a Cost Explorer result: [item["Keys"]] and
    [item["Metrics"]["UnblendedCost"]["Amount"]]. *)
Record group := mk_group { Keys : list str; Amount : str }.

(** One element of [response["ResultsByTime"]]: [TimePeriod.Start] and
    [Groups]. *)
Record result_by_time := mk_result_by_time { Start : str; Groups : list group }.

(** What [urlopen] hands back: the status code and the outcome of
    [read()]. *)
Record http_response := mk_http_response { getcode : Z; read : result bytes }.

(** Everything the handler reads from outside, as oracles: the clock, the
    answer of [ce_client.get_cost_and_usage] to a period, the environment
    variable, whether [urllib.request.Request] accepts the URL, and the
    answer of [urlopen]. *)
Record World := mk_World {
  now : date;
  get_cost_and_usage : str -> str -> result (list result_by_time);
  SLACK_WEBHOOK_URL : option str;
  Request : str -> bytes -> result unit;
  urlopen : str -> bytes -> result http_response
}.

(** ** Effects *)

Inductive component :=
| Get_date_range
| Get_cost_data
| Analyze_costs
| Create_report
| Send_to_slack.

(** What a run leaves behind, in order: the functions it entered, the log
    records, and the calls that leave the process. *)
Inductive effect :=
| Invoke (c : component)
| LogError (msg : str)
| LogInfo (msg : str)
| CostExplorerQuery (start_date end_date : str)
| HttpRequestBuilt (url : str) (data : bytes)
| HttpRequestSent (url : str) (data : bytes).

(** A computation: its outcome and the trace it wrote. *)
Definition M (A : Type) : Type := (result A * list effect)%type.

Definition ret {A} (a : A) : M A := (Ok a, []).

Definition bindM {A B} (m : M A) (f : A -> M B) : M B :=
  match m with
  | (Ok a, t1) => let '(r, t2) := f a in (r, t1 ++ t2)%list
  | (Raise e, t1) => (Raise e, t1)
  end.

Notation "x <~ c1 ;; c2" := (bindM c1 (fun x => c2))
  (at level 61, c1 at next level, right associativity).
Notation "c1 ;;; c2" := (bindM c1 (fun _ => c2))
  (at level 61, right associativity).

Definition tell (ev : effect) : M unit := (Ok tt, [ev]).

Definition lift {A} (r : result A) : M A := (r, []).

(** [try: m except C as e: handler e], for the classes [catches] accepts. *)
Definition try_except {A} (m : M A) (catches : exn_class -> bool)
    (handler : exn -> M A) : M A :=
  match m with
  | (Raise e, t1) =>
      if catches (exn_cls e)
      then let '(r, t2) := handler e in (r, t1 ++ t2)%list
      else (Raise e, t1)
  | done => done
  end.

Definition is_ClientError (c : exn_class) : bool :=
  match c with ClientError => true | _ => false end.

(** [except Exception]: every class of the model. *)
Definition is_Exception (c : exn_class) : bool := true.

(** ** The program, function by function *)

(** [get_date_range()]. *)
Definition get_date_range (w : World) : result (str * str) :=
  let end_date := mk_date (year (now w)) (month (now w)) 1 in
  start_date <- date_minus_days end_date 180 ;;
  Ok (strftime_Ymd start_date, strftime_Ymd end_date).

(** [get_cost_data(start_date, end_date)]: [None] on a [ClientError]. *)
Definition get_cost_data (w : World) (start_date end_date : str)
    : M (option (list result_by_time)) :=
  try_except
    (tell (CostExplorerQuery start_date end_date) ;;;
     results <~ lift (get_cost_and_usage w start_date end_date) ;;
     ret (Some results))
    is_ClientError
    (fun e =>
       tell (LogError (lit "An error occurred while fetching cost data: " ++ exn_msg e)%list) ;;;
       ret None).

(** *** [analyze_costs] *)

(** [d[k]]: a missing key raises [KeyError]. *)
Definition dict_lookup {V} (k : str) (d : dict V) : result V :=
  match dict_get k d with
  | Some v => Ok v
  | None => Raise (mk_exn KeyError (lit "'" ++ k ++ lit "'")%list)
  end.

(** One entry of the comprehension of lines 50-53: the key
    [item["Keys"][0]], then the value [float(... ["Amount"])]. *)
Definition group_entry (item : group) : result (str * num) :=
  service <- match Keys item with
             | k :: _ => Ok k
             | [] => raise IndexError "list index out of range"
             end ;;
  amount <- float_of_str (Amount item) ;;
  Ok (service, PyFloat amount).

Definition month_services (groups : list group) : result (dict num) :=
  entries <- mapM group_entry groups ;;
  Ok (dict_of_pairs entries).

(** The loop of lines 45-53, from the table built so far. *)
Fixpoint build_monthly_costs (cost_data : list result_by_time)
    (monthly_costs : dict (dict num)) : result (dict (dict num)) :=
  match cost_data with
  | [] => Ok monthly_costs
  | month_data :: rest =>
      d <- strptime_Ymd (Start month_data) ;;
      let month := strftime_Ym d in
      services <- month_services (Groups month_data) ;;
      build_monthly_costs rest (dict_set month services monthly_costs)
  end.

(** A value of [top_10_comparison]. *)
Record comparison_entry := mk_entry {
  current : num;
  previous : num;
  change : num;
  percent_change : num
}.

(** The body of the loop of lines 66-77. *)
Definition compare_service (monthly_costs : dict (dict num)) (previous_month : str)
    (item : str * num) : result (str * comparison_entry) :=
  let '(service, current_cost) := item in
  previous_services <- dict_lookup previous_month monthly_costs ;;
  let previous_cost := match dict_get service previous_services with
                       | Some c => c
                       | None => PyInt 0
                       end in
  let change := num_sub current_cost previous_cost in
  percent_change <-
    (if num_gtb previous_cost (PyInt 0)
     then q <- num_div change previous_cost ;; Ok (num_mul q (PyInt 100))
     else Ok (PyFloat float_inf)) ;;
  Ok (service, mk_entry current_cost previous_cost change percent_change).

(** What [analyze_costs] returns when there is data. *)
Record analysis := mk_analysis {
  top_10_comparison : dict comparison_entry;
  monthly_costs_of : dict (dict num);
  current_month_of : str;
  previous_month_of : str
}.

(** Lines 55-79, from the finished table. *)
Definition compare_months (monthly_costs : dict (dict num)) : result analysis :=
  let months := sorted_str (dict_keys monthly_costs) in
  current_month <- index_from_end months 1 ;;
  previous_month <- index_from_end months 2 ;;
  current_services <- dict_lookup current_month monthly_costs ;;
  let current_top_10 := firstn 10 (sorted_by_value_desc current_services) in
  entries <- mapM (compare_service monthly_costs previous_month) current_top_10 ;;
  Ok (mk_analysis (dict_of_pairs entries) monthly_costs current_month previous_month).

(** Lines 44-79: reshape, then compare. *)
Definition process_cost_data (cost_data : list result_by_time) : result analysis :=
  monthly_costs <- build_monthly_costs cost_data [] ;;
  compare_months monthly_costs.

(** [analyze_costs()].  [None] stands for the tuple of four [None]s. *)
Definition analyze_costs (w : World) : M (option analysis) :=
  tell (Invoke Get_date_range) ;;;
  dates <~ lift (get_date_range w) ;;
  tell (Invoke Get_cost_data) ;;;
  cost_data <~ get_cost_data w (fst dates) (snd dates) ;;
  match cost_data with
  | None | Some [] => ret None
  | Some data => a <~ lift (process_cost_data data) ;; ret (Some a)
  end.

(** *** [create_ascii_chart] *)

Definition chart_width : Z := 20.

(** [int((cost / max_cost) * chart_width)]. *)
Definition bar_length (cost max_cost : num) : result Z :=
  ratio <- num_div cost max_cost ;;
  py_int (num_mul ratio (PyInt chart_width)).

(** The two lines (and the blank one) that the loop adds for a month. *)
Definition chart_row (max_cost : num) (row : str * num) : result str :=
  let '(month, cost) := row in
  n <- bar_length cost max_cost ;;
  let bar := str_repeat FULL_BLOCK n in
  Ok (month ++ lit ": $" ++ format_2f cost ++ [10%N]
      ++ ljust bar (Z.to_nat chart_width) ++ lit " | " ++ format_2f cost ++ [10%N; 10%N])%list.

(** [[sum(monthly_costs[month].values()) for month in months]]. *)
Definition month_total (monthly_costs : dict (dict num)) (month : str) : result num :=
  services <- dict_lookup month monthly_costs ;;
  Ok (py_sum (dict_values services)).

Definition create_ascii_chart (monthly_costs : dict (dict num)) : result str :=
  let months := sorted_str (dict_keys monthly_costs) in
  total_costs <- mapM (month_total monthly_costs) months ;;
  max_cost <- py_max total_costs ;;
  rows <- mapM (chart_row max_cost) (combine months total_costs) ;;
  Ok (lit "6-Month Cost Overview" ++ [10%N; 10%N] ++ concat rows)%list.

(** *** [create_report] *)

(** The three shapes of display block, as the dict literals of the
    source. *)
Definition header_block (text : str) : json :=
  JObj [(lit "type", JStr (lit "header"));
        (lit "text", JObj [(lit "type", JStr (lit "plain_text")); (lit "text", JStr text)])].

Definition section_block (text : str) : json :=
  JObj [(lit "type", JStr (lit "section"));
        (lit "text", JObj [(lit "type", JStr (lit "mrkdwn")); (lit "text", JStr text)])].

Definition divider_block : json := JObj [(lit "type", JStr (lit "divider"))].

Definition change_icon (change : num) : char :=
  if num_gtb change (PyInt 0) then UP_BUTTON
  else if num_ltb change (PyInt 0) then DOWN_BUTTON
  else HEAVY_MINUS.

(** The block appended for one service (lines 119-134). *)
Definition service_block (item : str * comparison_entry) : json :=
  let '(service, data) := item in
  section_block
    (lit "*" ++ service ++ lit "*" ++ [10%N]
     ++ lit "Current: $" ++ format_2f (current data) ++ [10%N]
     ++ lit "Previous: $" ++ format_2f (previous data) ++ [10%N]
     ++ lit "Change: " ++ [change_icon (change data)] ++ lit " $"
     ++ format_2f (num_abs (change data))
     ++ lit " (" ++ format_2f (percent_change data) ++ lit "%)")%list.

Definition create_report (top_10 : dict comparison_entry)
    (monthly_costs : dict (dict num)) (current_month previous_month : str)
    : result (list json) :=
  ascii_chart <- create_ascii_chart monthly_costs ;;
  Ok ([header_block (lit "AWS Cost Analysis: " ++ current_month ++ lit " vs " ++ previous_month);
       section_block (lit "*Top 10 Most Expensive Services Comparison:*")]
      ++ map service_block top_10
      ++ [divider_block;
          header_block (lit "6-Month Cost Overview");
          section_block (lit "```" ++ [10%N] ++ ascii_chart ++ [10%N] ++ lit "```")])%list.

(** *** [send_to_slack] *)

(** [if not slack_webhook_url]: unset or empty. *)
Definition webhook_url (w : World) : option str :=
  match SLACK_WEBHOOK_URL w with
  | Some (c :: u) => Some (c :: u)
  | _ => None
  end.

(** The [try] block of lines 168-175. *)
Definition post_request (w : World) (url : str) (data : bytes) : M (option bytes) :=
  tell (HttpRequestSent url data) ;;;
  response <~ lift (urlopen w url data) ;;
  if negb (getcode response =? 200)
  then
    tell (LogError (lit "Slack API returned non-200 status code: "
                      ++ str_of_Z (getcode response))%list) ;;;
    ret None
  else
    body <~ lift (read response) ;;
    ret (Some body).

(** [send_to_slack(report)]: the response body, or [None]. *)
Definition send_to_slack (w : World) (report : list json) : M (option bytes) :=
  match webhook_url w with
  | None =>
      tell (LogError (lit "SLACK_WEBHOOK_URL environment variable is not set")) ;;;
      ret None
  | Some url =>
      data <~ lift (encode_utf8 (json_dumps (JObj [(lit "blocks", JArr report)]))) ;;
      tell (HttpRequestBuilt url data) ;;;
      lift (Request w url data) ;;;
      try_except (post_request w url data) is_Exception
        (fun e =>
           tell (LogError (lit "Error sending message to Slack: " ++ exn_msg e)%list) ;;;
           ret None)
  end.

(** *** [lambda_handler] *)

Record response := mk_response { statusCode : Z; body : str }.

(** [if slack_response]: a body that is not empty. *)
Definition truthy_bytes (r : option bytes) : bool :=
  match r with
  | Some (_ :: _) => true
  | _ => false
  end.

(** The [try] block of lines 183-207. *)
Definition handler_body (w : World) : M response :=
  tell (Invoke Analyze_costs) ;;;
  a <~ analyze_costs w ;;
  match a with
  | Some (mk_analysis (e :: es) monthly_costs current_month previous_month) =>
      tell (Invoke Create_report) ;;;
      report <~ lift (create_report (e :: es) monthly_costs current_month previous_month) ;;
      tell (Invoke Send_to_slack) ;;;
      slack_response <~ send_to_slack w report ;;
      if truthy_bytes slack_response
      then
        tell (LogInfo (lit "Report sent to Slack successfully")) ;;;
        ret (mk_response 200 (json_dumps (JStr (lit "Report sent to Slack successfully"))))
      else
        tell (LogError (lit "Failed to send report to Slack")) ;;;
        ret (mk_response 500 (json_dumps (JStr (lit "Error sending report to Slack"))))
  | _ =>
      tell (LogError (lit "Error fetching cost data")) ;;;
      ret (mk_response 500 (json_dumps (JStr (lit "Error fetching cost data"))))
  end.

(** [lambda_handler(event, context)]: the response and the trace of the
    run.  The two arguments are not read. *)
Definition lambda_handler {E C : Type} (event : E) (context : C) (w : World)
    : response * list effect :=
  match handler_body w with
  | (Ok r, t) => (r, t)
  | (Raise e, t) =>
      (mk_response 500 (json_dumps (JStr (lit "Unexpected error: " ++ exn_msg e)%list)),
       (t ++ [LogError (lit "Unexpected error in lambda_handler: " ++ exn_msg e)%list])%list)
  end.

(* ================================================================= *)
(** * Vocabulary of the statements *)
(* ================================================================= *)

(** [a < b] and [a <= b] on strings, as propositions. *)
Definition str_lt (a b : str) : Prop := str_ltb a b = true.
Definition str_le (a b : str) : Prop := str_ltb b a = false.

(** In a list sorted with [lt], [x] may stand before [y] when [y] need
    not come first. *)
Definition may_precede {A} (lt : A -> A -> bool) (x y : A) : Prop := lt y x = false.

(** [a >= b] on numbers, and "is a number" (not NaN). *)
Definition num_ge (a b : num) : Prop := num_leb b a = true.
Definition not_nan (a : num) : Prop := is_nan (to_float a) = false.

(** A key whose lexicographic order is the order of the binary64 numbers:
    the class first (negative infinity, negative, zero, positive, positive
    infinity), then exponent and mantissa. *)
Definition float_key (x : float) : Z * Z * Z :=
  match x with
  | S754_infinity true => (-2, 0, 0)
  | S754_finite true m e => (-1, - e, Zneg m)
  | S754_zero _ => (0, 0, 0)
  | S754_finite false m e => (1, e, Zpos m)
  | S754_infinity false => (2, 0, 0)
  | S754_nan => (3, 0, 0)
  end.

Definition key_compare (a b : Z * Z * Z) : comparison :=
  let '(a1, a2, a3) := a in
  let '(b1, b2, b3) := b in
  match a1 ?= b1 with
  | Eq => match a2 ?= b2 with
          | Eq => a3 ?= b3
          | o => o
          end
  | o => o
  end.

Definition key_lt (a b : Z * Z * Z) : Prop :=
  let '(a1, a2, a3) := a in
  let '(b1, b2, b3) := b in
  a1 < b1 \/ (a1 = b1 /\ (a2 < b2 \/ (a2 = b2 /\ a3 < b3))).

(** The entry that the loop of lines 66-77 computes for one service of the
    current month, given the services of the month before. *)
Definition entry_of (previous_services : dict num) (item : str * num)
    : str * comparison_entry :=
  let previous_cost := match dict_get (fst item) previous_services with
                       | Some c => c
                       | None => PyInt 0
                       end in
  let change := num_sub (snd item) previous_cost in
  (fst item,
   mk_entry (snd item) previous_cost change
     (if num_gtb previous_cost (PyInt 0)
      then num_mul (PyFloat (fdiv (to_float change) (to_float previous_cost))) (PyInt 100)
      else PyFloat float_inf)).

(** A service map as the reshape step builds it: distinct services, every
    amount a [float]. *)
Definition services_ok (d : dict num) : Prop :=
  NoDup (dict_keys d) /\ Forall (fun kv => exists x, snd kv = PyFloat x) d.

(** A monthly cost table as the reshape step builds it. *)
Definition table_ok (mc : dict (dict num)) : Prop :=
  NoDup (dict_keys mc) /\ Forall (fun kv => services_ok (snd kv)) mc.

(** A trace in which no HTTP request was built or sent. *)
Definition no_http (t : list effect) : Prop :=
  forall url data, ~ In (HttpRequestBuilt url data) t /\ ~ In (HttpRequestSent url data) t.

(** A trace in which a component was never entered. *)
Definition not_invoked (c : component) (t : list effect) : Prop := ~ In (Invoke c) t.

(** The response to a run that found no cost data. *)
Definition fetch_error_response : response :=
  mk_response 500 (json_dumps (JStr (lit "Error fetching cost data"))).

(** The other responses of the handler. *)
Definition send_error_response : response :=
  mk_response 500 (json_dumps (JStr (lit "Error sending report to Slack"))).

Definition success_response : response :=
  mk_response 200 (json_dumps (JStr (lit "Report sent to Slack successfully"))).

Definition unexpected_error_response (e : exn) : response :=
  mk_response 500 (json_dumps (JStr (lit "Unexpected error: " ++ exn_msg e)%list)).

(** Text made of ASCII characters only. *)
Definition ascii_only (s : str) : Prop := Forall (fun c => (c < 128)%N) s.

(** What decoding makes of an encoded string: a surrogate pair written as
    two characters comes back as the one character it encodes (and a value
    above the Unicode range, which no [str] holds, is read as the character
    its escapes spell).  Strings without surrogates are unchanged. *)
Definition norm_char (c : char) : char :=
  (if c <? 65536 then c else 65536 + (c - 65536) mod 1048576)%N.

Fixpoint norm_str (s : str) : str :=
  match s with
  | [] => []
  | c :: s' =>
      match s' with
      | d :: s'' =>
          if is_high_surrogate c && is_low_surrogate d
          then join_surrogates c d :: norm_str s''
          else norm_char c :: norm_str s'
      | [] => [norm_char c]
      end
  end.

Fixpoint norm_json (v : json) : json :=
  match v with
  | JStr s => JStr (norm_str s)
  | JArr l => JArr (map norm_json l)
  | JObj members =>
      JObj (dict_of_pairs (map (fun kv => (norm_str (fst kv), norm_json (snd kv))) members))
  end.

(** Fuel that is enough to decode the text of a value. *)
Fixpoint json_size (v : json) : nat :=
  match v with
  | JStr _ => 1
  | JArr l => S (list_sum (map (fun x => S (json_size x)) l))
  | JObj members => S (list_sum (map (fun kv => S (json_size (snd kv))) members))
  end.

(** Text that does not begin with the escape of a low surrogate. *)
Definition no_low_escape (t : str) : Prop :=
  match t with
  | b :: u :: g1 :: g2 :: g3 :: g4 :: _ =>
      ((b =? 92) && (u =? 117))%N = true ->
      exists v, hex4 g1 g2 g3 g4 = Some v /\ is_low_surrogate v = false
  | _ => True
  end.

(** The ["type"] of a display block. *)
Definition block_type (v : json) : option str :=
  match v with
  | JObj members =>
      match dict_get (lit "type") members with
      | Some (JStr t) => Some t
      | _ => None
      end
  | _ => None
  end.

(** ** Binary64 numbers as real numbers

    The chart divides, multiplies and truncates floats.  Its properties
    are stated on the floats themselves; their proofs read a float as the
    real number [m * 2^e] and follow the rounding of [SpecFloat]
    ([binary_round_aux]) step by step. *)

(** [2^e] as a real number. *)
Definition bpow (e : Z) : R := powerRZ 2 e.

(** The real value of a mantissa with its exponent, and of a float (the
    infinities and NaN read as [0]; they are kept apart where it
    matters). *)
Definition F2R (m e : Z) : R := (IZR m * bpow e)%R.

Definition B2R (x : float) : R :=
  match x with
  | S754_finite s m e => F2R (cond_Zopp s (Zpos m)) e
  | _ => 0%R
  end.

(** What a [location] records: where the real [t] lies between the
    integers [m] and [m + 1]. *)
Definition inbetween (m : Z) (l : location) (t : R) : Prop :=
  match l with
  | loc_Exact => t = IZR m
  | loc_Inexact Lt => (IZR m < t < IZR m + 1 / 2)%R
  | loc_Inexact Eq => t = (IZR m + 1 / 2)%R
  | loc_Inexact Gt => (IZR m + 1 / 2 < t < IZR m + 1)%R
  end.

(** The exponent function of binary64, and the exponent [c] at which a
    real [x >= 0] is stored: [emin = -1074] at least, [x < 2^(c+53)], and
    [2^(c+52) <= x] unless [c] is [emin]. *)
Definition fexp64 (k : Z) : Z := SpecFloat.fexp prec emax k.

Definition cexp_ok (x : R) (c : Z) : Prop :=
  -1074 <= c /\ (x < bpow (c + 53))%R /\ (c = -1074 \/ (bpow (c + 52) <= x)%R).

(** [n] is an integer nearest to [t]. *)
Definition near (n : Z) (t : R) : Prop := (IZR n - 1 / 2 <= t <= IZR n + 1 / 2)%R.

(** The float that [binary_round_aux] builds from the rounded mantissa [n]
    at the exponent [c]: zero, the number [n * 2^c] (renormalised when
    [n] reached [2^53]), or an infinity on overflow. *)
Definition pack (s : bool) (n c : Z) : spec_float :=
  if n =? 0 then S754_zero s
  else if n =? 2 ^ 53 then
    if c + 1 <=? 971 then S754_finite s (2 ^ 52)%positive (c + 1) else S754_infinity s
  else if c <=? 971 then S754_finite s (Z.to_pos n) c else S754_infinity s.

(** "Not greater" on keys, and the key of a number. *)
Definition key_le (a b : Z * Z * Z) : Prop := ~ key_lt b a.

Definition num_key (a : num) : Z * Z * Z := float_key (to_float a).

(** A float in canonical form, as every Python float is. *)
Definition valid_float (x : float) : Prop := valid_binary prec emax x = true.

(** A float that is zero, positive or [+inf], in canonical form; a
    positive one. *)
Definition pos_class (r : float) : Prop :=
  r = S754_zero false \/ r = S754_infinity false
  \/ exists m e, r = S754_finite false m e /\ bounded prec emax m e = true.

Definition positive_float (M : float) : Prop :=
  M = S754_infinity false
  \/ exists mM eM, M = S754_finite false mM eM /\ bounded prec emax mM eM = true.

Definition float_one : float := S754_finite false 4503599627370496 (-52).

(** ** The chart

    An amount of the table is a float; a month total is the [int] zero of
    an empty month or a float. *)
Definition valid_amount (a : num) : Prop := exists x, a = PyFloat x /\ valid_float x.

Definition amounts_valid (mc : dict (dict num)) : Prop :=
  Forall (fun kv => Forall (fun sv => valid_amount (snd sv)) (snd kv)) mc.

Definition total_ok (a : num) : Prop := a = PyInt 0 \/ valid_amount a.

(** [bar_length] on the floats of its arguments:
    [int((x / max_cost) * 20)]. *)
Definition bar_float (x max_cost : float) : result Z :=
  float_trunc (fmul (fdiv x max_cost) (to_float (PyInt chart_width))).

(** [-a], on a number and on the result of [int]. *)
Definition py_neg (a : num) : num :=
  match a with
  | PyInt z => PyInt (- z)
  | PyFloat x => PyFloat (SFopp x)
  end.

Definition opp_result (r : result Z) : result Z :=
  match r with
  | Ok z => Ok (- z)
  | Raise e => Raise e
  end.

(** The rounding that the specification names for the bar, [floor], in
    place of the [int] of the source: [math.floor(x)], and the bar length
    [floor((cost / max_cost) * 20)] computed with it. *)
Definition float_floor (x : float) : result Z :=
  match x with
  | S754_zero _ => Ok 0
  | S754_finite s m e =>
      let z := if s then Zneg m else Zpos m in
      Ok (match e with
          | Zneg p => Z.shiftr z (Zpos p)
          | _ => Z.shiftl z e
          end)
  | S754_infinity _ => raise OverflowError "cannot convert float infinity to integer"
  | S754_nan => raise ValueError "cannot convert float NaN to integer"
  end.

Definition py_floor (a : num) : result Z :=
  match a with
  | PyInt z => Ok z
  | PyFloat x => float_floor x
  end.

Definition bar_length_floor (cost max_cost : num) : result Z :=
  ratio <- num_div cost max_cost ;;
  py_floor (num_mul ratio (PyInt chart_width)).

(** ** Dates, tables, payloads and runs

    The vocabulary of the properties that go beyond the specification's
    own: checks evaluated over a calendar cycle, the key of a month, JSON
    values that decode to themselves, and the runs of the handler. *)

(** What [get_date_range] finds 180 days before the first of month [m] of
    year [y]: a day 2 to 5 of the month six months earlier. *)
Definition six_months_back_ok (y m : Z) : bool :=
  let end_date := mk_date y m 1 in
  let r := civil_from_days (days_from_civil end_date - 180) in
  (year r =? (if m <=? 6 then y - 1 else y))
  && (month r =? (if m <=? 6 then m + 6 else m - 6))
  && (2 <=? day r) && (day r <=? 5)
  && (days_from_civil r =? days_from_civil end_date - 180).

(** The four digits [strftime] writes for year [y] are read back as [y]. *)
Definition year_digits_ok (y : Z) : bool :=
  match zero_pad 4 (Z.to_N y) with
  | [a; b; c; e] =>
      is_digit a && is_digit b && is_digit c && is_digit e
      && (((digit_val a * 10 + digit_val b) * 10 + digit_val c) * 10 + digit_val e =? y)
  | _ => false
  end.

(** The text [strftime] writes for month [m] and day [d] is read back as
    [m] and [d], and the month takes two characters. *)
Definition month_day_digits_ok (m d : Z) : bool :=
  (length (zero_pad 2 (Z.to_N m)) =? 2)%nat
  && match scan_month (zero_pad 2 (Z.to_N m) ++ 45%N :: zero_pad 2 (Z.to_N d)) with
     | Some (m', s2) =>
         (m' =? m)
         && match scan_day s2 with
            | Some (d', []) => d' =? d
            | _ => false
            end
     | None => false
     end.

(** The key under which the reshape loop files a result:
    [strptime(Start, "%Y-%m-%d").strftime("%Y-%m")]. *)
Definition month_key (month_data : result_by_time) : result str :=
  d <- strptime_Ymd (Start month_data) ;;
  Ok (strftime_Ym d).

(** A string of Unicode scalar values: code points in range that are not
    surrogates; a JSON value whose strings are such and whose objects have
    distinct keys. *)
Definition plain_char (c : char) : bool :=
  ((c <=? MAX_CODE_POINT) && negb ((55296 <=? c) && (c <=? 57343)))%N.

Definition plain_str (s : str) : Prop := forallb plain_char s = true.

#[local] Unset Elimination Schemes.
Inductive plain_json : json -> Prop :=
| plain_JStr (s : str) : plain_str s -> plain_json (JStr s)
| plain_JArr (l : list json) : Forall plain_json l -> plain_json (JArr l)
| plain_JObj (members : list (str * json)) :
    NoDup (map fst members) ->
    Forall (fun kv => plain_str (fst kv)) members ->
    Forall (fun kv => plain_json (snd kv)) members ->
    plain_json (JObj members).
#[local] Set Elimination Schemes.

(** Kinds of effect. *)
Definition is_billing_query (ev : effect) : bool :=
  match ev with CostExplorerQuery _ _ => true | _ => false end.

Definition is_http_sent (ev : effect) : bool :=
  match ev with HttpRequestSent _ _ => true | _ => false end.

Definition is_log_error (ev : effect) : bool :=
  match ev with LogError _ => true | _ => false end.

(** The runs of the handler: the response and the trace of each way
    through the pipeline, with what the world answered on that way. *)
Inductive run_shape (w : World) : response -> list effect -> Prop :=
| run_dates_fail (ex : exn) :
    get_date_range w = Raise ex ->
    run_shape w (unexpected_error_response ex)
      [Invoke Analyze_costs; Invoke Get_date_range;
       LogError (lit "Unexpected error in lambda_handler: " ++ exn_msg ex)]
| run_client_error (s e : str) (ex : exn) :
    get_date_range w = Ok (s, e) ->
    get_cost_and_usage w s e = Raise ex -> exn_cls ex = ClientError ->
    run_shape w fetch_error_response
      [Invoke Analyze_costs; Invoke Get_date_range; Invoke Get_cost_data;
       CostExplorerQuery s e;
       LogError (lit "An error occurred while fetching cost data: " ++ exn_msg ex);
       LogError (lit "Error fetching cost data")]
| run_analysis_fail (s e : str) (ex : exn) :
    get_date_range w = Ok (s, e) ->
    run_shape w (unexpected_error_response ex)
      [Invoke Analyze_costs; Invoke Get_date_range; Invoke Get_cost_data;
       CostExplorerQuery s e;
       LogError (lit "Unexpected error in lambda_handler: " ++ exn_msg ex)]
| run_no_data (s e : str) :
    get_date_range w = Ok (s, e) ->
    run_shape w fetch_error_response
      [Invoke Analyze_costs; Invoke Get_date_range; Invoke Get_cost_data;
       CostExplorerQuery s e;
       LogError (lit "Error fetching cost data")]
| run_report_fail (s e : str) (ex : exn) :
    get_date_range w = Ok (s, e) ->
    run_shape w (unexpected_error_response ex)
      [Invoke Analyze_costs; Invoke Get_date_range; Invoke Get_cost_data;
       CostExplorerQuery s e; Invoke Create_report;
       LogError (lit "Unexpected error in lambda_handler: " ++ exn_msg ex)]
| run_no_url (s e : str) :
    get_date_range w = Ok (s, e) -> webhook_url w = None ->
    run_shape w send_error_response
      [Invoke Analyze_costs; Invoke Get_date_range; Invoke Get_cost_data;
       CostExplorerQuery s e; Invoke Create_report; Invoke Send_to_slack;
       LogError (lit "SLACK_WEBHOOK_URL environment variable is not set");
       LogError (lit "Failed to send report to Slack")]
| run_request_fail (s e url : str) (report : list json) (ex : exn) :
    get_date_range w = Ok (s, e) -> SLACK_WEBHOOK_URL w = Some url ->
    Request w url (json_dumps (JObj [(lit "blocks", JArr report)])) = Raise ex ->
    run_shape w (unexpected_error_response ex)
      [Invoke Analyze_costs; Invoke Get_date_range; Invoke Get_cost_data;
       CostExplorerQuery s e; Invoke Create_report; Invoke Send_to_slack;
       HttpRequestBuilt url (json_dumps (JObj [(lit "blocks", JArr report)]));
       LogError (lit "Unexpected error in lambda_handler: " ++ exn_msg ex)]
| run_delivery_fail (s e url : str) (report : list json) (msg : str) :
    get_date_range w = Ok (s, e) -> SLACK_WEBHOOK_URL w = Some url ->
    (forall resp b,
       urlopen w url (json_dumps (JObj [(lit "blocks", JArr report)])) = Ok resp ->
       getcode resp = 200 -> read resp = Ok b -> False) ->
    run_shape w send_error_response
      [Invoke Analyze_costs; Invoke Get_date_range; Invoke Get_cost_data;
       CostExplorerQuery s e; Invoke Create_report; Invoke Send_to_slack;
       HttpRequestBuilt url (json_dumps (JObj [(lit "blocks", JArr report)]));
       HttpRequestSent url (json_dumps (JObj [(lit "blocks", JArr report)]));
       LogError msg;
       LogError (lit "Failed to send report to Slack")]
| run_empty_body (s e url : str) (report : list json) (resp : http_response) :
    get_date_range w = Ok (s, e) -> SLACK_WEBHOOK_URL w = Some url ->
    urlopen w url (json_dumps (JObj [(lit "blocks", JArr report)])) = Ok resp ->
    getcode resp = 200 -> read resp = Ok [] ->
    run_shape w send_error_response
      [Invoke Analyze_costs; Invoke Get_date_range; Invoke Get_cost_data;
       CostExplorerQuery s e; Invoke Create_report; Invoke Send_to_slack;
       HttpRequestBuilt url (json_dumps (JObj [(lit "blocks", JArr report)]));
       HttpRequestSent url (json_dumps (JObj [(lit "blocks", JArr report)]));
       LogError (lit "Failed to send report to Slack")]
| run_success (s e url : str) (data : list result_by_time) (a : analysis)
    (report : list json) (resp : http_response) (c : N) (b : bytes) :
    get_date_range w = Ok (s, e) ->
    get_cost_and_usage w s e = Ok data ->
    process_cost_data data = Ok a ->
    create_report (top_10_comparison a) (monthly_costs_of a)
                  (current_month_of a) (previous_month_of a) = Ok report ->
    SLACK_WEBHOOK_URL w = Some url ->
    Request w url (json_dumps (JObj [(lit "blocks", JArr report)])) = Ok tt ->
    urlopen w url (json_dumps (JObj [(lit "blocks", JArr report)])) = Ok resp ->
    getcode resp = 200 -> read resp = Ok (c :: b) ->
    run_shape w success_response
      [Invoke Analyze_costs; Invoke Get_date_range; Invoke Get_cost_data;
       CostExplorerQuery s e; Invoke Create_report; Invoke Send_to_slack;
       HttpRequestBuilt url (json_dumps (JObj [(lit "blocks", JArr report)]));
       HttpRequestSent url (json_dumps (JObj [(lit "blocks", JArr report)]));
       LogInfo (lit "Report sent to Slack successfully")].

(** ** Sample data

    The scenario of the specification, with one service that is new in the
    current month, and a month of twelve services. *)
Definition sample_group (service amount : string) : group :=
  mk_group [lit service] (lit amount).

Definition sample_cost_data : list result_by_time :=
  [mk_result_by_time (lit "2024-05-01")
     [sample_group "EC2" "100.0"; sample_group "S3" "50.0"];
   mk_result_by_time (lit "2024-06-01")
     [sample_group "EC2" "120.0"; sample_group "S3" "40.0"; sample_group "Lambda" "3.5"]].

Definition twelve_services : list group :=
  [sample_group "A" "5.0"; sample_group "B" "11.5"; sample_group "C" "0.25";
   sample_group "D" "7.0"; sample_group "E" "7.0"; sample_group "F" "1200.0";
   sample_group "G" "3.0"; sample_group "H" "0.0"; sample_group "I" "42.0";
   sample_group "J" "8.75"; sample_group "K" "19.0"; sample_group "L" "2.5"].

Definition sample_cost_data_12 : list result_by_time :=
  [mk_result_by_time (lit "2024-05-01") [sample_group "A" "4.0"];
   mk_result_by_time (lit "2024-06-01") twelve_services].

Definition table_of (cost_data : list result_by_time) : dict (dict num) :=
  match build_monthly_costs cost_data [] with
  | Ok mc => mc
  | Raise _ => []
  end.

Definition sample_analysis : analysis :=
  match process_cost_data sample_cost_data with
  | Ok a => a
  | Raise _ => mk_analysis [] [] [] []
  end.

Definition sample_report : list json :=
  match create_report (top_10_comparison sample_analysis) (monthly_costs_of sample_analysis)
          (current_month_of sample_analysis) (previous_month_of sample_analysis) with
  | Ok r => r
  | Raise _ => []
  end.

Definition sample_url : str := lit "https://hooks.slack.com/services/T000/B000/XXXX".

(** A world in which everything works and the webhook answers [ok]. *)
Definition sample_world : World :=
  mk_World (mk_date 2024 7 15)
           (fun _ _ => Ok sample_cost_data)
           (Some sample_url)
           (fun _ _ => Ok tt)
           (fun _ _ => Ok (mk_http_response 200 (Ok (lit "ok")))).

(** The same world with a throttled billing query, without cost data,
    without the webhook URL, and with a webhook that answers with an empty
    body. *)
Definition throttled_world : World :=
  mk_World (mk_date 2024 7 15)
           (fun _ _ => Raise (mk_exn ClientError
              (lit "An error occurred (ThrottlingException) when calling the GetCostAndUsage operation: Rate exceeded")))
           (Some sample_url)
           (fun _ _ => Ok tt)
           (fun _ _ => Ok (mk_http_response 200 (Ok (lit "ok")))).

Definition empty_world : World :=
  mk_World (mk_date 2024 7 15)
           (fun _ _ => Ok [])
           (Some sample_url)
           (fun _ _ => Ok tt)
           (fun _ _ => Ok (mk_http_response 200 (Ok (lit "ok")))).

Definition no_url_world : World :=
  mk_World (mk_date 2024 7 15)
           (fun _ _ => Ok sample_cost_data)
           None
           (fun _ _ => Ok tt)
           (fun _ _ => Ok (mk_http_response 200 (Ok (lit "ok")))).

Definition empty_body_world : World :=
  mk_World (mk_date 2024 7 15)
           (fun _ _ => Ok sample_cost_data)
           (Some sample_url)
           (fun _ _ => Ok tt)
           (fun _ _ => Ok (mk_http_response 200 (Ok []))).

(** A month of refunds before a month of spend, and the two month totals
    of that table, [-1.0] and [100.0]. *)
Definition refund_cost_data : list result_by_time :=
  [mk_result_by_time (lit "2024-05-01") [sample_group "Refund" "-1.0"];
   mk_result_by_time (lit "2024-06-01") [sample_group "EC2" "100.0"]].

Definition refund_total : num := PyFloat (S754_finite true 4503599627370496 (-52)).
Definition spend_total : num := PyFloat (S754_finite false 7036874417766400 (-46)).

(** Billing data in which May comes twice, data of a single month, and
    data of two months without cost. *)
Definition repeated_month_cost_data : list result_by_time :=
  [mk_result_by_time (lit "2024-05-01") [sample_group "EC2" "1.0"];
   mk_result_by_time (lit "2024-06-01") [sample_group "S3" "2.0"];
   mk_result_by_time (lit "2024-05-01") [sample_group "Lambda" "3.0"]].

Definition single_month_cost_data : list result_by_time :=
  [mk_result_by_time (lit "2024-06-01") [sample_group "EC2" "120.0"]].

Definition single_month_world : World :=
  mk_World (mk_date 2024 7 15)
           (fun _ _ => Ok single_month_cost_data)
           (Some sample_url)
           (fun _ _ => Ok tt)
           (fun _ _ => Ok (mk_http_response 200 (Ok (lit "ok")))).

Definition free_tier_cost_data : list result_by_time :=
  [mk_result_by_time (lit "2024-05-01") [sample_group "EC2" "0.0"];
   mk_result_by_time (lit "2024-06-01") [sample_group "EC2" "0.0"]].

(** ** Proof automation *)

(** Linear arithmetic with division and remainder by constants. *)
Ltac div_lia := zify; Z.to_euclidean_division_equations; lia.
(* ================================================================= *)
(** * Part II. Properties *)
(* ================================================================= *)

(** ** Strings: the order of [str] *)

Lemma str_compare_refl (a : str) : str_compare a a = Eq.
Proof.
  induction a as [|x a IH]; simpl; [reflexivity|].
  now rewrite N.compare_refl.
Qed.

Lemma str_compare_eq (a b : str) : str_compare a b = Eq -> a = b.
Proof.
  revert b; induction a as [|x a IH]; intros [|y b]; simpl; try easy.
  destruct (N.compare_spec x y) as [->|H|H]; try easy.
  intros E; f_equal; auto.
Qed.

Lemma str_compare_antisym (a b : str) :
  str_compare b a = CompOpp (str_compare a b).
Proof.
  revert b; induction a as [|x a IH]; intros [|y b]; simpl; try easy.
  rewrite (N.compare_antisym x y).
  destruct (N.compare x y); simpl; auto.
Qed.

Lemma str_compare_trans (a b c : str) :
  str_compare a b = Lt -> str_compare b c = Lt -> str_compare a c = Lt.
Proof.
  revert b c; induction a as [|x a IH]; intros [|y b] [|z c]; simpl; try easy.
  destruct (N.compare_spec x y) as [->|Hxy|Hxy]; try easy.
  - destruct (N.compare_spec y z) as [->|Hyz|Hyz]; try easy.
    apply IH.
  - destruct (N.compare_spec y z) as [->|Hyz|Hyz]; try easy; intros _ _.
    + now apply N.compare_lt_iff in Hxy; rewrite Hxy.
    + assert (H : (x < z)%N) by lia.
      now apply N.compare_lt_iff in H; rewrite H.
Qed.

Lemma str_eqb_eq (a b : str) : str_eqb a b = true <-> a = b.
Proof.
  unfold str_eqb; split.
  - destruct (str_compare a b) eqn:E; try easy. intros _; now apply str_compare_eq.
  - intros ->; now rewrite str_compare_refl.
Qed.

Lemma str_eqb_refl (a : str) : str_eqb a a = true.
Proof. now apply str_eqb_eq. Qed.

Lemma str_eqb_neq (a b : str) : str_eqb a b = false <-> a <> b.
Proof.
  split.
  - intros E H; apply str_eqb_eq in H; congruence.
  - intros H; destruct (str_eqb a b) eqn:E; [|reflexivity].
    apply str_eqb_eq in E; contradiction.
Qed.

Lemma str_lt_trans (a b c : str) : str_lt a b -> str_lt b c -> str_lt a c.
Proof.
  unfold str_lt, str_ltb.
  destruct (str_compare a b) eqn:E1; try easy.
  destruct (str_compare b c) eqn:E2; try easy.
  now rewrite (str_compare_trans _ _ _ E1 E2).
Qed.

Lemma str_lt_irrefl (a : str) : ~ str_lt a a.
Proof. unfold str_lt, str_ltb; now rewrite str_compare_refl. Qed.

Lemma str_le_cases (a b : str) : str_le a b <-> a = b \/ str_lt a b.
Proof.
  unfold str_le, str_lt, str_ltb.
  rewrite (str_compare_antisym a b).
  destruct (str_compare a b) eqn:E; simpl; split; try easy; auto.
  - intros _; left; now apply str_compare_eq.
  - intros [->|H]; [|easy]. now rewrite str_compare_refl in E.
Qed.

Lemma str_lt_asym (a b : str) : str_ltb a b = true -> str_ltb b a = false.
Proof.
  unfold str_ltb. rewrite (str_compare_antisym a b).
  now destruct (str_compare a b).
Qed.

Lemma str_le_trans (a b c : str) : str_le a b -> str_le b c -> str_le a c.
Proof.
  rewrite !str_le_cases.
  intros [->|H1] [->|H2]; auto.
  right; eapply str_lt_trans; eauto.
Qed.

(** ** The stable sort *)

Section StableSort.
Context {A : Type}.
Variable lt : A -> A -> bool.

#[local] Abbreviation may_precede := (may_precede lt).

Lemma insert_stable_perm (x : A) (l : list A) :
  Permutation (insert_stable lt x l) (x :: l).
Proof.
  induction l as [|y l IH]; simpl; [apply Permutation_refl|].
  destruct (lt y x).
  - eapply perm_trans; [apply perm_skip, IH|apply perm_swap].
  - apply Permutation_refl.
Qed.

Lemma sorted_by_perm (l : list A) : Permutation (sorted_by lt l) l.
Proof.
  induction l as [|x l IH]; simpl; [constructor|].
  eapply perm_trans; [apply insert_stable_perm|now apply perm_skip].
Qed.

Lemma sorted_by_length (l : list A) : length (sorted_by lt l) = length l.
Proof. apply Permutation_length, sorted_by_perm. Qed.

Lemma sorted_by_In (l : list A) (x : A) : In x (sorted_by lt l) <-> In x l.
Proof.
  split; apply Permutation_in; [|apply Permutation_sym]; apply sorted_by_perm.
Qed.

(** On a domain [P] where [lt] is asymmetric and "need not come first" is
    transitive, the sort puts every element before all those it may
    precede. *)
Variable P : A -> Prop.
Hypothesis lt_asym : forall x y, P x -> P y -> lt x y = true -> lt y x = false.
Hypothesis may_precede_trans :
  forall x y z, P x -> P y -> P z ->
    may_precede x y -> may_precede y z -> may_precede x z.

Lemma insert_stable_sorted (x : A) (l : list A) :
  P x -> Forall P l -> StronglySorted may_precede l ->
  StronglySorted may_precede (insert_stable lt x l).
Proof.
  intros Px Pl Hs; induction Hs as [|y l Hs IH Hy]; simpl.
  - repeat constructor.
  - inversion Pl as [|? ? Py Pl']; subst.
    destruct (lt y x) eqn:E.
    + constructor; [now apply IH|].
      apply Forall_forall; intros z Hz.
      apply (Permutation_in _ (insert_stable_perm x l)) in Hz.
      destruct Hz as [<-|Hz].
      * unfold may_precede; now apply lt_asym.
      * rewrite Forall_forall in Hy; auto.
    + constructor; [now constructor|].
      constructor; [exact E|].
      rewrite Forall_forall in *; intros z Hz.
      apply (may_precede_trans x y z); auto.
Qed.

Lemma sorted_by_sorted (l : list A) :
  Forall P l -> StronglySorted may_precede (sorted_by lt l).
Proof.
  induction l as [|x l IH]; simpl; intros Pl; [constructor|].
  inversion Pl as [|? ? Px Pl']; subst.
  apply insert_stable_sorted; [exact Px| |exact (IH Pl')].
  apply Forall_forall; intros z Hz.
  apply (proj1 (sorted_by_In l z)) in Hz.
  rewrite Forall_forall in Pl'; now apply Pl'.
Qed.

End StableSort.

(** [sorted(keys)] is the keys in ascending order. *)
Lemma sorted_str_sorted (l : list str) : StronglySorted str_le (sorted_str l).
Proof.
  apply (sorted_by_sorted str_ltb (fun _ => True)); unfold may_precede.
  - intros x y _ _; apply str_lt_asym.
  - intros x y z _ _ _; apply str_le_trans.
  - now apply Forall_forall.
Qed.

Lemma sorted_str_perm (l : list str) : Permutation (sorted_str l) l.
Proof. apply sorted_by_perm. Qed.

(** Without repeated keys the order is strict. *)
Lemma sorted_str_strict (l : list str) :
  NoDup l -> StronglySorted str_lt (sorted_str l).
Proof.
  intros Hnd.
  assert (Hnd' : NoDup (sorted_str l)).
  { eapply Permutation_NoDup; [apply Permutation_sym, sorted_str_perm|exact Hnd]. }
  pose proof (sorted_str_sorted l) as Hs.
  induction Hs as [|x m Hs IH Hx]; [constructor|].
  inversion Hnd' as [|? ? Hnotin Hnd'']; subst.
  constructor; [auto|].
  rewrite Forall_forall in *; intros y Hy.
  destruct (proj1 (str_le_cases x y) (Hx y Hy)) as [->|H]; [contradiction|exact H].
Qed.

(** ** Dicts *)

Lemma dict_set_keys {V} (k : str) (v : V) (d : dict V) :
  dict_keys (dict_set k v d)
  = if existsb (str_eqb k) (dict_keys d) then dict_keys d else (dict_keys d ++ [k])%list.
Proof.
  induction d as [|[k' v'] d IH]; simpl; [reflexivity|].
  destruct (str_eqb k k') eqn:E; simpl; [reflexivity|].
  unfold dict_keys in *; rewrite IH.
  now destruct (existsb (str_eqb k) (map fst d)).
Qed.

Lemma existsb_str_eqb (k : str) (l : list str) :
  existsb (str_eqb k) l = true <-> In k l.
Proof.
  rewrite existsb_exists; split.
  - intros [x [Hx E]]; apply str_eqb_eq in E; now subst.
  - intros H; exists k; split; [exact H|apply str_eqb_refl].
Qed.

Lemma dict_set_NoDup {V} (k : str) (v : V) (d : dict V) :
  NoDup (dict_keys d) -> NoDup (dict_keys (dict_set k v d)).
Proof.
  intros Hnd; rewrite dict_set_keys.
  destruct (existsb (str_eqb k) (dict_keys d)) eqn:E; [exact Hnd|].
  apply NoDup_app; [exact Hnd|repeat constructor; auto|].
  intros a Ha [<-|[]].
  apply existsb_str_eqb in Ha; congruence.
Qed.

Lemma dict_set_In_keys {V} (k k0 : str) (v : V) (d : dict V) :
  In k0 (dict_keys (dict_set k v d)) <-> k0 = k \/ In k0 (dict_keys d).
Proof.
  rewrite dict_set_keys.
  destruct (existsb (str_eqb k) (dict_keys d)) eqn:E.
  - apply existsb_str_eqb in E; split; [auto|intros [->|H]; auto].
  - rewrite in_app_iff; simpl; split; [intros [H|[<-|[]]]; auto|intros [->|H]; auto].
Qed.

Lemma dict_get_set_same {V} (k : str) (v : V) (d : dict V) :
  dict_get k (dict_set k v d) = Some v.
Proof.
  induction d as [|[k' v'] d IH]; simpl.
  - now rewrite str_eqb_refl.
  - destruct (str_eqb k k') eqn:E; simpl; rewrite E; auto.
Qed.

Lemma dict_get_set_other {V} (k k0 : str) (v : V) (d : dict V) :
  k0 <> k -> dict_get k0 (dict_set k v d) = dict_get k0 d.
Proof.
  intros Hne; induction d as [|[k' v'] d IH]; simpl.
  - apply str_eqb_neq in Hne; now rewrite Hne.
  - destruct (str_eqb k k') eqn:E; simpl.
    + apply str_eqb_eq in E; subst k'.
      apply str_eqb_neq in Hne; now rewrite Hne.
    + now rewrite IH.
Qed.

Lemma dict_get_In {V} (k : str) (v : V) (d : dict V) :
  dict_get k d = Some v -> In (k, v) d.
Proof.
  induction d as [|[k' v'] d IH]; simpl; [easy|].
  destruct (str_eqb k k') eqn:E.
  - apply str_eqb_eq in E; subst; intros [= ->]; now left.
  - intros H; right; auto.
Qed.

Lemma dict_get_Some_iff {V} (k : str) (d : dict V) :
  (exists v, dict_get k d = Some v) <-> In k (dict_keys d).
Proof.
  induction d as [|[k' v'] d IH]; simpl.
  - split; [intros [v H]; easy|easy].
  - destruct (str_eqb k k') eqn:E.
    + apply str_eqb_eq in E; subst; split; [auto|intros _; eauto].
    + apply str_eqb_neq in E. rewrite IH; split; [auto|intros [H|H]; congruence].
Qed.

Lemma In_dict_get {V} (k : str) (v : V) (d : dict V) :
  NoDup (dict_keys d) -> In (k, v) d -> dict_get k d = Some v.
Proof.
  induction d as [|[k' v'] d IH]; simpl; [easy|].
  intros Hnd [[= -> ->]|Hin].
  - now rewrite str_eqb_refl.
  - inversion Hnd as [|? ? Hnotin Hnd']; subst.
    destruct (str_eqb k k') eqn:E; [|auto].
    apply str_eqb_eq in E; subst k'.
    exfalso; apply Hnotin. unfold dict_keys. now apply (in_map fst) in Hin.
Qed.

Lemma dict_set_In {V} (k k0 : str) (v v0 : V) (d : dict V) :
  In (k0, v0) (dict_set k v d) -> (k0 = k /\ v0 = v) \/ In (k0, v0) d.
Proof.
  induction d as [|[k' v'] d IH]; simpl.
  - intros [[= <- <-]|[]]; auto.
  - destruct (str_eqb k k') eqn:E; simpl.
    + apply str_eqb_eq in E; subst k'.
      intros [[= <- <-]|H]; auto.
    + intros [H|H]; auto. destruct (IH H); auto.
Qed.

(** [dict(pairs)] from the dict built so far. *)
Lemma fold_dict_set_NoDup {V} (pairs : list (str * V)) (d : dict V) :
  NoDup (dict_keys d) ->
  NoDup (dict_keys (fold_left (fun d kv => dict_set (fst kv) (snd kv) d) pairs d)).
Proof.
  revert d; induction pairs as [|[k v] pairs IH]; simpl; intros d Hnd; [exact Hnd|].
  apply IH, dict_set_NoDup, Hnd.
Qed.

Lemma dict_of_pairs_NoDup {V} (pairs : list (str * V)) :
  NoDup (dict_keys (dict_of_pairs pairs)).
Proof. apply fold_dict_set_NoDup; constructor. Qed.

Lemma fold_dict_set_In {V} (pairs : list (str * V)) (d : dict V) (k : str) (v : V) :
  In (k, v) (fold_left (fun d kv => dict_set (fst kv) (snd kv) d) pairs d) ->
  In (k, v) pairs \/ In (k, v) d.
Proof.
  revert d; induction pairs as [|[k' v'] pairs IH]; simpl; intros d H; [auto|].
  destruct (IH _ H) as [H'|H']; [auto|].
  destruct (dict_set_In _ _ _ _ _ H') as [[-> ->]|H'']; auto.
Qed.

Lemma dict_of_pairs_In {V} (pairs : list (str * V)) (k : str) (v : V) :
  In (k, v) (dict_of_pairs pairs) -> In (k, v) pairs.
Proof. intros H; destruct (fold_dict_set_In _ _ _ _ H) as [H'|[]]; exact H'. Qed.

(** With distinct keys, [dict(pairs)] is the pairs in their order. *)
Lemma fold_dict_set_distinct {V} (pairs : list (str * V)) (d : dict V) :
  NoDup (dict_keys d ++ map fst pairs) ->
  fold_left (fun d kv => dict_set (fst kv) (snd kv) d) pairs d = (d ++ pairs)%list.
Proof.
  revert d; induction pairs as [|[k v] pairs IH]; simpl; intros d Hnd.
  - now rewrite app_nil_r.
  - assert (Hset : dict_set k v d = (d ++ [(k, v)])%list).
    { apply NoDup_remove_2 in Hnd.
      assert (Hk : ~ In k (dict_keys d)) by (intros H; apply Hnd, in_or_app; auto).
      clear -Hk. induction d as [|[k' v'] d IHd]; simpl; [reflexivity|].
      destruct (str_eqb k k') eqn:E.
      - apply str_eqb_eq in E; subst; exfalso; apply Hk; now left.
      - f_equal; apply IHd; intros H; apply Hk; now right. }
    rewrite Hset, IH.
    + now rewrite <- app_assoc.
    + unfold dict_keys in *. rewrite map_app, <- app_assoc. exact Hnd.
Qed.

Lemma dict_of_pairs_distinct {V} (pairs : list (str * V)) :
  NoDup (map fst pairs) -> dict_of_pairs pairs = pairs.
Proof. intros H; apply (fold_dict_set_distinct pairs []); exact H. Qed.

(** ** Results *)

Lemma mapM_Ok_Forall2 {A B} (f : A -> result B) (l : list A) (bs : list B) :
  mapM f l = Ok bs -> Forall2 (fun a b => f a = Ok b) l bs.
Proof.
  revert bs; induction l as [|a l IH]; simpl; intros bs.
  - intros [= <-]; constructor.
  - destruct (f a) as [b|e] eqn:Ea; simpl; [|easy].
    destruct (mapM f l) as [bs'|e] eqn:El; simpl; [|easy].
    intros [= <-]; constructor; auto.
Qed.

Lemma mapM_Ok_In {A B} (f : A -> result B) (l : list A) (bs : list B) (b : B) :
  mapM f l = Ok bs -> In b bs -> exists a, In a l /\ f a = Ok b.
Proof.
  intros H; apply mapM_Ok_Forall2 in H.
  induction H as [|a b' l bs Hab H IH]; simpl; [easy|].
  intros [<-|Hin]; [eauto|].
  destruct (IH Hin) as (a' & Ha' & Hf); eauto.
Qed.

Lemma mapM_Ok_length {A B} (f : A -> result B) (l : list A) (bs : list B) :
  mapM f l = Ok bs -> length bs = length l.
Proof. intros H; symmetry; eapply Forall2_length, mapM_Ok_Forall2, H. Qed.

Lemma mapM_total {A B} (f : A -> result B) (g : A -> B) (l : list A) :
  (forall a, In a l -> f a = Ok (g a)) -> mapM f l = Ok (map g l).
Proof.
  induction l as [|a l IH]; simpl; intros H; [reflexivity|].
  rewrite (H a (or_introl eq_refl)); simpl.
  rewrite IH; [reflexivity|]; intros b Hb; apply H; now right.
Qed.

(** ** Numbers: the order of binary64 *)

Lemma SFcompare_key (x y : float) :
  is_nan x = false -> is_nan y = false ->
  SFcompare x y = Some (key_compare (float_key x) (float_key y)).
Proof.
  destruct x as [sx|sx| |sx mx ex], y as [sy|sy| |sy my ey]; simpl; try easy;
    intros _ _; try (destruct sx; reflexivity); try (destruct sy; reflexivity);
    try (destruct sx, sy; reflexivity).
  destruct sx, sy; simpl; try reflexivity.
  rewrite Z.compare_opp, (Z.compare_antisym ex ey).
  destruct (ex ?= ey); reflexivity.
Qed.

Lemma key_compare_Lt (a b : Z * Z * Z) : key_compare a b = Lt <-> key_lt a b.
Proof.
  destruct a as [[a1 a2] a3], b as [[b1 b2] b3]; unfold key_compare, key_lt.
  destruct (Z.compare_spec a1 b1), (Z.compare_spec a2 b2), (Z.compare_spec a3 b3);
    split; intros Hk; try discriminate; try reflexivity; lia.
Qed.

Lemma key_compare_Gt (a b : Z * Z * Z) : key_compare a b = Gt <-> key_lt b a.
Proof.
  destruct a as [[a1 a2] a3], b as [[b1 b2] b3]; unfold key_compare, key_lt.
  destruct (Z.compare_spec a1 b1), (Z.compare_spec a2 b2), (Z.compare_spec a3 b3);
    split; intros Hk; try discriminate; try reflexivity; lia.
Qed.

Lemma fltb_key (x y : float) :
  is_nan x = false -> is_nan y = false ->
  (fltb x y = true <-> key_lt (float_key x) (float_key y)).
Proof.
  intros Hx Hy; unfold fltb, SFltb; rewrite (SFcompare_key x y Hx Hy).
  rewrite <- key_compare_Lt.
  destruct (key_compare (float_key x) (float_key y)); split; congruence.
Qed.

Lemma fleb_key (x y : float) :
  is_nan x = false -> is_nan y = false ->
  (fleb x y = true <-> ~ key_lt (float_key y) (float_key x)).
Proof.
  intros Hx Hy; unfold fleb, SFleb; rewrite (SFcompare_key x y Hx Hy).
  rewrite <- key_compare_Gt.
  destruct (key_compare (float_key x) (float_key y)); split; congruence.
Qed.

Lemma key_lt_trans (a b c : Z * Z * Z) : key_lt a b -> key_lt b c -> key_lt a c.
Proof.
  destruct a as [[a1 a2] a3], b as [[b1 b2] b3], c as [[c1 c2] c3].
  unfold key_lt; lia.
Qed.

Lemma key_lt_total (a b : Z * Z * Z) : key_lt a b \/ a = b \/ key_lt b a.
Proof.
  destruct a as [[a1 a2] a3], b as [[b1 b2] b3]; unfold key_lt.
  destruct (Z.lt_total a1 b1) as [H|[H|H]]; [lia| |lia].
  destruct (Z.lt_total a2 b2) as [H'|[H'|H']]; [lia| |lia].
  destruct (Z.lt_total a3 b3) as [H''|[H''|H'']]; [lia| |lia].
  right; left; congruence.
Qed.

Lemma key_lt_irrefl (a : Z * Z * Z) : ~ key_lt a a.
Proof. destruct a as [[a1 a2] a3]; unfold key_lt; lia. Qed.

(** Among numbers, "not less" is "greater or equal". *)
Lemma fltb_false_fleb (x y : float) :
  is_nan x = false -> is_nan y = false -> fltb x y = false -> fleb y x = true.
Proof.
  intros Hx Hy H. apply fleb_key; auto.
  intros Hlt. apply (fltb_key x y Hx Hy) in Hlt. congruence.
Qed.

Lemma fltb_asym (x y : float) : fltb x y = true -> fltb y x = false.
Proof.
  intros H.
  assert (Hx : is_nan x = false) by (destruct x; auto; discriminate).
  assert (Hy : is_nan y = false) by (destruct x, y; auto; discriminate).
  apply (fltb_key x y Hx Hy) in H.
  destruct (fltb y x) eqn:E; [|reflexivity].
  apply (fltb_key y x Hy Hx) in E.
  exfalso; eapply key_lt_irrefl, key_lt_trans; eauto.
Qed.

Lemma fltb_false_trans (x y z : float) :
  is_nan x = false -> is_nan y = false -> is_nan z = false ->
  fltb x y = false -> fltb y z = false -> fltb x z = false.
Proof.
  intros Hx Hy Hz Hxy Hyz.
  destruct (fltb x z) eqn:E; [|reflexivity].
  apply (fltb_key x z Hx Hz) in E.
  destruct (key_lt_total (float_key x) (float_key y)) as [H|[H|H]].
  - apply (fltb_key x y Hx Hy) in H; congruence.
  - rewrite H in E. apply (fltb_key y z Hy Hz) in E; congruence.
  - assert (H' : key_lt (float_key y) (float_key z)) by (eapply key_lt_trans; eauto).
    apply (fltb_key y z Hy Hz) in H'; congruence.
Qed.

Lemma num_gtb_zero_nonzero (p : num) :
  num_gtb p (PyInt 0) = true -> num_is_zero p = false.
Proof.
  destruct p as [z|x]; simpl.
  - unfold num_gtb; simpl. intros H; apply Z.ltb_lt in H. apply Z.eqb_neq; lia.
  - unfold num_gtb; simpl. destruct x as [s|s| |s m e]; try easy.
Qed.


(** ** The analyzer *)

Lemma index_from_end_1 {A} (pre : list A) (p c : A) :
  index_from_end (pre ++ [p; c]) 1 = Ok c.
Proof. unfold index_from_end. now rewrite rev_app_distr. Qed.

Lemma index_from_end_2 {A} (pre : list A) (p c : A) :
  index_from_end (pre ++ [p; c]) 2 = Ok p.
Proof. unfold index_from_end. now rewrite rev_app_distr. Qed.

Lemma last_two {A} (l : list A) :
  (2 <= length l)%nat -> exists pre p c, l = (pre ++ [p; c])%list.
Proof.
  intros H.
  destruct (rev l) as [|c [|p r]] eqn:E.
  - apply (f_equal (@length A)) in E; rewrite length_rev in E; simpl in E; lia.
  - apply (f_equal (@length A)) in E; rewrite length_rev in E; simpl in E; lia.
  - exists (rev r), p, c.
    rewrite <- (rev_involutive l), E; simpl.
    now rewrite <- app_assoc.
Qed.

Lemma compare_service_eq (mc : dict (dict num)) (prev : str) (ps : dict num)
    (item : str * num) :
  dict_get prev mc = Some ps ->
  compare_service mc prev item = Ok (entry_of ps item).
Proof.
  intros Hps; destruct item as [service current_cost].
  unfold compare_service, dict_lookup, entry_of; rewrite Hps; cbn [bind fst snd].
  destruct (num_gtb _ (PyInt 0)) eqn:E; cbn [bind]; [|reflexivity].
  unfold num_div; now rewrite (num_gtb_zero_nonzero _ E).
Qed.

(** With two months or more in the table, [compare_months] returns, and
    this is what it returns. *)
Lemma compare_months_spec (mc : dict (dict num)) :
  (2 <= length mc)%nat ->
  exists pre prev cur services ps,
    sorted_str (dict_keys mc) = (pre ++ [prev; cur])%list
    /\ dict_get cur mc = Some services
    /\ dict_get prev mc = Some ps
    /\ compare_months mc
       = Ok (mk_analysis
               (dict_of_pairs (map (entry_of ps) (firstn 10 (sorted_by_value_desc services))))
               mc cur prev).
Proof.
  intros Hlen.
  assert (Hlen' : (2 <= length (sorted_str (dict_keys mc)))%nat).
  { unfold sorted_str; rewrite sorted_by_length; unfold dict_keys; now rewrite length_map. }
  destruct (last_two _ Hlen') as (pre & prev & cur & Hs).
  assert (Hin : forall k, In k [prev; cur] -> exists v, dict_get k mc = Some v).
  { intros k Hk. apply dict_get_Some_iff.
    apply (Permutation_in _ (sorted_str_perm (dict_keys mc))).
    rewrite Hs; apply in_or_app; now right. }
  destruct (Hin cur) as [services Hcur]; [simpl; auto|].
  destruct (Hin prev) as [ps Hprev]; [simpl; auto|].
  exists pre, prev, cur, services, ps; repeat split; auto.
  unfold compare_months; rewrite Hs, index_from_end_1; simpl.
  rewrite index_from_end_2; simpl.
  unfold dict_lookup at 1; rewrite Hcur; simpl.
  rewrite (mapM_total _ (entry_of ps)); [reflexivity|].
  intros item _; now apply compare_service_eq.
Qed.

(** The reshape step keeps the table well formed. *)
Lemma group_entry_float (item : group) (kv : str * num) :
  group_entry item = Ok kv -> exists x, snd kv = PyFloat x.
Proof.
  unfold group_entry. destruct (Keys item); simpl; [easy|].
  destruct (float_of_str (Amount item)) as [x|]; simpl; [|easy].
  intros [= <-]; now exists x.
Qed.

Lemma month_services_ok (groups : list group) (d : dict num) :
  month_services groups = Ok d -> services_ok d.
Proof.
  unfold month_services.
  destruct (mapM group_entry groups) as [entries|] eqn:E; simpl; [|easy].
  intros [= <-]; split; [apply dict_of_pairs_NoDup|].
  apply Forall_forall; intros [k v] Hin.
  apply dict_of_pairs_In in Hin.
  destruct (mapM_Ok_In _ _ _ _ E Hin) as (item & _ & Hitem).
  apply (group_entry_float _ _ Hitem).
Qed.

Lemma build_monthly_costs_ok (cost_data : list result_by_time) (mc0 mc : dict (dict num)) :
  build_monthly_costs cost_data mc0 = Ok mc -> table_ok mc0 -> table_ok mc.
Proof.
  revert mc0; induction cost_data as [|month_data rest IH]; simpl; intros mc0.
  - now intros [= <-].
  - destruct (strptime_Ymd (Start month_data)) as [d|]; simpl; [|easy].
    destruct (month_services (Groups month_data)) as [services|] eqn:Es; simpl; [|easy].
    intros H [Hnd Hall]; apply (IH _ H); split.
    + now apply dict_set_NoDup.
    + apply Forall_forall; intros [k v] Hin.
      destruct (dict_set_In _ _ _ _ _ Hin) as [[_ ->]|Hin'].
      * eapply month_services_ok, Es.
      * rewrite Forall_forall in Hall; apply (Hall _ Hin').
Qed.

Lemma table_ok_nil : table_ok [].
Proof. split; constructor. Qed.

(** The reshape loop, one result at a time: the key a result is filed
    under, the keys of the table, and which result a key ends up with. *)
Lemma build_monthly_costs_cons (md : result_by_time) (rest : list result_by_time)
    (mc0 mc : dict (dict num)) :
  build_monthly_costs (md :: rest) mc0 = Ok mc ->
  exists key services,
    month_key md = Ok key
    /\ month_services (Groups md) = Ok services
    /\ build_monthly_costs rest (dict_set key services mc0) = Ok mc.
Proof.
  cbn [build_monthly_costs]. unfold month_key.
  destruct (strptime_Ymd (Start md)) as [d|]; cbn [bind]; [|discriminate].
  destruct (month_services (Groups md)) as [services|]; cbn [bind]; [|discriminate].
  intros H. now exists (strftime_Ym d), services.
Qed.

Lemma build_monthly_costs_app (l1 l2 : list result_by_time) (mc0 mc : dict (dict num)) :
  build_monthly_costs (l1 ++ l2) mc0 = Ok mc ->
  exists mc1, build_monthly_costs l1 mc0 = Ok mc1 /\ build_monthly_costs l2 mc1 = Ok mc.
Proof.
  revert mc0. induction l1 as [|md l1 IH]; intros mc0 H.
  - exists mc0. split; [reflexivity|exact H].
  - rewrite <- app_comm_cons in H.
    destruct (build_monthly_costs_cons _ _ _ _ H) as (key & services & Hk & Hs & Hr).
    destruct (IH _ Hr) as (mc1 & H1 & H2). exists mc1. split; [|exact H2].
    cbn [build_monthly_costs]. unfold month_key in Hk.
    destruct (strptime_Ymd (Start md)) as [d|]; cbn [bind] in *; [|discriminate].
    injection Hk as <-. rewrite Hs. cbn [bind]. exact H1.
Qed.

Lemma build_monthly_costs_keys (l : list result_by_time) (mc0 mc : dict (dict num)) (key : str) :
  build_monthly_costs l mc0 = Ok mc ->
  (In key (dict_keys mc)
   <-> In key (dict_keys mc0) \/ exists md, In md l /\ month_key md = Ok key).
Proof.
  revert mc0. induction l as [|md l IH]; intros mc0 H.
  - injection H as <-. split; [auto|]. intros [H|(md & [] & _)]; exact H.
  - destruct (build_monthly_costs_cons _ _ _ _ H) as (k & services & Hk & Hs & Hr).
    rewrite (IH _ Hr), dict_set_In_keys. split.
    + intros [[->|H0]|(md' & Hin & Hk')]; auto.
      * right. exists md. split; [now left|exact Hk].
      * right. exists md'. split; [now right|exact Hk'].
    + intros [H0|(md' & [<-|Hin] & Hk')]; auto.
      * left. left. congruence.
      * right. now exists md'.
Qed.

Lemma build_monthly_costs_get_other (l : list result_by_time) (mc0 mc : dict (dict num))
    (key : str) :
  build_monthly_costs l mc0 = Ok mc ->
  (forall md, In md l -> month_key md <> Ok key) ->
  dict_get key mc = dict_get key mc0.
Proof.
  revert mc0. induction l as [|md l IH]; intros mc0 H Hne.
  - now injection H as <-.
  - destruct (build_monthly_costs_cons _ _ _ _ H) as (k & services & Hk & Hs & Hr).
    rewrite (IH _ Hr); [|intros md' Hin; apply Hne; now right].
    apply dict_get_set_other. intros ->. apply (Hne md); [now left|exact Hk].
Qed.

Lemma process_cost_data_spec (cost_data : list result_by_time) (mc : dict (dict num)) :
  build_monthly_costs cost_data [] = Ok mc ->
  (2 <= length mc)%nat ->
  table_ok mc
  /\ exists pre prev cur services ps,
       sorted_str (dict_keys mc) = (pre ++ [prev; cur])%list
       /\ dict_get cur mc = Some services
       /\ dict_get prev mc = Some ps
       /\ process_cost_data cost_data
          = Ok (mk_analysis
                  (dict_of_pairs (map (entry_of ps) (firstn 10 (sorted_by_value_desc services))))
                  mc cur prev).
Proof.
  intros Hb Hlen; split; [apply (build_monthly_costs_ok _ _ _ Hb table_ok_nil)|].
  destruct (compare_months_spec mc Hlen) as (pre & prev & cur & services & ps & H1 & H2 & H3 & H4).
  exists pre, prev, cur, services, ps; repeat split; auto.
  unfold process_cost_data; rewrite Hb; exact H4.
Qed.

Lemma StronglySorted_last_two {A} (R : A -> A -> Prop) (pre : list A) (p c : A) :
  StronglySorted R (pre ++ [p; c]) -> R p c /\ Forall (fun k => R k p) pre.
Proof.
  induction pre as [|x pre IH]; simpl; intros H.
  - inversion H as [|? ? _ Hall]; subst. inversion Hall; subst. now split.
  - inversion H as [|? ? Hs Hall]; subst.
    destruct (IH Hs) as [Hpc Hpre]; split; [exact Hpc|].
    constructor; [|exact Hpre].
    rewrite Forall_forall in Hall; apply Hall, in_or_app; right; now left.
Qed.

Lemma two_keys_length {V} (d : dict V) (k1 k2 : str) :
  NoDup (dict_keys d) -> In k1 (dict_keys d) -> In k2 (dict_keys d) -> k1 <> k2 ->
  (2 <= length d)%nat.
Proof.
  intros Hnd H1 H2 Hne.
  assert (Hl : (length [k1; k2] <= length (dict_keys d))%nat).
  { apply NoDup_incl_length.
    - constructor; [intros [H|[]]; congruence|]. constructor; [intros []|constructor].
    - intros k [<-|[<-|[]]]; assumption. }
  unfold dict_keys in Hl. rewrite length_map in Hl. exact Hl.
Qed.

(** C1.  For every raw monthly result set that the reshape loop accepts
    and in which two results fall in different months, the analyzer
    returns with the table [mc] built from it.  The table is tied to the
    result set: its keys are distinct and are exactly the month keys
    ("YYYY-MM" of the period start) of the results, and each key holds the
    services of the last result of that month.  The month keys sorted in
    ascending lexicographic order end with the previous and the current
    month selected, so these are the two greatest month keys present in the
    result set: both are the month of some result, the previous month is
    smaller than the current one, and the month of every other result is
    smaller than the previous month. *)
Theorem analyzer_selects_two_latest_months
    (cost_data : list result_by_time) (mc : dict (dict num)) :
  build_monthly_costs cost_data [] = Ok mc ->
  (exists md1 md2 key1 key2,
     In md1 cost_data /\ In md2 cost_data
     /\ month_key md1 = Ok key1 /\ month_key md2 = Ok key2 /\ key1 <> key2) ->
  exists a pre,
    process_cost_data cost_data = Ok a
    /\ monthly_costs_of a = mc
    /\ NoDup (dict_keys mc)
    /\ (forall key, In key (dict_keys mc)
                    <-> exists md, In md cost_data /\ month_key md = Ok key)
    /\ (forall before md later key services,
          cost_data = (before ++ md :: later)%list ->
          month_key md = Ok key ->
          month_services (Groups md) = Ok services ->
          (forall md', In md' later -> month_key md' <> Ok key) ->
          dict_get key mc = Some services)
    /\ (2 <= length mc)%nat
    /\ StronglySorted str_lt (sorted_str (dict_keys mc))
    /\ Permutation (sorted_str (dict_keys mc)) (dict_keys mc)
    /\ sorted_str (dict_keys mc) = (pre ++ [previous_month_of a; current_month_of a])%list
    /\ (exists md, In md cost_data /\ month_key md = Ok (current_month_of a))
    /\ (exists md, In md cost_data /\ month_key md = Ok (previous_month_of a))
    /\ str_lt (previous_month_of a) (current_month_of a)
    /\ (forall md key, In md cost_data -> month_key md = Ok key ->
          key = current_month_of a \/ key = previous_month_of a
          \/ str_lt key (previous_month_of a)).
Proof.
  intros Hb (md1 & md2 & key1 & key2 & Hin1 & Hin2 & Hk1 & Hk2 & Hne).
  assert (Hkeys : forall key, In key (dict_keys mc)
                    <-> exists md, In md cost_data /\ month_key md = Ok key).
  { intros key. rewrite (build_monthly_costs_keys _ _ _ key Hb). simpl. tauto. }
  assert (Hnd : NoDup (dict_keys mc))
    by apply (build_monthly_costs_ok _ _ _ Hb table_ok_nil).
  assert (Hlen : (2 <= length mc)%nat).
  { apply (two_keys_length mc key1 key2 Hnd);
      [apply Hkeys; eauto|apply Hkeys; eauto|exact Hne]. }
  destruct (process_cost_data_spec _ _ Hb Hlen)
    as (_ & pre & prev & cur & services & ps & Hs & Hcur & Hprev & Hrun).
  pose proof (sorted_str_strict _ Hnd) as Hsorted.
  pose proof (sorted_str_perm (dict_keys mc)) as Hperm.
  assert (Hlast := Hsorted); rewrite Hs in Hlast.
  apply StronglySorted_last_two in Hlast; destruct Hlast as [Hpc Hpre].
  eexists; exists pre; split; [exact Hrun|].
  cbn [monthly_costs_of current_month_of previous_month_of].
  split; [reflexivity|]. split; [exact Hnd|]. split; [exact Hkeys|].
  split.
  { intros before md later key sv -> Hk Hsv Hlater.
    destruct (build_monthly_costs_app _ _ _ _ Hb) as (mc1 & _ & H2).
    destruct (build_monthly_costs_cons _ _ _ _ H2) as (k & s & Hk' & Hs' & Hr).
    assert (k = key) by congruence. assert (s = sv) by congruence. subst k s.
    rewrite (build_monthly_costs_get_other _ _ _ key Hr Hlater).
    apply dict_get_set_same. }
  split; [exact Hlen|]. split; [exact Hsorted|]. split; [exact Hperm|].
  split; [exact Hs|].
  split; [apply Hkeys, dict_get_Some_iff; eauto|].
  split; [apply Hkeys, dict_get_Some_iff; eauto|].
  split; [exact Hpc|].
  intros md key Hin Hk.
  assert (Hk' : In key (dict_keys mc)) by (apply Hkeys; eauto).
  apply (Permutation_in _ (Permutation_sym Hperm)) in Hk'.
  rewrite Hs in Hk'; apply in_app_or in Hk'.
  destruct Hk' as [Hk'|[<-|[<-|[]]]]; auto.
  right; right. rewrite Forall_forall in Hpre; auto.
Qed.

Lemma NoDup_firstn {A} (n : nat) (l : list A) : NoDup l -> NoDup (firstn n l).
Proof.
  intros H; rewrite <- (firstn_skipn n l) in H.
  now apply NoDup_app_remove_r in H.
Qed.

Lemma StronglySorted_firstn {A} (R : A -> A -> Prop) (n : nat) (l : list A) :
  StronglySorted R l -> StronglySorted R (firstn n l).
Proof.
  revert n; induction l as [|x l IH]; intros [|n] H; simpl; try constructor.
  - inversion H; subst; auto.
  - inversion H as [|? ? _ Hall]; subst.
    rewrite Forall_forall in *; intros y Hy; apply Hall.
    rewrite <- (firstn_skipn n l); apply in_or_app; now left.
Qed.

Lemma StronglySorted_map {A B} (R : B -> B -> Prop) (f : A -> B) (l : list A) :
  StronglySorted (fun x y => R (f x) (f y)) l -> StronglySorted R (map f l).
Proof.
  induction 1 as [|x l Hs IH Hall]; simpl; constructor; auto.
  rewrite Forall_forall in *; intros y Hy.
  apply in_map_iff in Hy; destruct Hy as (a & <- & Ha); auto.
Qed.

(** Amounts that are numbers come out in descending order. *)
Lemma sorted_by_value_desc_sorted (services : dict num) :
  Forall (fun kv => exists x, snd kv = PyFloat x) services ->
  Forall (fun kv => not_nan (snd kv)) services ->
  StronglySorted (fun a b => num_ge (snd a) (snd b)) (sorted_by_value_desc services).
Proof.
  intros Hfl Hnn.
  set (P := fun kv : str * num => exists x, snd kv = PyFloat x /\ is_nan x = false).
  assert (HP : Forall P services).
  { rewrite Forall_forall in *; intros kv Hin.
    destruct (Hfl kv Hin) as [x Hx]; exists x; split; [exact Hx|].
    specialize (Hnn kv Hin); unfold not_nan in Hnn; now rewrite Hx in Hnn. }
  assert (Hs : StronglySorted
                 (may_precede (fun y x : str * num => num_ltb (snd x) (snd y)))
                 (sorted_by_value_desc services)).
  { apply (sorted_by_sorted _ P); [| |exact HP].
    - intros [k1 v1] [k2 v2] (x1 & E1 & N1) (x2 & E2 & N2); simpl in *; subst.
      apply fltb_asym.
    - intros [k1 v1] [k2 v2] [k3 v3] (x1 & E1 & N1) (x2 & E2 & N2) (x3 & E3 & N3).
      unfold may_precede; simpl in *; subst; simpl.
      now apply fltb_false_trans. }
  assert (HP' : Forall P (sorted_by_value_desc services)).
  { rewrite Forall_forall in *; intros kv Hin; apply HP.
    unfold sorted_by_value_desc in Hin; now apply sorted_by_In in Hin. }
  clear -Hs HP'.
  induction Hs as [|a l Hs IH Hall]; constructor.
  - inversion HP'; subst; auto.
  - inversion HP' as [|? ? Pa Pl]; subst.
    rewrite Forall_forall in *; intros b Hb.
    specialize (Hall b Hb); unfold may_precede in Hall.
    destruct Pa as (x & Ex & Nx), (Pl b Hb) as (y & Ey & Ny).
    unfold num_ge; rewrite Ex, Ey in *; simpl in *.
    now apply fltb_false_fleb.
Qed.

Lemma entry_of_fst (ps : dict num) (l : list (str * num)) :
  map fst (map (entry_of ps) l) = map fst l.
Proof. rewrite map_map; now apply map_ext. Qed.

Lemma entry_of_current (ps : dict num) (l : list (str * num)) :
  map (fun e => (fst e, current (snd e))) (map (entry_of ps) l) = l.
Proof.
  rewrite map_map. rewrite <- (map_id l) at 2.
  apply map_ext; now intros [k v].
Qed.

(** C2.  For every raw result set that reshapes to a table of at least two
    months, the analyzer returns a comparison with one entry per service of
    the current month up to ten: its length is the smaller of 10 and the
    number of (distinct) services of the current month, so never more than
    10; the entries carry the current-month amounts of the ten first
    services in the stable descending sort; and, the amounts being numbers
    (no NaN), every entry's current amount is greater than or equal to the
    current amount of every later entry. *)
Theorem top_10_length_and_order
    (cost_data : list result_by_time) (mc : dict (dict num)) :
  build_monthly_costs cost_data [] = Ok mc ->
  (2 <= length mc)%nat ->
  exists a services,
    process_cost_data cost_data = Ok a
    /\ dict_get (current_month_of a) mc = Some services
    /\ NoDup (dict_keys services)
    /\ length (top_10_comparison a) = Nat.min 10 (length services)
    /\ (length (top_10_comparison a) <= 10)%nat
    /\ map (fun e => (fst e, current (snd e))) (top_10_comparison a)
       = firstn 10 (sorted_by_value_desc services)
    /\ (Forall (fun kv => not_nan (snd kv)) services ->
        StronglySorted (fun e1 e2 => num_ge (current (snd e1)) (current (snd e2)))
                       (top_10_comparison a)).
Proof.
  intros Hb Hlen.
  destruct (process_cost_data_spec _ _ Hb Hlen)
    as ([Hnd Hall] & pre & prev & cur & services & ps & Hs & Hcur & Hprev & Hrun).
  assert (Hok : services_ok services).
  { rewrite Forall_forall in Hall. apply (Hall (cur, services)).
    now apply dict_get_In. }
  destruct Hok as [Hnds Hfl].
  set (top := firstn 10 (sorted_by_value_desc services)).
  assert (Htop : dict_of_pairs (map (entry_of ps) top) = map (entry_of ps) top).
  { apply dict_of_pairs_distinct. rewrite entry_of_fst.
    unfold top. rewrite <- firstn_map. apply NoDup_firstn.
    eapply Permutation_NoDup; [|exact Hnds].
    apply Permutation_map, Permutation_sym, sorted_by_perm. }
  eexists; exists services; split; [exact Hrun|].
  cbn [top_10_comparison current_month_of].
  fold top; rewrite Htop, length_map.
  assert (Hlt : length top = Nat.min 10 (length services)).
  { unfold top, sorted_by_value_desc. now rewrite length_firstn, sorted_by_length. }
  repeat split; auto.
  - rewrite Hlt; apply Nat.le_min_l.
  - apply entry_of_current.
  - intros Hnn.
    apply (StronglySorted_map
             (fun e1 e2 => num_ge (current (snd e1)) (current (snd e2))) (entry_of ps)).
    unfold top; apply StronglySorted_firstn.
    exact (sorted_by_value_desc_sorted services Hfl Hnn).
Qed.


(** ** The delivery client *)

(** C8.  Whenever [SLACK_WEBHOOK_URL] is unset or empty, [send_to_slack]
    returns the failure sentinel [None] and its whole trace is one error
    record: no HTTP request is built and none is sent. *)
Theorem missing_webhook_url_no_request (w : World) (report : list json) :
  SLACK_WEBHOOK_URL w = None \/ SLACK_WEBHOOK_URL w = Some [] ->
  send_to_slack w report
  = (Ok None, [LogError (lit "SLACK_WEBHOOK_URL environment variable is not set")])
  /\ no_http (snd (send_to_slack w report)).
Proof.
  intros H.
  assert (E : send_to_slack w report
              = (Ok None, [LogError (lit "SLACK_WEBHOOK_URL environment variable is not set")])).
  { unfold send_to_slack, webhook_url. now destruct H as [-> | ->]. }
  split; [exact E|].
  rewrite E; intros url data; simpl; split; intros [H'|[]]; discriminate.
Qed.

(** ** The entry point *)

(** The run of the handler when the billing query raises [ClientError]. *)
Lemma handler_run_client_error {E C} (event : E) (context : C) (w : World)
    (start_date end_date : str) (ex : exn) :
  get_date_range w = Ok (start_date, end_date) ->
  get_cost_and_usage w start_date end_date = Raise ex ->
  exn_cls ex = ClientError ->
  lambda_handler event context w
  = (fetch_error_response,
     [Invoke Analyze_costs; Invoke Get_date_range; Invoke Get_cost_data;
      CostExplorerQuery start_date end_date;
      LogError (lit "An error occurred while fetching cost data: " ++ exn_msg ex);
      LogError (lit "Error fetching cost data")]).
Proof.
  intros Hd Hq Hc.
  unfold lambda_handler, handler_body, analyze_costs, get_cost_data.
  rewrite Hd; cbn [lift bindM tell fst snd app].
  rewrite Hq; cbn [lift bindM tell try_except ret fst snd app].
  rewrite Hc; reflexivity.
Qed.

(** C4.  Whenever the billing query, asked for the period the handler
    computes, raises a provider error ([ClientError]), the entry point
    returns status 500 with the body [json.dumps("Error fetching cost
    data")], and the run enters neither the report builder nor the
    delivery client, and makes no HTTP request. *)
Theorem client_error_aborts_run {E C} (event : E) (context : C) (w : World)
    (start_date end_date : str) (ex : exn) :
  get_date_range w = Ok (start_date, end_date) ->
  get_cost_and_usage w start_date end_date = Raise ex ->
  exn_cls ex = ClientError ->
  let '(r, t) := lambda_handler event context w in
  statusCode r = 500
  /\ body r = json_dumps (JStr (lit "Error fetching cost data"))
  /\ not_invoked Create_report t
  /\ not_invoked Send_to_slack t
  /\ no_http t.
Proof.
  intros Hd Hq Hc.
  rewrite (handler_run_client_error event context w _ _ _ Hd Hq Hc).
  repeat split; try reflexivity;
    unfold not_invoked; simpl; intuition discriminate.
Qed.

(** ** JSON text is ASCII *)

(** Induction on JSON values, through the lists they nest. *)
Lemma json_induction (P : json -> Prop) :
  (forall s, P (JStr s)) ->
  (forall l, Forall P l -> P (JArr l)) ->
  (forall members, Forall (fun kv => P (snd kv)) members -> P (JObj members)) ->
  forall v, P v.
Proof.
  intros HS HA HO.
  exact (fix rec (v : json) : P v :=
           match v with
           | JStr s => HS s
           | JArr l =>
               HA l ((fix go (l : list json) : Forall P l :=
                        match l with
                        | [] => Forall_nil P
                        | x :: l' => Forall_cons x (rec x) (go l')
                        end) l)
           | JObj members =>
               HO members
                  ((fix go (m : list (str * json)) : Forall (fun kv => P (snd kv)) m :=
                      match m with
                      | [] => Forall_nil _
                      | (k, x) :: m' =>
                          Forall_cons (P := fun kv => P (snd kv)) (k, x) (rec x) (go m')
                      end) members)
           end).
Qed.

Lemma hex_digit_ascii (n : N) : (n < 16)%N -> (hex_digit n < 128)%N.
Proof. unfold hex_digit; intros H; destruct (n <? 10)%N; lia. Qed.

Lemma escape_u_ascii (n : N) : (n < 65536)%N -> ascii_only (escape_u n).
Proof.
  intros H; unfold escape_u, ascii_only.
  repeat constructor; try lia; apply hex_digit_ascii;
    try (apply N.mod_lt; lia).
  apply N.Div0.div_lt_upper_bound; lia.
Qed.

Lemma escape_char_ascii (c : char) : ascii_only (escape_char c).
Proof.
  unfold escape_char.
  repeat (match goal with
          | |- ascii_only (if ?b then _ else _) => destruct b eqn:?
          end; [repeat constructor; lia|]).
  destruct ((32 <=? c) && (c <=? 126))%N eqn:E.
  - apply andb_true_iff in E; destruct E as [_ E]; apply N.leb_le in E.
    repeat constructor; lia.
  - destruct (c <? 65536)%N eqn:E'.
    + apply N.ltb_lt in E'; now apply escape_u_ascii.
    + apply Forall_app; split; apply escape_u_ascii.
      * assert (((c - 65536) / 1024) mod 1024 < 1024)%N by (apply N.mod_lt; lia); lia.
      * assert ((c - 65536) mod 1024 < 1024)%N by (apply N.mod_lt; lia); lia.
Qed.

Lemma dumps_str_ascii (s : str) : ascii_only (dumps_str s).
Proof.
  unfold dumps_str; constructor; [lia|].
  apply Forall_app; split; [|repeat constructor; lia].
  induction s as [|c s IH]; simpl; [constructor|].
  apply Forall_app; split; [apply escape_char_ascii|exact IH].
Qed.

Lemma join_comma_ascii (items : list str) :
  Forall ascii_only items -> ascii_only (join_comma items).
Proof.
  induction 1 as [|x items Hx Hitems IH]; simpl; [constructor|].
  destruct items as [|y items]; [exact Hx|].
  apply Forall_app; split; [exact Hx|].
  constructor; [lia|]; constructor; [lia|]; exact IH.
Qed.

Lemma json_dumps_ascii (v : json) : ascii_only (json_dumps v).
Proof.
  induction v as [s|l IH|members IH] using json_induction; cbn [json_dumps].
  - apply dumps_str_ascii.
  - apply Forall_app; split; [cbv; repeat constructor|].
    apply Forall_app; split; [|cbv; repeat constructor].
    apply join_comma_ascii. apply Forall_forall; intros x Hx.
    apply in_map_iff in Hx; destruct Hx as (v & <- & Hv).
    rewrite Forall_forall in IH; auto.
  - apply Forall_app; split; [cbv; repeat constructor|].
    apply Forall_app; split; [|cbv; repeat constructor].
    apply join_comma_ascii. apply Forall_forall; intros x Hx.
    apply in_map_iff in Hx; destruct Hx as ([k v] & <- & Hv); cbn [fst snd].
    apply Forall_app; split; [apply dumps_str_ascii|].
    apply Forall_app; split; [cbv; repeat constructor|].
    rewrite Forall_forall in IH; apply (IH _ Hv).
Qed.

(** Encoding ASCII text leaves it as it is, and cannot fail. *)
Lemma encode_utf8_ascii (s : str) : ascii_only s -> encode_utf8 s = Ok s.
Proof.
  unfold encode_utf8; intros H.
  assert (E : mapM encode_char s = Ok (map (fun c => [c]) s)).
  { apply mapM_total; intros c Hc.
    unfold ascii_only in H; rewrite Forall_forall in H; specialize (H c Hc).
    unfold encode_char. apply N.ltb_lt in H; now rewrite H. }
  rewrite E; simpl; f_equal.
  clear; induction s as [|c s IH]; simpl; [reflexivity|now rewrite IH].
Qed.

(** ** Runs of the handler *)

(** C5.  The entry point always returns a response, and the response has
    the external shape: whatever the world, an exception that escapes the
    pipeline (the [try] block) is caught and turned into status 500 with
    the body [json.dumps("Unexpected error: " + str(e))]; a pipeline that
    returns gives one of the three fixed responses; so every response has
    status 200 or 500 and a body that is a JSON-encoded string.  The three
    stages are spelled out: an exception of the analyzer, of the report
    builder, or of the delivery client's request constructor ends as that
    status-500 response. *)
Theorem handler_total {E C} (event : E) (context : C) (w : World) :
  (forall e t, handler_body w = (Raise e, t) ->
     lambda_handler event context w
     = (unexpected_error_response e,
        (t ++ [LogError (lit "Unexpected error in lambda_handler: " ++ exn_msg e)])%list))
  /\ (forall r t, handler_body w = (Ok r, t) ->
        lambda_handler event context w = (r, t)
        /\ (r = fetch_error_response \/ r = send_error_response \/ r = success_response))
  /\ (let r := fst (lambda_handler event context w) in
      (statusCode r = 200 \/ statusCode r = 500)
      /\ exists msg, body r = json_dumps (JStr msg))
  /\ (forall e t, analyze_costs w = (Raise e, t) ->
        fst (lambda_handler event context w) = unexpected_error_response e)
  /\ (forall a t e,
        analyze_costs w = (Ok (Some a), t) -> top_10_comparison a <> [] ->
        create_report (top_10_comparison a) (monthly_costs_of a)
                      (current_month_of a) (previous_month_of a) = Raise e ->
        fst (lambda_handler event context w) = unexpected_error_response e)
  /\ (forall a t report e t',
        analyze_costs w = (Ok (Some a), t) -> top_10_comparison a <> [] ->
        create_report (top_10_comparison a) (monthly_costs_of a)
                      (current_month_of a) (previous_month_of a) = Ok report ->
        send_to_slack w report = (Raise e, t') ->
        fst (lambda_handler event context w) = unexpected_error_response e).
Proof.
  assert (Hok : forall r t, handler_body w = (Ok r, t) ->
            r = fetch_error_response \/ r = send_error_response \/ r = success_response).
  { unfold handler_body; intros r t.
    destruct (analyze_costs w) as [[[[[|e es] mc cur prev]|]|ex] t0];
      cbn [bindM tell ret lift fst snd]; try (intros [= <- _]; now left); try easy.
    destruct (create_report (e :: es) mc cur prev) as [report|ex];
      cbn [bindM tell ret lift fst snd]; try easy.
    destruct (send_to_slack w report) as [[sr|ex] t1];
      cbn [bindM tell ret lift fst snd]; try easy.
    destruct (truthy_bytes sr); cbn [bindM tell ret lift fst snd];
      intros [= <- _]; auto. }
  repeat split.
  - intros e t H; unfold lambda_handler; now rewrite H.
  - unfold lambda_handler; now rewrite H.
  - eauto.
  - unfold lambda_handler. destruct (handler_body w) as [[r|e] t] eqn:H; simpl.
    + destruct (Hok r t eq_refl) as [->|[->| ->]]; simpl; auto.
    + now right.
  - unfold lambda_handler. destruct (handler_body w) as [[r|e] t] eqn:H; simpl.
    + destruct (Hok r t eq_refl) as [->|[->| ->]]; simpl; eauto.
    + eauto.
  - intros e t H; unfold lambda_handler, handler_body; rewrite H; reflexivity.
  - intros [[|e0 es] mc cur prev] t e H Hne Hr; [contradiction|].
    unfold lambda_handler, handler_body; rewrite H.
    cbn [bindM tell ret lift fst snd top_10_comparison monthly_costs_of
         current_month_of previous_month_of] in *.
    rewrite Hr; reflexivity.
  - intros [[|e0 es] mc cur prev] t report e t' H Hne Hr Hs; [contradiction|].
    unfold lambda_handler, handler_body; rewrite H.
    cbn [bindM tell ret lift fst snd top_10_comparison monthly_costs_of
         current_month_of previous_month_of] in *.
    rewrite Hr; cbn [bindM tell ret lift fst snd]. rewrite Hs; reflexivity.
Qed.

(** An analysis of a current month without services compares nothing. *)
Lemma no_services_no_comparison (data : list result_by_time) (a : analysis) :
  process_cost_data data = Ok a ->
  dict_get (current_month_of a) (monthly_costs_of a) = Some [] ->
  top_10_comparison a = [].
Proof.
  unfold process_cost_data, compare_months.
  destruct (build_monthly_costs data []) as [mc|]; cbn [bind]; [|easy].
  destruct (index_from_end (sorted_str (dict_keys mc)) 1) as [cur|]; cbn [bind]; [|easy].
  destruct (index_from_end (sorted_str (dict_keys mc)) 2) as [prev|]; cbn [bind]; [|easy].
  unfold dict_lookup at 1.
  destruct (dict_get cur mc) as [services|] eqn:Hcur; cbn [bind]; [|easy].
  destruct (mapM _ _) as [entries|] eqn:Hm; cbn [bind]; [|easy].
  intros [= <-]; cbn [current_month_of monthly_costs_of top_10_comparison].
  rewrite Hcur; intros [= ->].
  simpl in Hm; injection Hm as <-; reflexivity.
Qed.

(** The run of the handler when the analyzer has nothing to compare. *)
Lemma handler_run_no_comparison {E C} (event : E) (context : C) (w : World)
    (a : option analysis) (t : list effect) :
  analyze_costs w = (Ok a, t) ->
  match a with Some a' => top_10_comparison a' = [] | None => True end ->
  lambda_handler event context w
  = (fetch_error_response,
     (Invoke Analyze_costs :: t ++ [LogError (lit "Error fetching cost data")])%list).
Proof.
  intros H Ha; unfold lambda_handler, handler_body; rewrite H.
  destruct a as [[top mc cur prev]|]; cbn [bindM tell ret lift fst snd] in *.
  - cbn [top_10_comparison] in Ha; subst top; reflexivity.
  - reflexivity.
Qed.

(** C9.  If the billing query succeeds but its result is empty - no
    per-month results at all, or a current month without services, so that
    the comparison is empty - the entry point returns status 500 with the
    body [json.dumps("Error fetching cost data")] without entering the
    report builder or the delivery client: the very response it gives when
    the query raises a provider error. *)
Theorem empty_data_is_fetch_error {E C} (event : E) (context : C) (w : World)
    (start_date end_date : str) (data : list result_by_time) :
  get_date_range w = Ok (start_date, end_date) ->
  get_cost_and_usage w start_date end_date = Ok data ->
  data = []
  \/ (exists a, process_cost_data data = Ok a
                /\ dict_get (current_month_of a) (monthly_costs_of a) = Some []) ->
  let '(r, t) := lambda_handler event context w in
  r = fetch_error_response
  /\ statusCode r = 500
  /\ body r = json_dumps (JStr (lit "Error fetching cost data"))
  /\ not_invoked Create_report t
  /\ not_invoked Send_to_slack t
  /\ no_http t
  /\ (forall w' s' e' ex,
        get_date_range w' = Ok (s', e') ->
        get_cost_and_usage w' s' e' = Raise ex ->
        exn_cls ex = ClientError ->
        fst (lambda_handler event context w') = r).
Proof.
  intros Hd Hq Hempty.
  assert (Hrun : exists a,
             analyze_costs w
             = (Ok a, [Invoke Get_date_range; Invoke Get_cost_data;
                       CostExplorerQuery start_date end_date])
             /\ match a with Some a' => top_10_comparison a' = [] | None => True end).
  { unfold analyze_costs, get_cost_data.
    rewrite Hd; cbn [lift bindM tell fst snd app].
    rewrite Hq; cbn [lift bindM tell try_except ret fst snd app].
    destruct Hempty as [->|(a & Ha & Hcur)].
    - exists None; split; reflexivity.
    - destruct data as [|d data']; [exists None; split; reflexivity|].
      rewrite Ha; cbn [lift bindM ret app].
      exists (Some a); split; [reflexivity|].
      now apply (no_services_no_comparison (d :: data')). }
  destruct Hrun as (a & Hrun & Ha).
  rewrite (handler_run_no_comparison event context w a _ Hrun Ha).
  repeat split; try reflexivity;
    try (unfold not_invoked; simpl; intuition discriminate).
  intros w' s' e' ex Hd' Hq' Hc'.
  now rewrite (handler_run_client_error event context w' _ _ _ Hd' Hq' Hc').
Qed.

(** ** Delivery *)

(** The run of [send_to_slack] when the webhook answers 200. *)
Lemma send_to_slack_run_200 (w : World) (report : list json) (url : str)
    (answer : result bytes) :
  SLACK_WEBHOOK_URL w = Some url -> url <> [] ->
  let data := json_dumps (JObj [(lit "blocks", JArr report)]) in
  Request w url data = Ok tt ->
  urlopen w url data = Ok (mk_http_response 200 answer) ->
  send_to_slack w report
  = match answer with
    | Ok b => (Ok (Some b), [HttpRequestBuilt url data; HttpRequestSent url data])
    | Raise e =>
        (Ok None, [HttpRequestBuilt url data; HttpRequestSent url data;
                   LogError (lit "Error sending message to Slack: " ++ exn_msg e)])
    end.
Proof.
  intros Hu Hne data Hr Ho.
  unfold send_to_slack, webhook_url; rewrite Hu.
  destruct url as [|c u]; [contradiction|].
  rewrite (encode_utf8_ascii _ (json_dumps_ascii _)).
  fold data; cbn [lift bindM tell fst snd app].
  rewrite Hr; cbn [lift bindM tell fst snd app].
  unfold post_request; rewrite Ho.
  cbn [lift bindM tell try_except fst snd app getcode read Z.eqb Pos.eqb negb].
  destruct answer as [b|e]; reflexivity.
Qed.

(** C10.  If the webhook POST succeeds with status 200 and an empty
    response body, [send_to_slack] returns that empty body, and the entry
    point, which tests the body for truthiness, reports failure: status 500
    with the body [json.dumps("Error sending report to Slack")], although
    the request was sent. *)
Theorem empty_webhook_body_is_failure {E C} (event : E) (context : C) (w : World)
    (a : analysis) (t0 : list effect) (report : list json) (url : str) :
  analyze_costs w = (Ok (Some a), t0) ->
  top_10_comparison a <> [] ->
  create_report (top_10_comparison a) (monthly_costs_of a)
                (current_month_of a) (previous_month_of a) = Ok report ->
  SLACK_WEBHOOK_URL w = Some url -> url <> [] ->
  Request w url (json_dumps (JObj [(lit "blocks", JArr report)])) = Ok tt ->
  urlopen w url (json_dumps (JObj [(lit "blocks", JArr report)]))
  = Ok (mk_http_response 200 (Ok [])) ->
  fst (send_to_slack w report) = Ok (Some [])
  /\ fst (lambda_handler event context w) = send_error_response
  /\ statusCode (fst (lambda_handler event context w)) = 500
  /\ body (fst (lambda_handler event context w))
     = json_dumps (JStr (lit "Error sending report to Slack"))
  /\ In (HttpRequestSent url (json_dumps (JObj [(lit "blocks", JArr report)])))
        (snd (lambda_handler event context w)).
Proof.
  intros Ha Hne Hrep Hu Hun Hr Ho.
  pose proof (send_to_slack_run_200 w report url (Ok []) Hu Hun Hr Ho) as Hs.
  cbv zeta in Hs.
  assert (Hrun : lambda_handler event context w
                 = (send_error_response,
                    (Invoke Analyze_costs :: t0
                     ++ [Invoke Create_report; Invoke Send_to_slack;
                         HttpRequestBuilt url (json_dumps (JObj [(lit "blocks", JArr report)]));
                         HttpRequestSent url (json_dumps (JObj [(lit "blocks", JArr report)]));
                         LogError (lit "Failed to send report to Slack")])%list)).
  { unfold lambda_handler, handler_body; rewrite Ha.
    destruct a as [[|e es] mc cur prev]; [contradiction|].
    cbn [bindM tell ret lift fst snd top_10_comparison monthly_costs_of
         current_month_of previous_month_of] in *.
    rewrite Hrep; cbn [bindM tell ret lift fst snd].
    rewrite Hs; reflexivity. }
  rewrite Hs, Hrun; repeat split; try reflexivity.
  cbn [snd]; right; apply in_or_app; right; simpl; auto.
Qed.

(** ** JSON: decoding what was encoded *)

Lemma hex_val_digit (n : N) : (n < 16)%N -> hex_val (hex_digit n) = Some n.
Proof.
  intros H; unfold hex_val, hex_digit.
  destruct (n <? 10)%N eqn:E.
  - apply N.ltb_lt in E.
    replace ((48 <=? 48 + n) && (48 + n <=? 57))%N with true.
    + f_equal; lia.
    + symmetry; apply andb_true_iff; split; apply N.leb_le; lia.
  - apply N.ltb_ge in E.
    replace ((48 <=? 87 + n) && (87 + n <=? 57))%N with false.
    + replace ((97 <=? 87 + n) && (87 + n <=? 102))%N with true.
      * f_equal; lia.
      * symmetry; apply andb_true_iff; split; apply N.leb_le; lia.
    + symmetry; apply andb_false_iff; right; apply N.leb_gt; lia.
Qed.

(** The four digits of an escape spell the number they were made from. *)
Lemma hex4_escape (n : N) (t : str) :
  (n < 65536)%N ->
  exists h1 h2 h3 h4,
    (escape_u n ++ t)%list = 92%N :: 117%N :: h1 :: h2 :: h3 :: h4 :: t
    /\ hex4 h1 h2 h3 h4 = Some n.
Proof.
  intros H; unfold escape_u.
  do 4 eexists; split; [reflexivity|].
  unfold hex4.
  rewrite !hex_val_digit; try (apply N.mod_lt; lia).
  - f_equal; div_lia.
  - apply N.Div0.div_lt_upper_bound; lia.
Qed.

Lemma scan_plain (c : char) (t : str) :
  (c =? 34)%N = false -> (c =? 92)%N = false -> (c <? 32)%N = false ->
  scan_string (c :: t) = cons_char c (scan_string t).
Proof. intros E1 E2 E3; cbn [scan_string]; now rewrite E1, E2, E3. Qed.

Lemma scan_short_escape (e c : char) (t : str) :
  (e =? 117)%N = false -> unescape e = Some c ->
  scan_string (92%N :: e :: t) = cons_char c (scan_string t).
Proof. intros E1 E2; cbn [scan_string N.eqb Pos.eqb]; now rewrite E1, E2. Qed.

(** An escape that is not the high half of a pair is one character. *)
Lemma scan_escape_not_high (h1 h2 h3 h4 uni : N) (t : str) :
  hex4 h1 h2 h3 h4 = Some uni -> is_high_surrogate uni = false ->
  scan_string (92%N :: 117%N :: h1 :: h2 :: h3 :: h4 :: t)
  = cons_char uni (scan_string t).
Proof.
  intros Hx Hh; cbn [scan_string N.eqb Pos.eqb]; rewrite Hx, Hh.
  destruct t as [|b [|u [|g1 [|g2 [|g3 [|g4 t']]]]]]; try reflexivity.
  now rewrite andb_false_r.
Qed.

(** Nor is an escape that no low surrogate escape follows. *)
Lemma scan_escape_no_pair (h1 h2 h3 h4 uni : N) (t : str) :
  hex4 h1 h2 h3 h4 = Some uni -> no_low_escape t ->
  scan_string (92%N :: 117%N :: h1 :: h2 :: h3 :: h4 :: t)
  = cons_char uni (scan_string t).
Proof.
  intros Hx Ht; cbn [scan_string N.eqb Pos.eqb]; rewrite Hx.
  destruct t as [|b [|u [|g1 [|g2 [|g3 [|g4 t']]]]]]; try reflexivity.
  unfold no_low_escape in Ht.
  destruct ((b =? 92) && (u =? 117))%N eqn:E; [|reflexivity].
  destruct (Ht eq_refl) as (v & Hv & Hlow); rewrite Hv, Hlow.
  now destruct (is_high_surrogate uni).
Qed.

(** A high surrogate escape followed by a low one is one character. *)
Lemma scan_escape_pair (h1 h2 h3 h4 g1 g2 g3 g4 hi lo : N) (t : str) :
  hex4 h1 h2 h3 h4 = Some hi -> is_high_surrogate hi = true ->
  hex4 g1 g2 g3 g4 = Some lo -> is_low_surrogate lo = true ->
  scan_string
    (92%N :: 117%N :: h1 :: h2 :: h3 :: h4 :: 92%N :: 117%N :: g1 :: g2 :: g3 :: g4 :: t)
  = cons_char (join_surrogates hi lo) (scan_string t).
Proof.
  intros Hx Hh Hy Hl; cbn [scan_string N.eqb Pos.eqb andb]; now rewrite Hx, Hh, Hy, Hl.
Qed.

Lemma norm_str_cons (c : char) (s : str) :
  is_high_surrogate c = false -> norm_str (c :: s) = norm_char c :: norm_str s.
Proof. intros H; destruct s as [|d s]; simpl; [reflexivity|now rewrite H]. Qed.

Lemma norm_str_cons_not_low (c d : char) (s : str) :
  is_low_surrogate d = false ->
  norm_str (c :: d :: s) = norm_char c :: norm_str (d :: s).
Proof. intros H; cbn [norm_str]; now rewrite H, andb_false_r. Qed.

Lemma norm_char_small (c : char) : (c < 65536)%N -> norm_char c = c.
Proof. intros H; unfold norm_char; apply N.ltb_lt in H; now rewrite H. Qed.

(** The four shapes of an encoded character. *)
Lemma escape_char_cases (c : char) :
  (exists e, escape_char c = [92%N; e] /\ (e =? 117)%N = false
             /\ unescape e = Some c /\ (c < 128)%N)
  \/ (escape_char c = [c] /\ (c =? 34)%N = false /\ (c =? 92)%N = false
      /\ (c <? 32)%N = false /\ (c < 128)%N)
  \/ (escape_char c = escape_u c /\ (c < 65536)%N)
  \/ (escape_char c
      = (escape_u (55296 + ((c - 65536) / 1024) mod 1024)
           ++ escape_u (56320 + (c - 65536) mod 1024))%list
      /\ (65536 <= c)%N).
Proof.
  unfold escape_char.
  destruct (c =? 34)%N eqn:E1;
    [apply N.eqb_eq in E1; subst; left; exists 34%N; repeat split; reflexivity|].
  destruct (c =? 92)%N eqn:E2;
    [apply N.eqb_eq in E2; subst; left; exists 92%N; repeat split; reflexivity|].
  destruct (c =? 10)%N eqn:E3;
    [apply N.eqb_eq in E3; subst; left; exists 110%N; repeat split; reflexivity|].
  destruct (c =? 13)%N eqn:E4;
    [apply N.eqb_eq in E4; subst; left; exists 114%N; repeat split; reflexivity|].
  destruct (c =? 9)%N eqn:E5;
    [apply N.eqb_eq in E5; subst; left; exists 116%N; repeat split; reflexivity|].
  destruct (c =? 12)%N eqn:E6;
    [apply N.eqb_eq in E6; subst; left; exists 102%N; repeat split; reflexivity|].
  destruct (c =? 8)%N eqn:E7;
    [apply N.eqb_eq in E7; subst; left; exists 98%N; repeat split; reflexivity|].
  destruct ((32 <=? c) && (c <=? 126))%N eqn:E8.
  - right; left. apply andb_true_iff in E8; destruct E8 as [Ha Hb].
    apply N.leb_le in Ha, Hb.
    repeat split; auto; [apply N.ltb_ge; lia|lia].
  - destruct (c <? 65536)%N eqn:E9.
    + right; right; left; split; [reflexivity|now apply N.ltb_lt].
    + right; right; right; split; [reflexivity|now apply N.ltb_ge].
Qed.

Lemma high_surrogate_range (c : char) :
  is_high_surrogate c = true <-> (55296 <= c <= 56319)%N.
Proof.
  unfold is_high_surrogate; rewrite andb_true_iff, !N.leb_le; tauto.
Qed.

Lemma low_surrogate_range (c : char) :
  is_low_surrogate c = true <-> (56320 <= c <= 57343)%N.
Proof.
  unfold is_low_surrogate; rewrite andb_true_iff, !N.leb_le; tauto.
Qed.

Lemma not_low_surrogate (c : char) :
  (c < 56320 \/ 57343 < c)%N -> is_low_surrogate c = false.
Proof.
  intros H; destruct (is_low_surrogate c) eqn:E; [|reflexivity].
  apply low_surrogate_range in E; lia.
Qed.

Lemma not_high_surrogate (c : char) :
  (c < 55296 \/ 56319 < c)%N -> is_high_surrogate c = false.
Proof.
  intros H; destruct (is_high_surrogate c) eqn:E; [|reflexivity].
  apply high_surrogate_range in E; lia.
Qed.

(** A surrogate is written as one [\uXXXX] escape. *)
Lemma escape_char_surrogate (c : char) :
  (55296 <= c <= 57343)%N -> escape_char c = escape_u c.
Proof.
  intros H.
  destruct (escape_char_cases c) as [(e & _ & _ & _ & Hc)|[(_ & _ & _ & _ & Hc)|[[E _]|[_ Hc]]]];
    try lia; exact E.
Qed.

Lemma pair_halves (c : char) :
  (65536 <= c)%N ->
  let hi := (55296 + ((c - 65536) / 1024) mod 1024)%N in
  let lo := (56320 + (c - 65536) mod 1024)%N in
  is_high_surrogate hi = true /\ is_low_surrogate lo = true
  /\ join_surrogates hi lo = norm_char c /\ (hi < 65536)%N /\ (lo < 65536)%N.
Proof.
  intros H hi lo; repeat split.
  - apply high_surrogate_range; subst hi; div_lia.
  - apply low_surrogate_range; subst lo; div_lia.
  - unfold join_surrogates, norm_char.
    replace (c <? 65536)%N with false by (symmetry; apply N.ltb_ge; lia).
    subst hi lo; f_equal; div_lia.
  - subst hi; div_lia.
  - subst lo; div_lia.
Qed.

(** One character that is not the high half of a pair. *)
Lemma scan_char (c : char) (t : str) :
  is_high_surrogate c = false ->
  scan_string (escape_char c ++ t) = cons_char (norm_char c) (scan_string t).
Proof.
  intros Hh.
  destruct (escape_char_cases c)
    as [(e & -> & He & Hu & Hc)|[(-> & E1 & E2 & E3 & Hc)|[[-> Hc]|[-> Hc]]]].
  - rewrite norm_char_small by lia. now apply scan_short_escape.
  - rewrite norm_char_small by lia. now apply scan_plain.
  - rewrite norm_char_small by lia.
    destruct (hex4_escape c t Hc) as (h1 & h2 & h3 & h4 & -> & Hx).
    now apply scan_escape_not_high.
  - destruct (pair_halves c Hc) as (Hhi & Hlo & Hj & Bhi & Blo).
    rewrite <- app_assoc.
    destruct (hex4_escape _ t Blo) as (g1 & g2 & g3 & g4 & -> & Hy).
    destruct (hex4_escape _ (92%N :: 117%N :: g1 :: g2 :: g3 :: g4 :: t) Bhi)
      as (h1 & h2 & h3 & h4 & -> & Hx).
    rewrite <- Hj. now apply scan_escape_pair.
Qed.

(** A high surrogate that no low surrogate follows. *)
Lemma scan_char_high_alone (c : char) (t : str) :
  is_high_surrogate c = true -> no_low_escape t ->
  scan_string (escape_char c ++ t) = cons_char c (scan_string t).
Proof.
  intros Hh Ht. apply high_surrogate_range in Hh.
  rewrite escape_char_surrogate by lia.
  destruct (hex4_escape c t) as (h1 & h2 & h3 & h4 & -> & Hx); [lia|].
  now apply scan_escape_no_pair.
Qed.

(** A surrogate pair. *)
Lemma scan_char_pair (c d : char) (t : str) :
  is_high_surrogate c = true -> is_low_surrogate d = true ->
  scan_string (escape_char c ++ escape_char d ++ t)
  = cons_char (join_surrogates c d) (scan_string t).
Proof.
  intros Hh Hl.
  pose proof (proj1 (high_surrogate_range c) Hh) as Rc.
  pose proof (proj1 (low_surrogate_range d) Hl) as Rd.
  rewrite !escape_char_surrogate by lia.
  destruct (hex4_escape d t) as (g1 & g2 & g3 & g4 & -> & Hy); [lia|].
  destruct (hex4_escape c (92%N :: 117%N :: g1 :: g2 :: g3 :: g4 :: t))
    as (h1 & h2 & h3 & h4 & -> & Hx); [lia|].
  now apply scan_escape_pair.
Qed.

Lemma no_low_escape_first (b : char) (t : str) :
  (b =? 92)%N = false -> no_low_escape (b :: t).
Proof.
  intros E; destruct t as [|u [|g1 [|g2 [|g3 [|g4 t']]]]]; simpl; auto.
  now rewrite E.
Qed.

Lemma no_low_escape_second (u : char) (t : str) :
  (u =? 117)%N = false -> no_low_escape (92%N :: u :: t).
Proof.
  intros E; destruct t as [|g1 [|g2 [|g3 [|g4 t']]]]; simpl; auto.
  now rewrite E.
Qed.

(** What follows a character that is not a low surrogate does not begin
    with a low surrogate escape. *)
Lemma escape_char_no_low (d : char) (t : str) :
  is_low_surrogate d = false -> no_low_escape (escape_char d ++ t).
Proof.
  intros Hl.
  destruct (escape_char_cases d)
    as [(e & -> & He & Hu & Hc)|[(-> & E1 & E2 & E3 & Hc)|[[-> Hc]|[-> Hc]]]].
  - now apply no_low_escape_second.
  - now apply no_low_escape_first.
  - destruct (hex4_escape d t Hc) as (h1 & h2 & h3 & h4 & -> & Hx).
    simpl; intros _; eauto.
  - destruct (pair_halves d Hc) as (Hhi & Hlo & Hj & Bhi & Blo).
    rewrite <- app_assoc.
    destruct (hex4_escape _ (escape_u (56320 + (d - 65536) mod 1024) ++ t) Bhi)
      as (h1 & h2 & h3 & h4 & -> & Hx).
    simpl; intros _; eexists; split; [exact Hx|].
    apply not_low_surrogate. apply high_surrogate_range in Hhi; lia.
Qed.

(** Decoding the text of a string gives the string back, surrogate pairs
    joined. *)
Lemma scan_string_dumps (n : nat) (s rest : str) :
  (length s <= n)%nat ->
  scan_string (flat_map escape_char s ++ 34%N :: rest) = Some (norm_str s, rest).
Proof.
  revert s; induction n as [|n IH]; intros s Hlen.
  - destruct s; [reflexivity|simpl in Hlen; lia].
  - destruct s as [|c s]; [reflexivity|].
    simpl in Hlen. cbn [flat_map]. rewrite <- app_assoc.
    destruct (is_high_surrogate c) eqn:Hh.
    + destruct s as [|d s].
      * rewrite scan_char_high_alone; auto.
        -- cbn [flat_map app scan_string N.eqb Pos.eqb cons_char norm_str].
           rewrite norm_char_small; [reflexivity|].
           apply high_surrogate_range in Hh; lia.
        -- now apply no_low_escape_first.
      * destruct (is_low_surrogate d) eqn:Hl.
        -- cbn [flat_map]. rewrite <- app_assoc, scan_char_pair by assumption.
           rewrite IH by (simpl in Hlen; lia).
           cbn [cons_char norm_str]. now rewrite Hh, Hl.
        -- rewrite scan_char_high_alone; auto.
           ++ rewrite IH by lia.
              rewrite norm_str_cons_not_low by assumption.
              rewrite norm_char_small; [reflexivity|].
              apply high_surrogate_range in Hh; lia.
           ++ cbn [flat_map]. rewrite <- app_assoc. now apply escape_char_no_low.
    + rewrite scan_char by assumption.
      rewrite IH by lia. now rewrite norm_str_cons.
Qed.

Lemma parse_string_dumps (fuel : nat) (s rest : str) :
  parse_value (S fuel) (dumps_str s ++ rest) = Some (JStr (norm_str s), rest).
Proof.
  unfold dumps_str. cbn [app parse_value N.eqb Pos.eqb].
  rewrite <- app_assoc. cbn [app].
  now rewrite (scan_string_dumps (length s)).
Qed.

(** The text of a value begins with a quote, a bracket or a brace. *)
Lemma json_dumps_head (v : json) :
  exists c t, json_dumps v = c :: t
              /\ is_json_ws c = false /\ (c =? 93)%N = false /\ (c =? 125)%N = false.
Proof.
  destruct v as [s|l|members]; cbn [json_dumps];
    [exists 34%N|exists 91%N|exists 123%N]; eexists; repeat split; reflexivity.
Qed.

Lemma skip_ws_dumps (v : json) (rest : str) :
  skip_ws (json_dumps v ++ rest) = (json_dumps v ++ rest)%list.
Proof.
  destruct (json_dumps_head v) as (c & t & -> & Hws & _).
  cbn [app skip_ws]; now rewrite Hws.
Qed.

Lemma skip_ws_dumps_str (k rest : str) :
  skip_ws (dumps_str k ++ rest) = (dumps_str k ++ rest)%list.
Proof. reflexivity. Qed.

(** The elements of a list, from the first one to the closing bracket. *)
Lemma parse_elements_dumps (l : list json) :
  l <> [] ->
  Forall (fun x => forall fuel rest, (json_size x <= fuel)%nat ->
                     parse_value fuel (json_dumps x ++ rest) = Some (norm_json x, rest)) l ->
  forall fuel rest,
    (list_sum (map (fun x => S (json_size x)) l) <= fuel)%nat ->
    parse_elements fuel (join_comma (map json_dumps l) ++ 93%N :: rest)
    = Some (map norm_json l, rest).
Proof.
  induction l as [|x l IHl]; [contradiction|].
  intros _ Hall fuel rest Hfuel.
  inversion Hall as [|? ? Hx Hl]; subst.
  destruct fuel as [|f]; [simpl in Hfuel; lia|].
  assert (Hfx : (json_size x <= f)%nat) by (simpl in Hfuel; lia).
  assert (Hfl : (list_sum (map (fun x => S (json_size x)) l) <= f)%nat).
  { change (S (json_size x) + list_sum (map (fun x => S (json_size x)) l) <= S f)%nat
      in Hfuel; lia. }
  destruct l as [|y l'].
  - cbn [map join_comma parse_elements].
    rewrite Hx by exact Hfx.
    reflexivity.
  - change (join_comma (map json_dumps (x :: y :: l')))
      with (json_dumps x ++ lit ", " ++ join_comma (map json_dumps (y :: l')))%list.
    rewrite <- !app_assoc.
    cbn [parse_elements]. rewrite Hx by exact Hfx.
    change (lit ", " ++ join_comma (map json_dumps (y :: l')) ++ 93%N :: rest)%list
      with (44%N :: 32%N :: (join_comma (map json_dumps (y :: l')) ++ 93%N :: rest))%list.
    cbn [skip_ws is_json_ws N.eqb Pos.eqb orb].
    assert (Hskip : skip_ws (join_comma (map json_dumps (y :: l')) ++ 93%N :: rest)
                    = (join_comma (map json_dumps (y :: l')) ++ 93%N :: rest)%list).
    { destruct l'; cbn [map join_comma]; [apply skip_ws_dumps|].
      rewrite <- app_assoc; apply skip_ws_dumps. }
    rewrite Hskip.
    rewrite IHl; [reflexivity|discriminate|exact Hl|exact Hfl].
Qed.

(** The members of a dict, from the first key to the closing brace. *)
Lemma parse_members_dumps (members : list (str * json)) :
  members <> [] ->
  Forall (fun kv => forall fuel rest, (json_size (snd kv) <= fuel)%nat ->
                      parse_value fuel (json_dumps (snd kv) ++ rest)
                      = Some (norm_json (snd kv), rest)) members ->
  forall fuel rest,
    (list_sum (map (fun kv => S (json_size (snd kv))) members) <= fuel)%nat ->
    parse_members fuel
      (join_comma (map (fun kv => (dumps_str (fst kv) ++ lit ": " ++ json_dumps (snd kv))%list)
                       members) ++ 125%N :: rest)
    = Some (map (fun kv => (norm_str (fst kv), norm_json (snd kv))) members, rest).
Proof.
  induction members as [|[k v] m IHm]; [contradiction|].
  intros _ Hall fuel rest Hfuel.
  inversion Hall as [|? ? Hv Hm]; subst; cbn [fst snd] in Hv.
  destruct fuel as [|f]; [simpl in Hfuel; lia|].
  assert (Hfv : (json_size v <= f)%nat) by (simpl in Hfuel; lia).
  assert (Hfm : (list_sum (map (fun kv => S (json_size (snd kv))) m) <= f)%nat).
  { change (S (json_size v) + list_sum (map (fun kv => S (json_size (snd kv))) m) <= S f)%nat
      in Hfuel; lia. }
  set (text := fun kv : str * json =>
                 (dumps_str (fst kv) ++ lit ": " ++ json_dumps (snd kv))%list) in *.
  assert (Hstep : forall tail,
             parse_members (S f) ((text (k, v) ++ tail))
             = match skip_ws tail with
               | [] => None
               | c' :: rest2 =>
                   if (c' =? 125)%N then Some ([(norm_str k, norm_json v)], rest2)
                   else if (c' =? 44)%N then
                     match parse_members f (skip_ws rest2) with
                     | Some (kvs, rest3) => Some ((norm_str k, norm_json v) :: kvs, rest3)
                     | None => None
                     end
                   else None
               end).
  { intros tail. unfold text, dumps_str; cbn [fst snd].
    rewrite <- !app_assoc. cbn [app parse_members N.eqb Pos.eqb].
    rewrite <- app_assoc. cbn [app].
    rewrite (scan_string_dumps (length k)) by lia.
    change (lit ": " ++ json_dumps v ++ tail)%list
      with (58%N :: 32%N :: (json_dumps v ++ tail))%list.
    cbn [skip_ws is_json_ws N.eqb Pos.eqb orb].
    rewrite skip_ws_dumps, Hv by exact Hfv. reflexivity. }
  destruct m as [|kv' m'].
  - cbn [map join_comma]. rewrite Hstep. reflexivity.
  - change (join_comma (map text ((k, v) :: kv' :: m')))
      with (text (k, v) ++ lit ", " ++ join_comma (map text (kv' :: m')))%list.
    rewrite <- !app_assoc, Hstep.
    change (lit ", " ++ join_comma (map text (kv' :: m')) ++ 125%N :: rest)%list
      with (44%N :: 32%N :: (join_comma (map text (kv' :: m')) ++ 125%N :: rest))%list.
    cbn [skip_ws is_json_ws N.eqb Pos.eqb orb].
    assert (Hskip : skip_ws (join_comma (map text (kv' :: m')) ++ 125%N :: rest)
                    = (join_comma (map text (kv' :: m')) ++ 125%N :: rest)%list).
    { destruct m'; cbn [map join_comma]; unfold text; rewrite <- ?app_assoc;
        apply skip_ws_dumps_str. }
    rewrite Hskip.
    rewrite IHm; [reflexivity|discriminate|exact Hm|exact Hfm].
Qed.

(** Decoding the text of a value gives the value back, in normal form. *)
Lemma parse_value_dumps (v : json) :
  forall fuel rest, (json_size v <= fuel)%nat ->
    parse_value fuel (json_dumps v ++ rest) = Some (norm_json v, rest).
Proof.
  induction v as [s|l IH|members IH] using json_induction; intros fuel rest Hfuel;
    (destruct fuel as [|f]; [simpl in Hfuel; lia|]).
  - apply parse_string_dumps.
  - cbn [json_dumps norm_json].
    change (lit "[" ++ join_comma (map json_dumps l) ++ lit "]")%list
      with (91%N :: (join_comma (map json_dumps l) ++ [93%N]))%list.
    cbn [app parse_value N.eqb Pos.eqb]. rewrite <- app_assoc. cbn [app].
    destruct l as [|x0 l']; [reflexivity|].
    destruct (json_dumps_head x0) as (c & t & Hd & Hws & H93 & _).
    match goal with
    | |- context [skip_ws ?text] =>
        assert (Hhead : exists t', text = c :: t')
          by (destruct l'; cbn [map join_comma]; rewrite Hd; eexists; reflexivity);
        assert (Hp : parse_elements f text = Some (map norm_json (x0 :: l'), rest))
          by (apply parse_elements_dumps;
              [discriminate|exact IH|cbn [json_size] in Hfuel; lia]);
        destruct Hhead as [t' Ht']; rewrite Ht' in *
    end.
    cbn [skip_ws]; rewrite Hws, H93.
    match goal with
    | |- context [parse_elements f ?x] =>
        replace (parse_elements f x) with (Some (map norm_json (x0 :: l'), rest))
          by (symmetry; exact Hp)
    end.
    reflexivity.
  - cbn [json_dumps norm_json].
    set (text := fun kv : str * json =>
                   (dumps_str (fst kv) ++ lit ": " ++ json_dumps (snd kv))%list).
    change (lit "{" ++ join_comma (map text members) ++ lit "}")%list
      with (123%N :: (join_comma (map text members) ++ [125%N]))%list.
    cbn [app parse_value N.eqb Pos.eqb]. rewrite <- app_assoc. cbn [app].
    destruct members as [|[k x] m']; [reflexivity|].
    match goal with
    | |- context [skip_ws ?body] =>
        assert (Hhead : exists t', body = 34%N :: t')
          by (destruct m'; cbn [map join_comma]; unfold text, dumps_str;
              eexists; reflexivity);
        assert (Hp : parse_members f body
                     = Some (map (fun kv => (norm_str (fst kv), norm_json (snd kv)))
                                 ((k, x) :: m'), rest))
          by (apply parse_members_dumps;
              [discriminate|exact IH|cbn [json_size] in Hfuel; lia]);
        destruct Hhead as [t' Ht']; rewrite Ht' in *
    end.
    cbn [skip_ws is_json_ws N.eqb Pos.eqb orb].
    match goal with
    | |- context [parse_members f ?y] =>
        replace (parse_members f y)
          with (Some (map (fun kv => (norm_str (fst kv), norm_json (snd kv)))
                          ((k, x) :: m'), rest))
          by (symmetry; exact Hp)
    end.
    reflexivity.
Qed.

Lemma join_comma_size {A} (f : A -> str) (n : A -> nat) (l : list A) :
  Forall (fun x => (n x <= length (f x))%nat) l ->
  (list_sum (map (fun x => S (n x)) l) <= S (length (join_comma (map f l))))%nat.
Proof.
  induction 1 as [|x l Hx Hl IH]; [simpl; lia|].
  change (list_sum (map (fun x => S (n x)) (x :: l)))
    with (S (n x) + list_sum (map (fun x => S (n x)) l))%nat.
  destruct l as [|y l'].
  - simpl; lia.
  - change (join_comma (map f (x :: y :: l')))
      with (f x ++ lit ", " ++ join_comma (map f (y :: l')))%list.
    rewrite !length_app. simpl (length (lit ", ")). lia.
Qed.

(** The text of a value is at least as long as the fuel it needs. *)
Lemma json_size_length (v : json) : (json_size v <= length (json_dumps v))%nat.
Proof.
  induction v as [s|l IH|members IH] using json_induction.
  - unfold json_dumps, dumps_str; simpl; lia.
  - pose proof (join_comma_size json_dumps json_size l IH) as H.
    change (json_size (JArr l)) with (S (list_sum (map (fun x => S (json_size x)) l))).
    change (json_dumps (JArr l))
      with (lit "[" ++ join_comma (map json_dumps l) ++ lit "]")%list.
    rewrite !length_app.
    change (length (lit "[")) with 1%nat; change (length (lit "]")) with 1%nat.
    rewrite Nat.add_1_r; apply le_n_S; exact H.
  - pose (text := fun kv : str * json =>
                    (dumps_str (fst kv) ++ lit ": " ++ json_dumps (snd kv))%list).
    assert (H : Forall (fun kv => (json_size (snd kv) <= length (text kv))%nat) members).
    { rewrite Forall_forall in *; intros kv Hkv; specialize (IH kv Hkv).
      unfold text; rewrite !length_app.
      eapply Nat.le_trans; [exact IH|].
      rewrite Nat.add_assoc; apply Nat.le_add_l. }
    apply (join_comma_size text (fun kv => json_size (snd kv))) in H.
    change (json_size (JObj members))
      with (S (list_sum (map (fun kv => S (json_size (snd kv))) members))).
    change (json_dumps (JObj members))
      with (lit "{" ++ join_comma (map text members) ++ lit "}")%list.
    rewrite !length_app.
    change (length (lit "{")) with 1%nat; change (length (lit "}")) with 1%nat.
    rewrite Nat.add_1_r; apply le_n_S; exact H.
Qed.

(** [json.loads(json.dumps(v))] is [v] in normal form. *)
Lemma json_loads_dumps (v : json) : json_loads (json_dumps v) = Some (norm_json v).
Proof.
  unfold json_loads.
  pose proof (skip_ws_dumps v []) as Hs; rewrite app_nil_r in Hs; rewrite Hs.
  pose proof (parse_value_dumps v (S (length (json_dumps v))) []) as Hp.
  rewrite app_nil_r in Hp; rewrite Hp; [reflexivity|].
  apply Nat.le_trans with (1 := json_size_length v), Nat.le_succ_diag_r.
Qed.

(** ** The report builder *)

Lemma norm_json_header (t : str) : norm_json (header_block t) = header_block (norm_str t).
Proof. reflexivity. Qed.

Lemma norm_json_section (t : str) : norm_json (section_block t) = section_block (norm_str t).
Proof. reflexivity. Qed.

Lemma norm_json_divider : norm_json divider_block = divider_block.
Proof. reflexivity. Qed.

Lemma service_block_section (item : str * comparison_entry) :
  exists t, service_block item = section_block t.
Proof. destruct item as [service data]; eexists; reflexivity. Qed.

Lemma block_type_services (top_10 : dict comparison_entry) :
  map block_type (map service_block top_10)
  = repeat (Some (lit "section")) (length top_10)
  /\ map block_type (map norm_json (map service_block top_10))
     = repeat (Some (lit "section")) (length top_10).
Proof.
  induction top_10 as [|item l [IH1 IH2]]; [split; reflexivity|].
  destruct (service_block_section item) as [t Ht].
  cbn [map length repeat]; rewrite Ht, IH1, IH2; split; reflexivity.
Qed.

(** C7.  For every comparison and monthly cost table whose chart renders,
    the report builder returns the blocks in this order: the header naming
    both months, the introduction, one section per comparison entry, the
    divider, the overview header, the chart section; that is
    [len(comparison) + 5] blocks.  Serialised with [json.dumps] and parsed
    back with [json.loads], the report is a list of as many blocks, of the
    same types in the same order. *)
Theorem report_block_count_round_trip
    (top_10 : dict comparison_entry) (monthly_costs : dict (dict num))
    (current_month previous_month chart : str) :
  create_ascii_chart monthly_costs = Ok chart ->
  exists report parsed,
    create_report top_10 monthly_costs current_month previous_month = Ok report
    /\ report
       = ([header_block (lit "AWS Cost Analysis: " ++ current_month
                           ++ lit " vs " ++ previous_month);
           section_block (lit "*Top 10 Most Expensive Services Comparison:*")]
          ++ map service_block top_10
          ++ [divider_block;
              header_block (lit "6-Month Cost Overview");
              section_block (lit "```" ++ [10%N] ++ chart ++ [10%N] ++ lit "```")])%list
    /\ length report = (length top_10 + 5)%nat
    /\ json_loads (json_dumps (JArr report)) = Some (JArr parsed)
    /\ length parsed = (length top_10 + 5)%nat
    /\ map block_type parsed = map block_type report
    /\ map block_type report
       = ([Some (lit "header"); Some (lit "section")]
          ++ repeat (Some (lit "section")) (length top_10)
          ++ [Some (lit "divider"); Some (lit "header"); Some (lit "section")])%list.
Proof.
  intros Hchart.
  destruct (block_type_services top_10) as [Hs Hn].
  eexists; exists (map norm_json
    ([header_block (lit "AWS Cost Analysis: " ++ current_month
                      ++ lit " vs " ++ previous_month);
      section_block (lit "*Top 10 Most Expensive Services Comparison:*")]
     ++ map service_block top_10
     ++ [divider_block;
         header_block (lit "6-Month Cost Overview");
         section_block (lit "```" ++ [10%N] ++ chart ++ [10%N] ++ lit "```")])%list).
  split; [unfold create_report; rewrite Hchart; reflexivity|].
  split; [reflexivity|].
  split; [rewrite !length_app, length_map; simpl; lia|].
  split; [apply json_loads_dumps|].
  split; [rewrite length_map, !length_app, length_map; simpl; lia|].
  rewrite !map_app, Hs, Hn. split; reflexivity.
Qed.

(** ** The chart renderer

    The bar of a month is [int((total / max) * 20)] in binary64.  The
    lemmas below follow [binary_round_aux] on the real line: the rounded
    mantissa is an integer nearest to the scaled value at the canonical
    exponent, hence rounding, and with it division, multiplication and
    truncation, keep the order of the numbers. *)

(** *** Powers of two *)

Lemma bpow_pos e : (0 < bpow e)%R.
Proof. apply powerRZ_lt; lra. Qed.

Lemma bpow_add a b : bpow (a + b) = (bpow a * bpow b)%R.
Proof. apply powerRZ_add; lra. Qed.

Lemma bpow_0 : bpow 0 = 1%R.
Proof. reflexivity. Qed.

Lemma bpow_1 : bpow 1 = 2%R.
Proof. unfold bpow; simpl; lra. Qed.

Lemma bpow_succ a : bpow (a + 1) = (2 * bpow a)%R.
Proof. rewrite bpow_add, bpow_1; lra. Qed.

Lemma bpow_nonneg_ge1 n : 0 <= n -> (1 <= bpow n)%R.
Proof.
  intros H; pattern n; apply natlike_ind; auto.
  - rewrite bpow_0; lra.
  - intros x Hx IH. unfold Z.succ; rewrite bpow_succ; lra.
Qed.

Lemma bpow_le a b : a <= b -> (bpow a <= bpow b)%R.
Proof.
  intros H. replace b with (a + (b - a)) by lia.
  rewrite bpow_add. pose proof (bpow_pos a). pose proof (bpow_nonneg_ge1 (b - a) ltac:(lia)).
  nra.
Qed.

Lemma bpow_lt a b : a < b -> (bpow a < bpow b)%R.
Proof.
  intros H. replace b with ((a + 1) + (b - a - 1)) by lia.
  rewrite bpow_add, bpow_succ. pose proof (bpow_pos a).
  pose proof (bpow_nonneg_ge1 (b - a - 1) ltac:(lia)). nra.
Qed.

Lemma bpow_lt_inv a b : (bpow a < bpow b)%R -> a < b.
Proof.
  intros H. destruct (Z_lt_le_dec a b) as [|Hle]; auto.
  apply bpow_le in Hle; lra.
Qed.

Lemma bpow_le_inv a b : (bpow a <= bpow b)%R -> a <= b.
Proof.
  intros H. destruct (Z_le_gt_dec a b) as [|Hgt]; auto.
  assert (b < a) by lia. apply bpow_lt in H0; lra.
Qed.

Lemma bpow_IZR n : 0 <= n -> bpow n = IZR (2 ^ n).
Proof.
  intros H; pattern n; apply natlike_ind; auto.
  intros x Hx IH. unfold Z.succ. rewrite bpow_succ, IH, Z.pow_add_r by lia.
  rewrite mult_IZR. change (2 ^ 1) with 2. lra.
Qed.

Lemma bpow_opp a : bpow (- a) = (/ bpow a)%R.
Proof. apply powerRZ_neg'. Qed.

(** *** Binary digits *)

Lemma digits2_pos_spec (p : positive) :
  2 ^ (Zpos (digits2_pos p) - 1) <= Zpos p < 2 ^ Zpos (digits2_pos p).
Proof.
  induction p as [p IH|p IH|]; cbn [digits2_pos].
  - rewrite Pos2Z.inj_succ. replace (Z.succ (Zpos (digits2_pos p)) - 1) with (Zpos (digits2_pos p) - 1 + 1) by lia.
    rewrite Z.pow_succ_r by lia. rewrite Z.pow_add_r by lia. change (2 ^ 1) with 2. lia.
  - rewrite Pos2Z.inj_succ. replace (Z.succ (Zpos (digits2_pos p)) - 1) with (Zpos (digits2_pos p) - 1 + 1) by lia.
    rewrite Z.pow_succ_r by lia. rewrite Z.pow_add_r by lia. change (2 ^ 1) with 2. lia.
  - simpl; lia.
Qed.

Lemma digits_bpow (p : positive) :
  (bpow (Zpos (digits2_pos p) - 1) <= IZR (Zpos p) < bpow (Zpos (digits2_pos p)))%R.
Proof.
  destruct (digits2_pos_spec p) as [H1 H2].
  rewrite !bpow_IZR by lia. split; [apply IZR_le|apply IZR_lt]; assumption.
Qed.

(** *** Locations and right shifts *)

Lemma inbetween_bounds m l t : inbetween m l t -> (IZR m <= t < IZR m + 1)%R.
Proof. destruct l as [|[| |]]; simpl; lra. Qed.

Lemma loc_of_shr_record_of_loc m l :
  loc_of_shr_record (shr_record_of_loc m l) = l /\ shr_m (shr_record_of_loc m l) = m.
Proof. destruct l as [|[| |]]; split; reflexivity. Qed.

Lemma shr_1_spec mrs t :
  0 <= shr_m mrs ->
  inbetween (shr_m mrs) (loc_of_shr_record mrs) t ->
  0 <= shr_m (shr_1 mrs)
  /\ inbetween (shr_m (shr_1 mrs)) (loc_of_shr_record (shr_1 mrs)) (t / 2).
Proof.
  destruct mrs as [m r s]; cbn [shr_m].
  destruct m as [|[p|p|]|p]; intros Hm; try lia;
    destruct r, s; cbn [shr_1 shr_m loc_of_shr_record orb inbetween];
    try rewrite IZR_POS_xO; try rewrite IZR_POS_xI;
    intros H; (split; [lia|]); lra.
Qed.

Lemma iter_shr_1_spec (n : positive) : forall mrs t,
  0 <= shr_m mrs ->
  inbetween (shr_m mrs) (loc_of_shr_record mrs) t ->
  0 <= shr_m (SpecFloat.iter_pos shr_1 n mrs)
  /\ inbetween (shr_m (SpecFloat.iter_pos shr_1 n mrs)) (loc_of_shr_record (SpecFloat.iter_pos shr_1 n mrs))
       (t * bpow (- Zpos n)).
Proof.
  induction n as [n IH|n IH|]; intros mrs t Hm Hin; cbn [SpecFloat.iter_pos].
  - destruct (shr_1_spec mrs t Hm Hin) as [H1 H2].
    destruct (IH _ _ H1 H2) as [H3 H4].
    destruct (IH _ _ H3 H4) as [H5 H6].
    split; [exact H5|].
    replace (t * bpow (- Zpos n~1))%R with (t / 2 * bpow (- Zpos n) * bpow (- Zpos n))%R; [exact H6|].
    replace (- Zpos n~1) with (-1 + (- Zpos n + - Zpos n)) by lia.
    rewrite !bpow_add. change (bpow (-1)) with (/ (2 * 1))%R. field.
  - destruct (IH _ _ Hm Hin) as [H3 H4].
    destruct (IH _ _ H3 H4) as [H5 H6].
    split; [exact H5|].
    replace (t * bpow (- Zpos n~0))%R with (t * bpow (- Zpos n) * bpow (- Zpos n))%R; [exact H6|].
    replace (- Zpos n~0) with (- Zpos n + - Zpos n) by lia.
    rewrite !bpow_add. ring.
  - destruct (shr_1_spec mrs t Hm Hin) as [H1 H2]. split; [exact H1|].
    replace (t * bpow (- Zpos 1))%R with (t / 2)%R; [exact H2|].
    change (bpow (- Zpos 1)) with (/ (2 * 1))%R. field.
Qed.

(** *** The canonical exponent *)

Lemma fexp64_eq k : fexp64 k = Z.max (k - 53) (-1074).
Proof. reflexivity. Qed.

Lemma bpow_cancel e : (bpow (- e) * bpow e = 1)%R.
Proof. rewrite <- bpow_add. replace (- e + e) with 0 by lia. apply bpow_0. Qed.

Lemma unscale_le a x e : (a <= x * bpow (- e) -> a * bpow e <= x)%R.
Proof.
  intros H. pose proof (bpow_pos e). pose proof (bpow_cancel e).
  replace x with (x * bpow (- e) * bpow e)%R by (rewrite Rmult_assoc, H1; ring).
  nra.
Qed.

Lemma unscale_lt b x e : (x * bpow (- e) < b -> x < b * bpow e)%R.
Proof.
  intros H. pose proof (bpow_pos e). pose proof (bpow_cancel e).
  replace x with (x * bpow (- e) * bpow e)%R by (rewrite Rmult_assoc, H1; ring).
  nra.
Qed.

Lemma scale_le a x e : (a * bpow e <= x -> a <= x * bpow (- e))%R.
Proof.
  intros H. pose proof (bpow_pos (- e)). pose proof (bpow_cancel e).
  replace a with (a * bpow e * bpow (- e))%R by (rewrite Rmult_assoc, (Rmult_comm (bpow e)), H1; ring).
  nra.
Qed.

Lemma scale_lt b x e : (x < b * bpow e -> x * bpow (- e) < b)%R.
Proof.
  intros H. pose proof (bpow_pos (- e)). pose proof (bpow_cancel e).
  replace b with (b * bpow e * bpow (- e))%R by (rewrite Rmult_assoc, (Rmult_comm (bpow e)), H1; ring).
  nra.
Qed.

(** What an integer mantissa with its exponent says about the magnitude. *)
Lemma located_cexp (m e : Z) (x : R) :
  0 <= m -> (IZR m <= x * bpow (- e) < IZR m + 1)%R ->
  e <= fexp64 (Zdigits2 m + e) ->
  cexp_ok x (fexp64 (Zdigits2 m + e)).
Proof.
  intros Hm [Hlo Hhi] He. rewrite fexp64_eq in *.
  apply unscale_le in Hlo. apply unscale_lt in Hhi.
  destruct m as [|p|p]; [| |lia].
  - cbn [Zdigits2] in *. rewrite Z.add_0_l in *.
    assert (e <= -1074) by lia.
    replace (Z.max (e - 53) (-1074)) with (-1074) by lia.
    repeat split; [lia| |now left].
    replace (IZR 0 + 1)%R with 1%R in Hhi by (simpl; lra).
    assert (bpow e <= bpow (-1074 + 53))%R by (apply bpow_le; lia). lra.
  - cbn [Zdigits2] in *. set (d := Zpos (digits2_pos p)) in *.
    destruct (digits2_pos_spec p) as [D1 D2]. fold d in D1, D2.
    assert (E1 : (bpow (d - 1) <= IZR (Zpos p))%R) by (rewrite bpow_IZR by lia; now apply IZR_le).
    assert (E2 : (IZR (Zpos p) + 1 <= bpow d)%R).
    { rewrite bpow_IZR by lia. rewrite <- plus_IZR. apply IZR_le; lia. }
    assert (X1 : (bpow (d - 1 + e) <= x)%R).
    { rewrite bpow_add. pose proof (bpow_pos e). nra. }
    assert (X2 : (x < bpow (d + e))%R).
    { rewrite bpow_add. pose proof (bpow_pos e). nra. }
    repeat split; [lia| |].
    + assert (bpow (d + e) <= bpow (Z.max (d + e - 53) (-1074) + 53))%R by (apply bpow_le; lia). lra.
    + destruct (Z_le_gt_dec (d + e - 53) (-1074)) as [Hc|Hc].
      * left; lia.
      * right. replace (Z.max (d + e - 53) (-1074) + 52) with (d - 1 + e) by lia. exact X1.
Qed.

Lemma shr_fexp_spec (m e : Z) (l : location) (x : R) :
  0 <= m -> inbetween m l (x * bpow (- e)) ->
  e <= fexp64 (Zdigits2 m + e) ->
  exists mrs',
    shr_fexp prec emax m e l = (mrs', fexp64 (Zdigits2 m + e))
    /\ 0 <= shr_m mrs'
    /\ inbetween (shr_m mrs') (loc_of_shr_record mrs') (x * bpow (- fexp64 (Zdigits2 m + e))).
Proof.
  intros Hm Hin He.
  unfold shr_fexp. fold (fexp64 (Zdigits2 m + e)).
  set (c := fexp64 (Zdigits2 m + e)) in *.
  destruct (loc_of_shr_record_of_loc m l) as [L1 L2].
  unfold shr. destruct (c - e) as [|p|p] eqn:En; [| |lia].
  - exists (shr_record_of_loc m l). replace c with e by lia.
    rewrite L1, L2. repeat split; auto.
  - exists (SpecFloat.iter_pos shr_1 p (shr_record_of_loc m l)).
    replace (e + Zpos p) with c by lia.
    destruct (iter_shr_1_spec p (shr_record_of_loc m l) (x * bpow (- e))) as [H1 H2].
    + now rewrite L2.
    + now rewrite L1, L2.
    + repeat split; auto.
      replace (x * bpow (- c))%R with (x * bpow (- e) * bpow (- Zpos p))%R; [exact H2|].
      rewrite Rmult_assoc, <- bpow_add. f_equal; f_equal; lia.
Qed.

(** *** Rounding to nearest, ties to even *)

Lemma round_nearest_even_spec (m : Z) (l : location) (t : R) :
  inbetween m l t -> near (round_nearest_even m l) t.
Proof.
  unfold near.
  destruct l as [|[| |]]; cbn [inbetween round_nearest_even]; intros H.
  - subst; lra.
  - destruct (Z.even m); subst; try rewrite plus_IZR; lra.
  - lra.
  - rewrite plus_IZR; lra.
Qed.

Lemma scaled_bounds (x : R) (c : Z) :
  cexp_ok x c ->
  (x * bpow (- c) < IZR (2 ^ 53))%R
  /\ (c = -1074 \/ (IZR (2 ^ 52) <= x * bpow (- c))%R).
Proof.
  intros (Hc & Hhi & Hlo). split.
  - apply scale_lt. rewrite <- bpow_IZR by lia. rewrite <- bpow_add.
    now replace (53 + c) with (c + 53) by lia.
  - destruct Hlo as [Hlo|Hlo]; [now left|right].
    apply scale_le. rewrite <- bpow_IZR by lia. rewrite <- bpow_add.
    now replace (52 + c) with (c + 52) by lia.
Qed.

Lemma near_bounds (x : R) (c n : Z) :
  cexp_ok x c -> near n (x * bpow (- c)) ->
  n <= 2 ^ 53 /\ (c = -1074 \/ 2 ^ 52 <= n).
Proof.
  intros Hc Hn. destruct (scaled_bounds x c Hc) as [Hhi Hlo].
  unfold near in Hn. split.
  - assert (IZR n < IZR (2 ^ 53 + 1))%R by (rewrite plus_IZR; lra).
    apply lt_IZR in H. lia.
  - destruct Hlo as [Hlo|Hlo]; [now left|right].
    assert (IZR (2 ^ 52 - 1) < IZR n)%R by (rewrite minus_IZR; lra).
    apply lt_IZR in H. lia.
Qed.

Lemma Zdigits2_bounds (n d : Z) :
  0 < d -> 2 ^ (d - 1) <= n < 2 ^ d -> Zdigits2 n = d.
Proof.
  intros Hd [H1 H2]. destruct n as [|p|p]; [lia| |lia].
  cbn [Zdigits2]. destruct (digits2_pos_spec p) as [D1 D2].
  set (k := Zpos (digits2_pos p)) in *.
  assert (0 < k) by (unfold k; lia).
  destruct (Z.lt_trichotomy k d) as [Hk|[Hk|Hk]]; [|exact Hk|].
  - assert (2 ^ k <= 2 ^ (d - 1)) by (apply Z.pow_le_mono_r; lia). lia.
  - assert (2 ^ d <= 2 ^ (k - 1)) by (apply Z.pow_le_mono_r; lia). lia.
Qed.

Lemma Zdigits2_le_53 (n : Z) : 0 < n < 2 ^ 53 -> 0 < Zdigits2 n <= 53.
Proof.
  intros [H1 H2]. destruct n as [|p|p]; [lia| |lia].
  cbn [Zdigits2]. destruct (digits2_pos_spec p) as [D1 D2].
  set (k := Zpos (digits2_pos p)) in *. split; [unfold k; lia|].
  destruct (Z_le_gt_dec k 53); [assumption|].
  assert (2 ^ 53 <= 2 ^ (k - 1)) by (apply Z.pow_le_mono_r; lia). lia.
Qed.

Lemma second_shr_fexp (n c : Z) :
  -1074 <= c -> 0 <= n <= 2 ^ 53 -> (c = -1074 \/ 2 ^ 52 <= n) ->
  forall s,
  (let '(mrs, e) := shr_fexp prec emax n c loc_Exact in
   match shr_m mrs with
   | Z0 => S754_zero s
   | Zpos m => if Z.leb e (emax - prec) then S754_finite s m e else S754_infinity s
   | _ => S754_nan
   end) = pack s n c.
Proof.
  intros Hc Hn Hlo s. unfold pack.
  destruct (Z.eqb_spec n 0) as [->|N0].
  - unfold shr_fexp. cbn [Zdigits2]. rewrite Z.add_0_l.
    fold (fexp64 c). rewrite fexp64_eq. unfold shr.
    destruct (Z.max (c - 53) (-1074) - c) eqn:E; try reflexivity; lia.
  - destruct (Z.eqb_spec n (2 ^ 53)) as [->|N53].
    + unfold shr_fexp.
      change (Zdigits2 (2 ^ 53)) with 54. fold (fexp64 (54 + c)).
      rewrite fexp64_eq. replace (Z.max (54 + c - 53) (-1074) - c) with 1 by lia.
      cbn. change (emax - prec) with 971. reflexivity.
    + assert (Hd : fexp64 (Zdigits2 n + c) = c).
      { rewrite fexp64_eq. destruct Hlo as [->|Hlo].
        - pose proof (Zdigits2_le_53 n). lia.
        - rewrite (Zdigits2_bounds n 53); lia. }
      unfold shr_fexp. fold (fexp64 (Zdigits2 n + c)). rewrite Hd, Z.sub_diag.
      cbn. destruct n as [|p|p]; [lia| |lia].
      change (emax - prec) with 971. rewrite Pos2Z.id. reflexivity.
Qed.

Lemma binary_round_aux_spec (m e : Z) (l : location) (x : R) :
  0 <= m -> inbetween m l (x * bpow (- e)) ->
  e <= fexp64 (Zdigits2 m + e) ->
  exists n c,
    cexp_ok x c /\ 0 <= n
    /\ near n (x * bpow (- c))
    /\ forall s, binary_round_aux prec emax s m e l = pack s n c.
Proof.
  intros Hm Hin He.
  destruct (shr_fexp_spec m e l x Hm Hin He) as (mrs' & E1 & Hm' & Hin').
  pose proof (located_cexp m e x Hm (inbetween_bounds _ _ _ Hin) He) as Hc.
  set (c := fexp64 (Zdigits2 m + e)) in *.
  pose proof (round_nearest_even_spec _ _ _ Hin') as Hn.
  set (n := round_nearest_even (shr_m mrs') (loc_of_shr_record mrs')) in *.
  assert (Hn0 : 0 <= n).
  { destruct (inbetween_bounds _ _ _ Hin') as [T1 _]. unfold near in Hn.
    apply IZR_le in Hm'.
    assert (IZR (-1) < IZR n)%R by (simpl; lra).
    apply lt_IZR in H. lia. }
  exists n, c. split; [exact Hc|]. split; [exact Hn0|]. split; [exact Hn|].
  intros s. unfold binary_round_aux. rewrite E1. fold n.
  destruct (near_bounds x c n Hc Hn) as [B1 B2].
  apply second_shr_fexp; [apply Hc|lia|exact B2].
Qed.

(** *** Rounding keeps the order *)

Lemma scaled_lt (x y : R) (c : Z) : (x < y -> x * bpow (- c) < y * bpow (- c))%R.
Proof. intros H. pose proof (bpow_pos (- c)). nra. Qed.

Lemma near_mono (x y : R) (cx cy nx ny : Z) :
  (x < y)%R -> cexp_ok x cx -> cexp_ok y cy ->
  near nx (x * bpow (- cx)) -> near ny (y * bpow (- cy)) ->
  (cx = cy /\ nx <= ny) \/ (cx < cy /\ 2 ^ 52 <= ny).
Proof.
  intros Hxy Hx Hy Nx Ny.
  destruct (Z.lt_trichotomy cx cy) as [Hc|[Hc|Hc]].
  - right. split; [exact Hc|].
    destruct (near_bounds y cy ny Hy Ny) as [_ [E|E]]; [|exact E].
    destruct Hx as (Hx & _). lia.
  - left. split; [exact Hc|]. subst cy.
    apply (scaled_lt _ _ cx) in Hxy. unfold near in *.
    assert (IZR nx < IZR (ny + 1))%R by (rewrite plus_IZR; lra).
    apply lt_IZR in H. lia.
  - exfalso. destruct Hx as (Hx1 & Hx2 & Hx3), Hy as (Hy1 & Hy2 & Hy3).
    destruct Hx3 as [E|Hx3]; [lia|].
    assert (bpow (cy + 53) <= bpow (cx + 52))%R by (apply bpow_le; lia).
    lra.
Qed.

Lemma pack_mono (nx cx ny cy : Z) :
  0 <= nx <= 2 ^ 53 -> 0 <= ny <= 2 ^ 53 ->
  (cx = cy /\ nx <= ny) \/ (cx < cy /\ 2 ^ 52 <= ny) ->
  key_le (float_key (pack false nx cx)) (float_key (pack false ny cy)).
Proof.
  intros Hx Hy H. unfold pack, key_le.
  destruct (Z.eqb_spec nx 0), (Z.eqb_spec ny 0), (Z.eqb_spec nx (2 ^ 53)),
    (Z.eqb_spec ny (2 ^ 53)), (Z.leb_spec (cx + 1) 971), (Z.leb_spec (cy + 1) 971),
    (Z.leb_spec cx 971), (Z.leb_spec cy 971);
    cbn [float_key key_lt]; try lia;
    change (Zpos (2 ^ 52)) with (2 ^ 52); rewrite ?Z2Pos.id by lia; lia.
Qed.

Lemma binary_round_aux_mono (mx ex : Z) (lx : location) (my ey : Z) (ly : location) (x y : R) :
  0 <= mx -> inbetween mx lx (x * bpow (- ex)) -> ex <= fexp64 (Zdigits2 mx + ex) ->
  0 <= my -> inbetween my ly (y * bpow (- ey)) -> ey <= fexp64 (Zdigits2 my + ey) ->
  (x < y)%R ->
  key_le (float_key (binary_round_aux prec emax false mx ex lx))
         (float_key (binary_round_aux prec emax false my ey ly)).
Proof.
  intros Hmx Hix Hex Hmy Hiy Hey Hxy.
  destruct (binary_round_aux_spec mx ex lx x Hmx Hix Hex) as (nx & cx & Cx & Nx0 & Nx & Ex).
  destruct (binary_round_aux_spec my ey ly y Hmy Hiy Hey) as (ny & cy & Cy & Ny0 & Ny & Ey).
  rewrite Ex, Ey.
  apply pack_mono.
  - destruct (near_bounds x cx nx Cx Nx); lia.
  - destruct (near_bounds y cy ny Cy Ny); lia.
  - exact (near_mono x y cx cy nx ny Hxy Cx Cy Nx Ny).
Qed.

(** The output of a rounding is zero, a canonical number or an infinity. *)
Lemma pack_cases (s : bool) (n c : Z) :
  0 <= n <= 2 ^ 53 -> -1074 <= c -> (c = -1074 \/ 2 ^ 52 <= n) ->
  pack s n c = S754_zero s
  \/ pack s n c = S754_infinity s
  \/ exists m e, pack s n c = S754_finite s m e /\ bounded prec emax m e = true.
Proof.
  intros Hn Hc Hlo. unfold pack.
  destruct (Z.eqb_spec n 0); [now left|].
  destruct (Z.eqb_spec n (2 ^ 53)).
  - destruct (Z.leb_spec (c + 1) 971); [|now right; left].
    right; right. exists (2 ^ 52)%positive, (c + 1). split; [reflexivity|].
    unfold bounded, canonical_mantissa.
    change (Zpos (digits2_pos (2 ^ 52))) with 53.
    fold (fexp64 (53 + (c + 1))). rewrite fexp64_eq.
    apply andb_true_intro. split.
    + apply Z.eqb_eq. lia.
    + apply Z.leb_le. change (emax - prec) with 971. lia.
  - destruct (Z.leb_spec c 971); [|now right; left].
    right; right. exists (Z.to_pos n), c. split; [reflexivity|].
    unfold bounded, canonical_mantissa.
    change (Zpos (digits2_pos (Z.to_pos n))) with (Zdigits2 (Zpos (Z.to_pos n))).
    rewrite Z2Pos.id by lia.
    fold (fexp64 (Zdigits2 n + c)). rewrite fexp64_eq.
    apply andb_true_intro. split.
    + apply Z.eqb_eq. destruct Hlo as [->|Hlo].
      * pose proof (Zdigits2_le_53 n). lia.
      * rewrite (Zdigits2_bounds n 53); lia.
    + apply Z.leb_le. change (emax - prec) with 971. lia.
Qed.

(** *** Canonical floats are ordered as their values *)

Lemma bounded_spec (m : positive) (e : Z) :
  bounded prec emax m e = true ->
  -1074 <= e <= 971 /\ Zpos m < 2 ^ 53 /\ (e = -1074 \/ 2 ^ 52 <= Zpos m).
Proof.
  unfold bounded, canonical_mantissa. intros H.
  apply andb_prop in H. destruct H as [H1 H2].
  apply Z.eqb_eq in H1. apply Z.leb_le in H2. change (emax - prec) with 971 in H2.
  fold (fexp64 (Zpos (digits2_pos m) + e)) in H1. rewrite fexp64_eq in H1.
  destruct (digits2_pos_spec m) as [D1 D2].
  set (d := Zpos (digits2_pos m)) in *.
  assert (Hd : d <= 53) by lia.
  split; [lia|]. split.
  - assert (2 ^ d <= 2 ^ 53) by (apply Z.pow_le_mono_r; lia). lia.
  - destruct (Z.eq_dec e (-1074)); [now left|right].
    assert (d = 53) by lia. subst d. rewrite H in D1. exact D1.
Qed.

Lemma F2R_lt (m1 : positive) (e1 : Z) (m2 : positive) (e2 : Z) :
  bounded prec emax m1 e1 = true -> bounded prec emax m2 e2 = true ->
  e1 < e2 \/ (e1 = e2 /\ (m1 < m2)%positive) ->
  (F2R (Zpos m1) e1 < F2R (Zpos m2) e2)%R.
Proof.
  intros B1 B2 H. apply bounded_spec in B1, B2.
  destruct B1 as (E1 & M1 & L1), B2 as (E2 & M2 & L2). unfold F2R.
  destruct H as [H|[-> H]].
  - destruct L2 as [L2|L2]; [lia|].
    apply IZR_lt in M1. apply IZR_le in L2.
    rewrite <- bpow_IZR in M1, L2 by lia.
    assert (IZR (Zpos m1) * bpow e1 < bpow (53 + e1))%R.
    { rewrite bpow_add. pose proof (bpow_pos e1). nra. }
    assert (bpow (52 + e2) <= IZR (Zpos m2) * bpow e2)%R.
    { rewrite bpow_add. pose proof (bpow_pos e2). nra. }
    assert (bpow (53 + e1) <= bpow (52 + e2))%R by (apply bpow_le; lia).
    lra.
  - assert (IZR (Zpos m1) < IZR (Zpos m2))%R by (apply IZR_lt; lia).
    pose proof (bpow_pos e2). nra.
Qed.

(** *** The integer division of [SFdiv] *)

Lemma new_location_spec (q m r : Z) :
  0 < m -> 0 <= r < m ->
  inbetween q (new_location m r) (IZR q + IZR r / IZR m).
Proof.
  intros Hm Hr.
  assert (M : (0 < IZR m)%R) by (apply IZR_lt; lia).
  assert (U : (IZR r / IZR m * IZR m = IZR r)%R) by (field; lra).
  set (u := (IZR r / IZR m)%R) in *.
  assert (Lt2 : 2 * r < m -> (u < 1 / 2)%R).
  { intros H. apply IZR_lt in H. rewrite mult_IZR in H. nra. }
  assert (Gt2 : m < 2 * r -> (1 / 2 < u)%R).
  { intros H. apply IZR_lt in H. rewrite mult_IZR in H. nra. }
  assert (Eq2 : 2 * r = m -> (u = 1 / 2)%R).
  { intros H. apply (f_equal IZR) in H. rewrite mult_IZR in H. nra. }
  assert (Pos : r <> 0 -> (0 < u)%R).
  { intros H. assert (0 < IZR r)%R by (apply IZR_lt; lia). nra. }
  assert (Lt1 : (u < 1)%R).
  { assert (IZR r < IZR m)%R by (apply IZR_lt; lia). nra. }
  unfold new_location. destruct (Z.even m) eqn:Ev.
  - unfold new_location_even. destruct (Z.eqb_spec r 0) as [->|R0].
    + cbn [inbetween]. unfold u. replace (IZR 0) with 0%R by reflexivity.
      unfold Rdiv; rewrite Rmult_0_l; lra.
    + destruct (Z.compare_spec (2 * r) m) as [E|E|E]; cbn [inbetween].
      * rewrite (Eq2 E); lra.
      * specialize (Lt2 E). specialize (Pos R0). lra.
      * specialize (Gt2 E). lra.
  - unfold new_location_odd. destruct (Z.eqb_spec r 0) as [->|R0].
    + cbn [inbetween]. unfold u. replace (IZR 0) with 0%R by reflexivity.
      unfold Rdiv; rewrite Rmult_0_l; lra.
    + assert (Odd : m <> 2 * r).
      { intros ->. rewrite Z.even_mul in Ev. discriminate. }
      destruct (Z.compare_spec (2 * r + 1) m) as [E|E|E]; cbn [inbetween].
      * assert (L : 2 * r < m) by lia. specialize (Lt2 L). specialize (Pos R0). lra.
      * assert (L : 2 * r < m) by lia. specialize (Lt2 L). specialize (Pos R0). lra.
      * assert (L : m < 2 * r) by lia. specialize (Gt2 L). lra.
Qed.

Lemma Zdigits2_ge (q k : Z) : 0 < k -> 2 ^ (k - 1) <= q -> k <= Zdigits2 q.
Proof.
  intros Hk H. assert (0 < q) by (pose proof (Z.pow_pos_nonneg 2 (k - 1)); lia).
  destruct q as [|p|p]; [lia| |lia]. cbn [Zdigits2].
  destruct (digits2_pos_spec p) as [D1 D2].
  set (d := Zpos (digits2_pos p)) in *.
  destruct (Z_le_gt_dec k d); [assumption|].
  assert (2 ^ d <= 2 ^ (k - 1)) by (apply Z.pow_le_mono_r; lia). lia.
Qed.

Lemma F2R_pos (m : positive) (e : Z) : (0 < F2R (Zpos m) e)%R.
Proof.
  unfold F2R. apply Rmult_lt_0_compat; [apply IZR_lt; lia|apply bpow_pos].
Qed.

Lemma SFdiv_core_binary_spec (m1 : positive) (e1 : Z) (m2 : positive) (e2 : Z) :
  exists q e' l,
    SFdiv_core_binary prec emax (Zpos m1) e1 (Zpos m2) e2 = (q, e', l)
    /\ 0 <= q
    /\ inbetween q l (F2R (Zpos m1) e1 / F2R (Zpos m2) e2 * bpow (- e'))
    /\ e' <= fexp64 (Zdigits2 q + e').
Proof.
  unfold SFdiv_core_binary.
  set (d1 := Zdigits2 (Zpos m1)). set (d2 := Zdigits2 (Zpos m2)).
  fold (fexp64 (d1 + e1 - (d2 + e2))).
  set (e' := Z.min (fexp64 (d1 + e1 - (d2 + e2))) (e1 - e2)).
  set (s := e1 - e2 - e').
  assert (Hs : 0 <= s) by (unfold s, e'; lia).
  set (m' := match s with Zpos _ => Z.shiftl (Zpos m1) s | 0 => Zpos m1 | Zneg _ => 0 end).
  assert (Hm' : m' = Zpos m1 * 2 ^ s).
  { unfold m'. destruct s as [|p|p] eqn:Es; [simpl; lia| |lia].
    apply Z.shiftl_mul_pow2. lia. }
  pose proof (Z_div_mod m' (Zpos m2) ltac:(lia)) as Hdiv.
  destruct (Z.div_eucl m' (Zpos m2)) as [q r]. destruct Hdiv as [Hq Hr].
  assert (P2 : 0 < 2 ^ s) by (apply Z.pow_pos_nonneg; lia).
  assert (Hq0 : 0 <= q) by nia.
  exists q, e', (new_location (Zpos m2) r).
  split; [reflexivity|]. split; [exact Hq0|]. split.
  - replace (F2R (Zpos m1) e1 / F2R (Zpos m2) e2 * bpow (- e'))%R
      with (IZR q + IZR r / IZR (Zpos m2))%R.
    + apply new_location_spec; lia.
    + unfold F2R.
      assert (M2 : (0 < IZR (Zpos m2))%R) by (apply IZR_lt; lia).
      pose proof (bpow_pos e2) as B2.
      assert (Es : (bpow e1 * bpow (- e') = IZR (2 ^ s) * bpow e2)%R).
      { rewrite <- bpow_IZR by lia. rewrite <- !bpow_add. f_equal. unfold s. lia. }
      assert (Em : (IZR (Zpos m1) * IZR (2 ^ s) = IZR (Zpos m2) * IZR q + IZR r)%R).
      { rewrite <- !mult_IZR, <- plus_IZR. f_equal. lia. }
      field_simplify_eq; [|lra].
      transitivity (IZR (Zpos m1) * (bpow e1 * bpow (- e')))%R; [|ring].
      rewrite Es. transitivity (IZR (Zpos m1) * IZR (2 ^ s) * bpow e2)%R; [|ring].
      rewrite Em. ring.
  - rewrite fexp64_eq.
    destruct (Z_le_gt_dec e' (-1074)) as [He|He]; [lia|].
    assert (HF : e' <= d1 + e1 - (d2 + e2) - 53).
    { unfold e' in *. rewrite fexp64_eq in *. lia. }
    destruct (digits2_pos_spec m1) as [A1 A2]. fold d1 in A1, A2.
    destruct (digits2_pos_spec m2) as [B1 B2]. fold d2 in B1, B2.
    assert (D1 : 0 < d1) by (unfold d1; simpl; lia).
    assert (D2 : 0 < d2) by (unfold d2; simpl; lia).
    assert (Hbig : 2 ^ 52 * 2 ^ d2 <= m').
    { rewrite Hm'. rewrite <- Z.pow_add_r by lia.
      apply Z.le_trans with (2 ^ (d1 - 1) * 2 ^ s);
        [|apply Z.mul_le_mono_nonneg_r; [apply Z.lt_le_incl, P2|exact A1]].
      rewrite <- Z.pow_add_r by lia. apply Z.pow_le_mono_r; unfold s; lia. }
    assert (Hq52 : 2 ^ 52 <= q).
    { destruct (Z_le_gt_dec (2 ^ 52) q) as [Hle|Hgt]; [exact Hle|exfalso].
      assert (X1 : Zpos m2 * (q + 1) <= Zpos m2 * 2 ^ 52)
        by (apply Z.mul_le_mono_nonneg_l; lia).
      assert (X2 : Zpos m2 * 2 ^ 52 < 2 ^ d2 * 2 ^ 52)
        by (apply Z.mul_lt_mono_pos_r; [lia|exact B2]).
      clearbody m' d2. clear - X1 X2 Hbig Hq Hr. lia. }
    pose proof (Zdigits2_ge q 53 ltac:(lia) Hq52) as Hd.
    clear - Hd. clearbody e'. lia.
Qed.

(** *** What rounding returns *)

Lemma binary_round_aux_pos_class (m e : Z) (l : location) (x : R) :
  0 <= m -> inbetween m l (x * bpow (- e)) -> e <= fexp64 (Zdigits2 m + e) ->
  pos_class (binary_round_aux prec emax false m e l).
Proof.
  intros Hm Hin He.
  destruct (binary_round_aux_spec m e l x Hm Hin He) as (n & c & Cx & N0 & Nx & Ex).
  rewrite Ex. destruct (near_bounds x c n Cx Nx) as [B1 B2].
  apply pack_cases; [lia|apply Cx|exact B2].
Qed.

Lemma binary_round_aux_opp (s : bool) (m e : Z) (l : location) :
  binary_round_aux prec emax (negb s) m e l = SFopp (binary_round_aux prec emax s m e l).
Proof.
  unfold binary_round_aux.
  destruct (shr_fexp prec emax m e l) as [mrs' e'].
  destruct (shr_fexp prec emax _ e' loc_Exact) as [mrs'' e''].
  destruct (shr_m mrs''); try reflexivity.
  destruct (e'' <=? emax - prec); reflexivity.
Qed.

Lemma SFmul_located (mx : positive) (ex : Z) (my : positive) (ey : Z) :
  bounded prec emax mx ex = true -> bounded prec emax my ey = true ->
  inbetween (Zpos (mx * my)) loc_Exact
    (F2R (Zpos mx) ex * F2R (Zpos my) ey * bpow (- (ex + ey)))
  /\ ex + ey <= fexp64 (Zdigits2 (Zpos (mx * my)) + (ex + ey)).
Proof.
  intros Bx By. split.
  - cbn [inbetween]. unfold F2R. rewrite Pos2Z.inj_mul, mult_IZR.
    pose proof (bpow_cancel (ex + ey)) as C. rewrite (bpow_add ex ey) in C.
    transitivity (IZR (Zpos mx) * IZR (Zpos my) * (bpow (- (ex + ey)) * (bpow ex * bpow ey)))%R;
      [ring|rewrite C; ring].
  - rewrite fexp64_eq.
    apply bounded_spec in Bx, By.
    destruct Bx as (Ex & Mx & Lx), By as (Ey & My & Ly).
    destruct (Z_le_gt_dec (ex + ey) (-1074)) as [Hs|Hs]; [lia|].
    assert (H52 : 2 ^ 52 <= Zpos (mx * my)).
    { rewrite Pos2Z.inj_mul. destruct Lx as [Lx|Lx], Ly as [Ly|Ly]; try lia; nia. }
    pose proof (Zdigits2_ge (Zpos (mx * my)) 53 ltac:(lia) H52). lia.
Qed.

Lemma float_trunc_bounds (m : positive) (e : Z) :
  exists a, float_trunc (S754_finite false m e) = Ok a
            /\ 0 <= a /\ (IZR a <= F2R (Zpos m) e < IZR a + 1)%R
            /\ float_trunc (S754_finite true m e) = Ok (- a).
Proof.
  unfold float_trunc, F2R. destruct e as [|p|p].
  - exists (Zpos m). rewrite Z.shiftl_0_r. repeat split; try lia.
    + rewrite bpow_0; lra.
    + rewrite bpow_0; lra.
  - exists (Z.shiftl (Zpos m) (Zpos p)). rewrite Z.shiftl_mul_pow2 by lia.
    repeat split.
    + apply Z.mul_nonneg_nonneg; [lia|]. apply Z.pow_nonneg; lia.
    + rewrite mult_IZR, <- bpow_IZR by lia. lra.
    + rewrite mult_IZR, <- bpow_IZR by lia. lra.
  - exists (Z.shiftr (Zpos m) (Zpos p)). rewrite Z.shiftr_div_pow2 by lia.
    assert (P : 0 < 2 ^ Zpos p) by (apply Z.pow_pos_nonneg; lia).
    pose proof (Z.div_mod (Zpos m) (2 ^ Zpos p) ltac:(lia)) as Hd.
    pose proof (Z.mod_pos_bound (Zpos m) (2 ^ Zpos p) P) as Hr.
    set (q := Zpos m / 2 ^ Zpos p) in *. set (r := Zpos m mod 2 ^ Zpos p) in *.
    assert (Hq : 0 <= q) by (apply Z.div_pos; lia).
    repeat split; [exact Hq| |].
    + change (Zneg p) with (- Zpos p).
      apply scale_le. rewrite bpow_IZR by lia. rewrite <- mult_IZR. apply IZR_le. lia.
    + change (Zneg p) with (- Zpos p).
      apply scale_lt. rewrite bpow_IZR by lia.
      replace (IZR q + 1)%R with (IZR (q + 1)) by (rewrite plus_IZR; reflexivity).
      rewrite <- mult_IZR. apply IZR_lt. lia.
Qed.

Lemma float_key_pos_class (r : float) :
  pos_class r ->
  key_le (0, 0, 0) (float_key r) /\ key_le (float_key r) (2, 0, 0).
Proof.
  intros [->|[->|(m & e & -> & _)]]; cbn [float_key]; unfold key_le, key_lt; lia.
Qed.

(** Two such floats in order are equal, or their values are in order. *)
Lemma pos_class_le (r1 r2 : float) :
  pos_class r1 -> pos_class r2 -> key_le (float_key r1) (float_key r2) ->
  r1 = S754_zero false \/ r2 = S754_infinity false \/ r1 = r2
  \/ exists m1 e1 m2 e2,
       r1 = S754_finite false m1 e1 /\ r2 = S754_finite false m2 e2
       /\ bounded prec emax m1 e1 = true /\ bounded prec emax m2 e2 = true
       /\ (F2R (Zpos m1) e1 < F2R (Zpos m2) e2)%R.
Proof.
  intros [->|[->|(m1 & e1 & -> & B1)]]; [now left| |].
  - intros [->|[->|(m2 & e2 & -> & B2)]] H; [|now right; left|];
      exfalso; apply H; cbn [float_key key_lt]; lia.
  - intros [->|[->|(m2 & e2 & -> & B2)]] H; [|now right; left|].
    + exfalso; apply H; cbn [float_key key_lt]; lia.
    + cbn [float_key] in H. unfold key_le, key_lt in H.
      destruct (Z.eq_dec e1 e2) as [He|He].
      * destruct (Pos.eq_dec m1 m2) as [Hm|Hm].
        -- right; right; left. now subst.
        -- right; right; right. exists m1, e1, m2, e2. repeat split; auto.
           apply F2R_lt; auto. right. split; [exact He|]. lia.
      * right; right; right. exists m1, e1, m2, e2. repeat split; auto.
        apply F2R_lt; auto. left. lia.
Qed.

(** *** The order of keys *)

Lemma key_le_refl (k : Z * Z * Z) : key_le k k.
Proof. destruct k as [[a b] c]. unfold key_le, key_lt. lia. Qed.

Lemma key_le_trans (a b c : Z * Z * Z) : key_le a b -> key_le b c -> key_le a c.
Proof.
  destruct a as [[a1 a2] a3], b as [[b1 b2] b3], c as [[c1 c2] c3].
  unfold key_le, key_lt. lia.
Qed.

Lemma pos_class_finite (m : positive) (e : Z) :
  bounded prec emax m e = true -> pos_class (S754_finite false m e).
Proof. intros B. right; right. now exists m, e. Qed.

Lemma chart_width_float : to_float (PyInt chart_width) = S754_finite false 5629499534213120 (-48).
Proof. reflexivity. Qed.

Lemma chart_width_float_bounded : bounded prec emax 5629499534213120 (-48) = true.
Proof. reflexivity. Qed.

(** *** Division by a positive number *)

Lemma fdiv_finite (s : bool) (m1 : positive) (e1 : Z) (m2 : positive) (e2 : Z) :
  exists q e' l,
    fdiv (S754_finite s m1 e1) (S754_finite false m2 e2)
      = binary_round_aux prec emax s q e' l
    /\ 0 <= q
    /\ inbetween q l (F2R (Zpos m1) e1 / F2R (Zpos m2) e2 * bpow (- e'))
    /\ e' <= fexp64 (Zdigits2 q + e').
Proof.
  destruct (SFdiv_core_binary_spec m1 e1 m2 e2) as (q & e' & l & E & Hq & Hin & He).
  exists q, e', l. split; [|auto].
  unfold fdiv, SFdiv. rewrite E. now rewrite xorb_false_r.
Qed.

Lemma fdiv_pos_class (m1 : positive) (e1 : Z) (m2 : positive) (e2 : Z) :
  pos_class (fdiv (S754_finite false m1 e1) (S754_finite false m2 e2)).
Proof.
  destruct (fdiv_finite false m1 e1 m2 e2) as (q & e' & l & E & Hq & Hin & He).
  rewrite E. eapply binary_round_aux_pos_class; eauto.
Qed.

Lemma fdiv_pos_mono (m1 : positive) (e1 : Z) (m2 : positive) (e2 : Z)
    (mM : positive) (eM : Z) :
  (F2R (Zpos m1) e1 < F2R (Zpos m2) e2)%R ->
  key_le (float_key (fdiv (S754_finite false m1 e1) (S754_finite false mM eM)))
         (float_key (fdiv (S754_finite false m2 e2) (S754_finite false mM eM))).
Proof.
  intros Hlt.
  destruct (fdiv_finite false m1 e1 mM eM) as (q1 & e1' & l1 & E1 & Hq1 & Hin1 & He1).
  destruct (fdiv_finite false m2 e2 mM eM) as (q2 & e2' & l2 & E2 & Hq2 & Hin2 & He2).
  rewrite E1, E2.
  eapply binary_round_aux_mono; eauto.
  pose proof (F2R_pos mM eM) as HM.
  apply Rmult_lt_compat_r; [now apply Rinv_0_lt_compat|exact Hlt].
Qed.

(** *** Multiplication by a positive number *)

Lemma fmul_finite (s : bool) (m1 : positive) (e1 : Z) (m2 : positive) (e2 : Z) :
  fmul (S754_finite s m1 e1) (S754_finite false m2 e2)
  = binary_round_aux prec emax s (Zpos (m1 * m2)) (e1 + e2) loc_Exact.
Proof. unfold fmul, SFmul. now rewrite xorb_false_r. Qed.

Lemma fmul_pos_class (m1 : positive) (e1 : Z) (m2 : positive) (e2 : Z) :
  bounded prec emax m1 e1 = true -> bounded prec emax m2 e2 = true ->
  pos_class (fmul (S754_finite false m1 e1) (S754_finite false m2 e2)).
Proof.
  intros B1 B2. rewrite fmul_finite.
  destruct (SFmul_located m1 e1 m2 e2 B1 B2) as [Hin He].
  eapply binary_round_aux_pos_class; eauto. lia.
Qed.

Lemma fmul_pos_mono (m1 : positive) (e1 : Z) (m2 : positive) (e2 : Z)
    (mc : positive) (ec : Z) :
  bounded prec emax m1 e1 = true -> bounded prec emax m2 e2 = true ->
  bounded prec emax mc ec = true ->
  (F2R (Zpos m1) e1 < F2R (Zpos m2) e2)%R ->
  key_le (float_key (fmul (S754_finite false m1 e1) (S754_finite false mc ec)))
         (float_key (fmul (S754_finite false m2 e2) (S754_finite false mc ec))).
Proof.
  intros B1 B2 Bc Hlt. rewrite !fmul_finite.
  destruct (SFmul_located m1 e1 mc ec B1 Bc) as [Hin1 He1].
  destruct (SFmul_located m2 e2 mc ec B2 Bc) as [Hin2 He2].
  eapply binary_round_aux_mono; eauto; try lia.
  pose proof (F2R_pos mc ec) as Hc.
  apply Rmult_lt_compat_r; assumption.
Qed.

Lemma fmul_mono (r1 r2 : float) (mc : positive) (ec : Z) :
  bounded prec emax mc ec = true ->
  pos_class r1 -> pos_class r2 -> key_le (float_key r1) (float_key r2) ->
  pos_class (fmul r1 (S754_finite false mc ec))
  /\ pos_class (fmul r2 (S754_finite false mc ec))
  /\ key_le (float_key (fmul r1 (S754_finite false mc ec)))
            (float_key (fmul r2 (S754_finite false mc ec))).
Proof.
  intros Bc P1 P2 Hle.
  assert (Q : forall r, pos_class r -> pos_class (fmul r (S754_finite false mc ec))).
  { intros r [->|[->|(m & e & -> & B)]].
    - now left.
    - now right; left.
    - now apply fmul_pos_class. }
  split; [now apply Q|]. split; [now apply Q|].
  destruct (pos_class_le r1 r2 P1 P2 Hle)
    as [->|[->|[->|(m1 & e1 & m2 & e2 & -> & -> & B1 & B2 & Hlt)]]].
  - apply (float_key_pos_class _ (Q _ P2)).
  - apply (float_key_pos_class _ (Q _ P1)).
  - apply key_le_refl.
  - now apply fmul_pos_mono.
Qed.

(** *** Truncation *)

Lemma float_trunc_pos_class (p : float) (t : Z) :
  pos_class p -> float_trunc p = Ok t -> 0 <= t.
Proof.
  intros [->|[->|(m & e & -> & B)]] H.
  - injection H as <-. lia.
  - discriminate.
  - destruct (float_trunc_bounds m e) as (a & Ea & Ha & _). congruence.
Qed.

Lemma float_trunc_mono (p1 p2 : float) (t1 t2 : Z) :
  pos_class p1 -> pos_class p2 -> key_le (float_key p1) (float_key p2) ->
  float_trunc p1 = Ok t1 -> float_trunc p2 = Ok t2 -> t1 <= t2.
Proof.
  intros P1 P2 Hle H1 H2.
  destruct (pos_class_le p1 p2 P1 P2 Hle)
    as [->|[->|[->|(m1 & e1 & m2 & e2 & -> & -> & B1 & B2 & Hlt)]]].
  - injection H1 as <-. eapply float_trunc_pos_class; eauto.
  - discriminate.
  - assert (t1 = t2) by congruence. lia.
  - destruct (float_trunc_bounds m1 e1) as (a1 & Ea1 & _ & [L1 U1] & _).
    destruct (float_trunc_bounds m2 e2) as (a2 & Ea2 & _ & [L2 U2] & _).
    assert (t1 = a1) by congruence. assert (t2 = a2) by congruence. subst.
    assert (IZR a1 < IZR (a2 + 1))%R by (rewrite plus_IZR; lra).
    apply lt_IZR in H. lia.
Qed.

(** *** Sign symmetry *)

Lemma fdiv_opp (x M : float) : fdiv (SFopp x) M = SFopp (fdiv x M).
Proof.
  unfold fdiv.
  destruct x as [sx|sx| |sx mx ex], M as [sM|sM| |sM mM eM]; cbn [SFopp SFdiv];
    try reflexivity; try (now rewrite negb_xorb_l).
  destruct (SFdiv_core_binary prec emax (Zpos mx) ex (Zpos mM) eM) as [[q e'] l].
  rewrite <- binary_round_aux_opp. now rewrite negb_xorb_l.
Qed.

Lemma fmul_opp (x c : float) : fmul (SFopp x) c = SFopp (fmul x c).
Proof.
  unfold fmul.
  destruct x as [sx|sx| |sx mx ex], c as [sc|sc| |sc mc ec]; cbn [SFopp SFmul];
    try reflexivity; try (now rewrite negb_xorb_l).
  rewrite <- binary_round_aux_opp. now rewrite negb_xorb_l.
Qed.

Lemma float_trunc_opp (p : float) : float_trunc (SFopp p) = opp_result (float_trunc p).
Proof.
  destruct p as [s|s| |s m e]; cbn [SFopp float_trunc opp_result]; try reflexivity.
  destruct s; cbn [negb]; f_equal; lia.
Qed.

Lemma bar_float_opp (x M : float) :
  bar_float (SFopp x) M = opp_result (bar_float x M).
Proof. unfold bar_float. now rewrite fdiv_opp, fmul_opp, float_trunc_opp. Qed.

(** *** The bar on floats *)

Lemma bar_float_zero (s : bool) (mM : positive) (eM : Z) :
  bar_float (S754_zero s) (S754_finite false mM eM) = Ok 0.
Proof. reflexivity. Qed.

Lemma bar_float_pos (m : positive) (e : Z) (mM : positive) (eM : Z) :
  pos_class (fmul (fdiv (S754_finite false m e) (S754_finite false mM eM))
                  (to_float (PyInt chart_width))).
Proof.
  rewrite chart_width_float.
  pose proof (fdiv_pos_class m e mM eM) as P.
  apply (fmul_mono _ _ _ _ chart_width_float_bounded P P (key_le_refl _)).
Qed.

Lemma bar_float_pos_nonneg (m : positive) (e : Z) (mM : positive) (eM : Z) (l : Z) :
  bar_float (S754_finite false m e) (S754_finite false mM eM) = Ok l -> 0 <= l.
Proof. apply float_trunc_pos_class, bar_float_pos. Qed.

Lemma bar_float_pos_mono (m1 : positive) (e1 : Z) (m2 : positive) (e2 : Z)
    (mM : positive) (eM : Z) (l1 l2 : Z) :
  bounded prec emax m1 e1 = true -> bounded prec emax m2 e2 = true ->
  key_le (float_key (S754_finite false m1 e1)) (float_key (S754_finite false m2 e2)) ->
  bar_float (S754_finite false m1 e1) (S754_finite false mM eM) = Ok l1 ->
  bar_float (S754_finite false m2 e2) (S754_finite false mM eM) = Ok l2 ->
  l1 <= l2.
Proof.
  intros B1 B2 Hle H1 H2.
  destruct (pos_class_le _ _ (pos_class_finite _ _ B1) (pos_class_finite _ _ B2) Hle)
    as [E|[E|[E|(m1' & e1' & m2' & e2' & E1 & E2 & _ & _ & Hlt)]]]; try discriminate.
  - injection E as -> ->. assert (l1 = l2) by congruence. lia.
  - injection E1 as <- <-. injection E2 as <- <-.
    unfold bar_float in H1, H2. rewrite chart_width_float in H1, H2.
    pose proof (fdiv_pos_mono m1 e1 m2 e2 mM eM Hlt) as Hd.
    destruct (fmul_mono _ _ _ _ chart_width_float_bounded
                (fdiv_pos_class m1 e1 mM eM) (fdiv_pos_class m2 e2 mM eM) Hd)
      as (P1 & P2 & Hm).
    exact (float_trunc_mono _ _ _ _ P1 P2 Hm H1 H2).
Qed.

Lemma bar_float_neg (m : positive) (e : Z) (M : float) (l : Z) :
  bar_float (S754_finite true m e) M = Ok l ->
  bar_float (S754_finite false m e) M = Ok (- l).
Proof.
  change (S754_finite true m e) with (SFopp (S754_finite false m e)).
  rewrite bar_float_opp.
  destruct (bar_float (S754_finite false m e) M) as [z|err]; cbn [opp_result];
    [|discriminate].
  intros H. injection H as <-. f_equal. lia.
Qed.

(** The bar of a bigger total is not shorter, whatever the signs. *)
Lemma bar_float_mono (x y : float) (mM : positive) (eM : Z) (lx ly : Z) :
  valid_binary prec emax x = true -> valid_binary prec emax y = true ->
  key_le (float_key x) (float_key y) ->
  bar_float x (S754_finite false mM eM) = Ok lx ->
  bar_float y (S754_finite false mM eM) = Ok ly ->
  lx <= ly.
Proof.
  intros Vx Vy Hle Hx Hy.
  destruct x as [sx|sx| |sx mx ex]; try discriminate;
    destruct y as [sy|sy| |sy my ey]; try discriminate.
  - rewrite bar_float_zero in Hx, Hy. injection Hx as <-. injection Hy as <-. lia.
  - rewrite bar_float_zero in Hx. injection Hx as <-.
    destruct sy.
    + exfalso. apply Hle. cbn [float_key key_lt]. lia.
    + eapply bar_float_pos_nonneg; eauto.
  - rewrite bar_float_zero in Hy. injection Hy as <-.
    destruct sx.
    + apply bar_float_neg in Hx. apply bar_float_pos_nonneg in Hx. lia.
    + exfalso. apply Hle. cbn [float_key key_lt]. lia.
  - cbn [valid_binary] in Vx, Vy. destruct sx, sy.
    + apply bar_float_neg in Hx, Hy.
      assert (- ly <= - lx); [|lia].
      apply (bar_float_pos_mono my ey mx ex mM eM); auto.
      cbn [float_key] in *. unfold key_le, key_lt in *. lia.
    + apply bar_float_neg in Hx. apply bar_float_pos_nonneg in Hx, Hy. lia.
    + exfalso. apply Hle. cbn [float_key key_lt]. lia.
    + apply (bar_float_pos_mono mx ex my ey mM eM); auto.
Qed.

Lemma bar_float_inf (x : float) (l : Z) :
  bar_float x (S754_infinity false) = Ok l -> l = 0.
Proof.
  destruct x as [sx|sx| |sx mx ex]; unfold bar_float; cbn; try discriminate; congruence.
Qed.

(** *** Sums stay canonical *)

Lemma iter_xO (m d : positive) : Zpos (Pos.iter xO m d) = Zpos m * 2 ^ Zpos d.
Proof.
  induction d as [|d IH] using Pos.peano_ind.
  - simpl. lia.
  - rewrite Pos.iter_succ, Pos2Z.inj_succ, Z.pow_succ_r by lia.
    rewrite Pos2Z.inj_xO, IH. ring.
Qed.

Lemma binary_round_spec (s : bool) (p : positive) (e : Z) :
  exists mz ez,
    binary_round prec emax s p e = binary_round_aux prec emax s (Zpos mz) ez loc_Exact
    /\ inbetween (Zpos mz) loc_Exact (F2R (Zpos p) e * bpow (- ez))
    /\ ez <= fexp64 (Zdigits2 (Zpos mz) + ez).
Proof.
  unfold binary_round, shl_align.
  fold (fexp64 (Zpos (digits2_pos p) + e)).
  set (c := fexp64 (Zpos (digits2_pos p) + e)).
  assert (Hc : c = fexp64 (Zpos (digits2_pos p) + e)) by reflexivity.
  clearbody c.
  destruct (c - e) as [|d|d] eqn:Ed.
  - exists p, e. split; [reflexivity|]. split.
    + cbn [inbetween]. unfold F2R. rewrite Rmult_assoc, (Rmult_comm (bpow e)), bpow_cancel. ring.
    + cbn [Zdigits2]. lia.
  - exists p, e. split; [reflexivity|]. split.
    + cbn [inbetween]. unfold F2R. rewrite Rmult_assoc, (Rmult_comm (bpow e)), bpow_cancel. ring.
    + cbn [Zdigits2]. lia.
  - exists (Pos.iter xO p d), c. split; [reflexivity|].
    assert (He : e = c + Zpos d) by lia.
    split.
    + cbn [inbetween]. unfold F2R. rewrite iter_xO, mult_IZR, <- bpow_IZR by lia.
      rewrite Rmult_assoc, <- bpow_add. f_equal. f_equal. lia.
    + destruct (digits2_pos_spec p) as [D1 D2].
      set (dp := Zpos (digits2_pos p)) in *.
      assert (Hdp : 0 < dp) by (unfold dp; lia).
      rewrite (Zdigits2_bounds (Zpos (Pos.iter xO p d)) (dp + Zpos d)).
      * replace (dp + Zpos d + c) with (dp + e) by lia. lia.
      * lia.
      * rewrite iter_xO.
        replace (dp + Zpos d - 1) with (dp - 1 + Zpos d) by lia.
        rewrite !Z.pow_add_r by lia.
        assert (0 < 2 ^ Zpos d) by (apply Z.pow_pos_nonneg; lia).
        split; [apply Z.mul_le_mono_nonneg_r; lia|apply Z.mul_lt_mono_pos_r; lia].
Qed.

Lemma pos_class_valid (r : float) : pos_class r -> valid_float r.
Proof. intros [->|[->|(m & e & -> & B)]]; auto; reflexivity. Qed.

Lemma valid_float_opp (r : float) : valid_float r -> valid_float (SFopp r).
Proof. destruct r; auto. Qed.

Lemma binary_round_aux_valid (s : bool) (m e : Z) (l : location) (x : R) :
  0 <= m -> inbetween m l (x * bpow (- e)) -> e <= fexp64 (Zdigits2 m + e) ->
  valid_float (binary_round_aux prec emax s m e l).
Proof.
  intros Hm Hin He.
  pose proof (pos_class_valid _ (binary_round_aux_pos_class m e l x Hm Hin He)) as V.
  destruct s; [|exact V].
  change true with (negb false). rewrite binary_round_aux_opp.
  now apply valid_float_opp.
Qed.

Lemma binary_normalize_valid (z e : Z) : valid_float (binary_normalize prec emax z e false).
Proof.
  destruct z as [|p|p]; cbn [binary_normalize]; [reflexivity| |].
  - destruct (binary_round_spec false p e) as (mz & ez & E & Hin & He).
    rewrite E. eapply binary_round_aux_valid; eauto. lia.
  - destruct (binary_round_spec true p e) as (mz & ez & E & Hin & He).
    rewrite E. eapply binary_round_aux_valid; eauto. lia.
Qed.

Lemma fadd_valid (x y : float) : valid_float x -> valid_float y -> valid_float (fadd x y).
Proof.
  intros Vx Vy. unfold fadd.
  destruct x as [sx|sx| |sx mx ex], y as [sy|sy| |sy my ey]; cbn [SFadd];
    try assumption; try reflexivity;
    try (destruct sx, sy; assumption || reflexivity).
  apply binary_normalize_valid.
Qed.

Lemma fdiv_valid (x y : float) : valid_float (fdiv x y).
Proof.
  unfold fdiv.
  destruct x as [sx|sx| |sx mx ex], y as [sy|sy| |sy my ey]; cbn [SFdiv]; try reflexivity.
  destruct (SFdiv_core_binary_spec mx ex my ey) as (q & e' & l & E & Hq & Hin & He).
  rewrite E. eapply binary_round_aux_valid; eauto.
Qed.

Lemma float_of_Z_valid (z : Z) : valid_float (float_of_Z z).
Proof. apply binary_normalize_valid. Qed.

Lemma py_sum_total_ok (l : list num) : Forall valid_amount l -> total_ok (py_sum l).
Proof.
  unfold py_sum.
  assert (G : forall l acc, total_ok acc -> Forall valid_amount l ->
                          total_ok (fold_left num_add l acc)).
  { clear l. induction l as [|a l IH]; intros acc Hacc Hl; [exact Hacc|].
    inversion Hl as [|? ? (x & -> & Vx) Hl']; subst. cbn [fold_left].
    apply IH; [|exact Hl']. right.
    destruct Hacc as [->|(y & -> & Vy)].
    - exists (fadd (float_of_Z 0) x). split; [reflexivity|].
      apply fadd_valid; [apply float_of_Z_valid|exact Vx].
    - exists (fadd y x). split; [reflexivity|]. now apply fadd_valid. }
  intros H. apply G; [now left|exact H].
Qed.

Lemma month_total_ok (mc : dict (dict num)) (month : str) (t : num) :
  amounts_valid mc -> month_total mc month = Ok t -> total_ok t.
Proof.
  intros Hmc. unfold month_total, dict_lookup.
  destruct (dict_get month mc) as [services|] eqn:E; cbn [bind]; [|discriminate].
  intros H. injection H as <-.
  apply py_sum_total_ok. apply dict_get_In in E.
  unfold amounts_valid in Hmc. rewrite Forall_forall in Hmc.
  specialize (Hmc _ E). cbn [snd] in Hmc.
  unfold dict_values. rewrite Forall_forall in *.
  intros a Ha. apply in_map_iff in Ha. destruct Ha as (sv & <- & Hsv). now apply Hmc.
Qed.

Lemma py_max_In (l : list num) (M : num) : py_max l = Ok M -> In M l.
Proof.
  destruct l as [|x l]; [discriminate|]. cbn [py_max]. intros H. injection H as <-.
  assert (G : forall l x, In (fold_left (fun m y => if num_gtb y m then y else m) l x) (x :: l)).
  { clear. induction l as [|y l IH]; intros x; [now left|].
    cbn [fold_left]. destruct (num_gtb y x).
    - right. apply IH.
    - destruct (IH x) as [H|H]; [now left|right; now right]. }
  apply G.
Qed.

(** *** Floor and truncation *)

(** [float_floor] is the floor of the real value. *)
Lemma shift_floor (z e : Z) :
  (IZR (match e with Zneg p => Z.shiftr z (Zpos p) | _ => Z.shiftl z e end)
   <= F2R z e
   < IZR (match e with Zneg p => Z.shiftr z (Zpos p) | _ => Z.shiftl z e end) + 1)%R.
Proof.
  unfold F2R. destruct e as [|p|p].
  - rewrite Z.shiftl_0_r, bpow_0. lra.
  - rewrite Z.shiftl_mul_pow2 by lia. rewrite mult_IZR, <- bpow_IZR by lia. lra.
  - rewrite Z.shiftr_div_pow2 by lia.
    assert (P : 0 < 2 ^ Zpos p) by (apply Z.pow_pos_nonneg; lia).
    pose proof (Z.div_mod z (2 ^ Zpos p) ltac:(lia)) as Hd.
    pose proof (Z.mod_pos_bound z (2 ^ Zpos p) P) as Hr.
    set (q := z / 2 ^ Zpos p) in *. set (r := z mod 2 ^ Zpos p) in *.
    change (Zneg p) with (- Zpos p). split.
    + apply scale_le. rewrite bpow_IZR by lia. rewrite <- mult_IZR. apply IZR_le. lia.
    + apply scale_lt. rewrite bpow_IZR by lia.
      replace (IZR q + 1)%R with (IZR (q + 1)) by (rewrite plus_IZR; reflexivity).
      rewrite <- mult_IZR. apply IZR_lt. lia.
Qed.

Lemma float_floor_spec (x : float) (z : Z) :
  float_floor x = Ok z -> (IZR z <= B2R x < IZR z + 1)%R.
Proof.
  destruct x as [s|s| |s m e]; cbn [float_floor B2R]; try discriminate.
  - intros H. injection H as <-. simpl. lra.
  - intros H. injection H as <-.
    replace (cond_Zopp s (Zpos m)) with (if s then Zneg m else Zpos m)
      by (destruct s; reflexivity).
    apply shift_floor.
Qed.

(** On a float that is not negative, [int] and [floor] agree. *)
Lemma float_floor_trunc (p : float) :
  match p with S754_finite true _ _ => False | _ => True end ->
  float_floor p = float_trunc p.
Proof. destruct p as [s|s| |[|] m e]; intros H; try reflexivity. destruct H. Qed.

Lemma pos_class_floor (p : float) : pos_class p -> float_floor p = float_trunc p.
Proof.
  intros H. apply float_floor_trunc.
  destruct H as [->|[->|(m & e & -> & _)]]; exact I.
Qed.

Lemma bar_length_float (a M : num) :
  num_is_zero M = false ->
  bar_length a M = bar_float (to_float a) (to_float M).
Proof. intros H. unfold bar_length, num_div. rewrite H. reflexivity. Qed.

Lemma bar_length_floor_float (a M : num) :
  num_is_zero M = false ->
  bar_length_floor a M
  = float_floor (fmul (fdiv (to_float a) (to_float M)) (to_float (PyInt chart_width))).
Proof. intros H. unfold bar_length_floor, num_div. rewrite H. reflexivity. Qed.

(** *** The order of month totals *)

Lemma fltb_true_key (x y : float) :
  fltb x y = true -> key_lt (float_key x) (float_key y).
Proof.
  intros H.
  assert (Hx : is_nan x = false) by (destruct x; auto; discriminate).
  assert (Hy : is_nan y = false) by (destruct x, y; auto; discriminate).
  now apply (fltb_key x y Hx Hy).
Qed.

Lemma total_ok_valid (a : num) : total_ok a -> valid_float (to_float a).
Proof. intros [->|(x & -> & V)]; [reflexivity|exact V]. Qed.

Lemma num_ltb_key (a b : num) :
  total_ok a -> total_ok b ->
  num_ltb a b = true -> key_lt (num_key a) (num_key b).
Proof.
  intros [->|(x & -> & Vx)] [->|(y & -> & Vy)]; cbn [num_ltb]; try discriminate;
    apply fltb_true_key.
Qed.

Lemma num_ltb_false_key (a b : num) :
  total_ok a -> total_ok b ->
  is_nan (to_float a) = false -> is_nan (to_float b) = false ->
  num_ltb a b = false -> key_le (num_key b) (num_key a).
Proof.
  intros Ta Tb Na Nb H Hlt. unfold num_key in Hlt.
  apply (fltb_key _ _ Na Nb) in Hlt.
  destruct Ta as [->|(x & -> & Vx)], Tb as [->|(y & -> & Vy)]; cbn [num_ltb] in H;
    try congruence.
  discriminate.
Qed.

Lemma num_ltb_not_nan (a b : num) :
  total_ok b -> num_ltb a b = true -> is_nan (to_float b) = false.
Proof.
  intros [->|(y & -> & Vy)] H; [reflexivity|].
  cbn [to_float]. destruct a as [z|x]; cbn [num_ltb to_float] in H.
  - destruct (float_of_Z z), y; try reflexivity; discriminate.
  - destruct x, y; try reflexivity; discriminate.
Qed.

Lemma py_max_step_nan (l : list num) (m : num) :
  is_nan (to_float m) = true -> total_ok m ->
  fold_left (fun m y => if num_gtb y m then y else m) l m = m.
Proof.
  intros Hm Tm. induction l as [|y l IH]; [reflexivity|]. cbn [fold_left].
  replace (num_gtb y m) with false; [exact IH|].
  unfold num_gtb. destruct Tm as [->|(x & -> & Vx)]; [discriminate|].
  cbn [to_float] in Hm. destruct x; try discriminate. now destruct y.
Qed.

Lemma py_max_fold_ge (l : list num) : forall m,
  total_ok m -> Forall total_ok l -> is_nan (to_float m) = false ->
  let M := fold_left (fun m y => if num_gtb y m then y else m) l m in
  is_nan (to_float M) = false
  /\ key_le (num_key m) (num_key M)
  /\ forall A, In A l -> is_nan (to_float A) = false -> key_le (num_key A) (num_key M).
Proof.
  induction l as [|y l IH]; intros m Tm Tl Nm; cbn [fold_left].
  - split; [exact Nm|]. split; [apply key_le_refl|]. intros A [].
  - inversion Tl as [|? ? Ty Tl']; subst.
    destruct (num_gtb y m) eqn:G.
    + unfold num_gtb in G. pose proof (num_ltb_key m y Tm Ty G) as Hlt.
      pose proof (num_ltb_not_nan m y Ty G) as Ny.
      destruct (IH y Ty Tl' Ny) as (NM & Hy & Hall).
      split; [exact NM|]. split.
      * eapply key_le_trans; [|exact Hy].
        intros Hc. pose proof (key_lt_trans _ _ _ Hlt Hc) as Hcc.
        revert Hcc. generalize (num_key m). intros [[k1 k2] k3]. unfold key_lt. lia.
      * intros A [->|HA] NA; [exact Hy|now apply Hall].
    + destruct (IH m Tm Tl' Nm) as (NM & Hm & Hall).
      split; [exact NM|]. split; [exact Hm|].
      intros A [->|HA] NA; [|now apply Hall].
      eapply key_le_trans; [|exact Hm].
      unfold num_gtb in G. now apply num_ltb_false_key.
Qed.

Lemma py_max_ge (l : list num) (M A : num) :
  Forall total_ok l -> py_max l = Ok M -> is_nan (to_float M) = false ->
  In A l -> is_nan (to_float A) = false -> key_le (num_key A) (num_key M).
Proof.
  destruct l as [|x l]; [discriminate|]. cbn [py_max].
  intros Tl H NM HA NA. injection H as H.
  inversion Tl as [|? ? Tx Tl']; subst.
  destruct (is_nan (to_float x)) eqn:Nx.
  - rewrite (py_max_step_nan l x Nx Tx) in NM. congruence.
  - destruct (py_max_fold_ge l x Tx Tl' Nx) as (_ & Hx & Hall).
    destruct HA as [->|HA]; [exact Hx|now apply Hall].
Qed.

(** *** The range of the bar *)

(** [x / x] is exactly [1.0]. *)
Lemma fdiv_self (m : positive) (e : Z) :
  fdiv (S754_finite false m e) (S754_finite false m e) = float_one.
Proof.
  destruct (fdiv_finite false m e m e) as (q & e' & l & E & Hq & Hin & He).
  rewrite E.
  destruct (binary_round_aux_spec q e' l _ Hq Hin He) as (n & c & Cx & N0 & Nx & Ex).
  rewrite Ex.
  pose proof (F2R_pos m e) as Hpos.
  replace (F2R (Zpos m) e / F2R (Zpos m) e)%R with 1%R in * by (field; lra).
  destruct Cx as (Hc & Hhi & Hlo).
  rewrite <- bpow_0 in Hhi. apply bpow_lt_inv in Hhi.
  destruct Hlo as [Hlo|Hlo]; [lia|].
  rewrite <- bpow_0 in Hlo. apply bpow_le_inv in Hlo.
  assert (c = -52) by lia. subst c.
  unfold near in Nx. rewrite Rmult_1_l in Nx.
  change (- -52) with 52 in Nx. rewrite bpow_IZR in Nx by lia.
  assert (IZR n < IZR (2 ^ 52 + 1))%R by (rewrite plus_IZR; lra).
  assert (IZR (2 ^ 52 - 1) < IZR n)%R by (rewrite minus_IZR; lra).
  apply lt_IZR in H, H0.
  assert (n = 2 ^ 52) by lia. subst n. reflexivity.
Qed.

Lemma float_one_bounded : bounded prec emax 4503599627370496 (-52) = true.
Proof. reflexivity. Qed.

(** A total between zero and the maximum gives a bar of 0 to 20 blocks. *)
Lemma bar_float_range (m : positive) (e : Z) (mM : positive) (eM : Z) :
  bounded prec emax m e = true -> bounded prec emax mM eM = true ->
  key_le (float_key (S754_finite false m e)) (float_key (S754_finite false mM eM)) ->
  exists l, bar_float (S754_finite false m e) (S754_finite false mM eM) = Ok l
            /\ 0 <= l <= 20.
Proof.
  intros B BM Hle.
  pose proof (fdiv_pos_class m e mM eM) as Pr.
  assert (Hr : key_le (float_key (fdiv (S754_finite false m e) (S754_finite false mM eM)))
                      (float_key float_one)).
  { destruct (pos_class_le _ _ (pos_class_finite _ _ B) (pos_class_finite _ _ BM) Hle)
      as [E|[E|[E|(m1 & e1 & m2 & e2 & E1 & E2 & _ & _ & Hlt)]]]; try discriminate.
    - injection E as -> ->. rewrite fdiv_self. apply key_le_refl.
    - injection E1 as <- <-. injection E2 as <- <-.
      rewrite <- (fdiv_self mM eM). now apply fdiv_pos_mono. }
  destruct (fmul_mono _ _ _ _ chart_width_float_bounded Pr (pos_class_finite _ _ float_one_bounded) Hr)
    as (Pp & P20 & Hp).
  change (fmul (S754_finite false 4503599627370496 (-52))
               (S754_finite false 5629499534213120 (-48)))
    with (S754_finite false 5629499534213120 (-48)) in *.
  unfold bar_float. rewrite chart_width_float.
  set (p := fmul (fdiv (S754_finite false m e) (S754_finite false mM eM))
                 (S754_finite false 5629499534213120 (-48))) in *.
  assert (T20 : float_trunc (S754_finite false 5629499534213120 (-48)) = Ok 20)
    by reflexivity.
  destruct Pp as [Ep|[Ep|(mp & ep & Ep & Bp)]].
  - rewrite Ep. exists 0. split; [reflexivity|lia].
  - exfalso. rewrite Ep in Hp. apply Hp. cbn [float_key key_lt]. lia.
  - destruct (float_trunc_bounds mp ep) as (a & Ea & Ha & _).
    exists a. rewrite Ep. split; [exact Ea|]. split; [exact Ha|].
    apply (float_trunc_mono _ _ a 20 (pos_class_finite _ _ Bp) P20); auto.
    now rewrite <- Ep.
Qed.

(** *** The maximum of the totals *)

Lemma positive_max (M : num) :
  total_ok M -> num_gtb M (PyInt 0) = true ->
  exists x, M = PyFloat x /\ num_is_zero M = false
            /\ (x = S754_infinity false
                \/ exists mM eM, x = S754_finite false mM eM
                                 /\ bounded prec emax mM eM = true).
Proof.
  intros [->|(x & -> & V)] H; [discriminate|].
  exists x. split; [reflexivity|].
  unfold num_gtb in H. cbn [num_ltb to_float] in H.
  destruct x as [s|s| |s mM eM]; try discriminate.
  - destruct s; [discriminate|]. split; [reflexivity|now left].
  - destruct s; [discriminate|]. split; [reflexivity|right].
    exists mM, eM. split; [reflexivity|exact V].
Qed.

Lemma totals_ok (monthly_costs : dict (dict num)) (months : list str) (totals : list num) :
  amounts_valid monthly_costs ->
  mapM (month_total monthly_costs) months = Ok totals ->
  Forall total_ok totals.
Proof.
  intros Hv H. apply Forall_forall. intros t Ht.
  destruct (mapM_Ok_In _ _ _ _ H Ht) as (month & _ & Hm).
  exact (month_total_ok _ _ _ Hv Hm).
Qed.

(** *** The three cases of the bar *)

Lemma bar_float_floor_pos (m : positive) (e : Z) (M : float) :
  positive_float M ->
  float_floor (fmul (fdiv (S754_finite false m e) M) (to_float (PyInt chart_width)))
  = bar_float (S754_finite false m e) M.
Proof.
  intros [->|(mM & eM & -> & BM)]; [reflexivity|].
  apply pos_class_floor, bar_float_pos.
Qed.

Lemma bar_float_zero_any (s : bool) (M : float) :
  positive_float M ->
  bar_float (S754_zero s) M = Ok 0
  /\ float_floor (fmul (fdiv (S754_zero s) M) (to_float (PyInt chart_width))) = Ok 0.
Proof. intros [->|(mM & eM & -> & BM)]; split; reflexivity. Qed.

(** A finite total that is not negative. *)
Lemma bar_nonneg (A M : float) :
  valid_float A -> positive_float M ->
  fleb (S754_zero false) A = true -> fltb A (S754_infinity false) = true ->
  key_le (float_key A) (float_key M) ->
  exists l, bar_float A M = Ok l
            /\ float_floor (fmul (fdiv A M) (to_float (PyInt chart_width))) = Ok l
            /\ 0 <= l <= 20.
Proof.
  intros VA PM H0 Hinf Hle.
  destruct A as [s|s| |s m e]; try discriminate.
  - exists 0. destruct (bar_float_zero_any s M PM) as [E1 E2]. repeat split; auto; lia.
  - destruct s; discriminate.
  - destruct s; [discriminate|].
    rewrite (bar_float_floor_pos m e M PM).
    destruct PM as [->|(mM & eM & -> & BM)].
    + exists 0. repeat split; lia.
    + destruct (bar_float_range m e mM eM VA BM Hle) as (l & El & Hl).
      exists l. auto.
Qed.

(** A negative total. *)
Lemma bar_negative (A M : float) (l : Z) :
  positive_float M ->
  fltb A (S754_zero false) = true ->
  bar_float A M = Ok l ->
  l <= 0
  /\ float_floor (fmul (fdiv (SFopp A) M) (to_float (PyInt chart_width))) = Ok (- l).
Proof.
  intros PM Hneg Hl.
  destruct A as [s|s| |s m e]; try discriminate.
  - exfalso. destruct s; [|discriminate].
    destruct PM as [->|(mM & eM & -> & BM)]; discriminate.
  - destruct s; [|discriminate].
    apply bar_float_neg in Hl. cbn [SFopp negb].
    rewrite (bar_float_floor_pos m e M PM). split; [|exact Hl].
    destruct PM as [->|(mM & eM & -> & BM)].
    + apply bar_float_inf in Hl. lia.
    + apply bar_float_pos_nonneg in Hl. lia.
Qed.

(** Two totals in order. *)
Lemma bar_mono (A B M : float) (lA lB : Z) :
  valid_float A -> valid_float B -> positive_float M ->
  key_le (float_key A) (float_key B) ->
  bar_float A M = Ok lA -> bar_float B M = Ok lB -> lA <= lB.
Proof.
  intros VA VB [->|(mM & eM & -> & BM)] Hle HA HB.
  - apply bar_float_inf in HA, HB. lia.
  - exact (bar_float_mono A B mM eM lA lB VA VB Hle HA HB).
Qed.

(** C6.  For a table of valid amounts whose greatest month total is
    positive, and a month A of the chart:
    - if the total of A is finite and not negative, as the totals of billing
      costs are, its bar is rendered, its length is
      [floor((total / max) * 20)] computed in binary64, and it lies between
      0 and 20;
    - if the total of A is negative (a month of refunds) and its bar is
      rendered, the length is the truncation toward zero,
      [- floor((- total / max) * 20)], which is not positive;
    - for every month B with [total A < total B], if both bars are rendered
      then [bar A <= bar B]. *)
Theorem bar_length_truncates_and_is_monotone
    (monthly_costs : dict (dict num)) (total_costs : list num) (max_cost : num)
    (monthA : str) (totalA : num) :
  amounts_valid monthly_costs ->
  mapM (month_total monthly_costs) (sorted_str (dict_keys monthly_costs)) = Ok total_costs ->
  py_max total_costs = Ok max_cost ->
  num_gtb max_cost (PyInt 0) = true ->
  In (monthA, totalA) (combine (sorted_str (dict_keys monthly_costs)) total_costs) ->
  (num_leb (PyInt 0) totalA = true -> num_ltb totalA (PyFloat float_inf) = true ->
   exists l, bar_length totalA max_cost = Ok l
             /\ bar_length_floor totalA max_cost = Ok l
             /\ 0 <= l <= chart_width)
  /\ (num_ltb totalA (PyInt 0) = true ->
      forall l, bar_length totalA max_cost = Ok l ->
                l <= 0 /\ bar_length_floor (py_neg totalA) max_cost = Ok (- l))
  /\ (forall monthB totalB lA lB,
        In (monthB, totalB) (combine (sorted_str (dict_keys monthly_costs)) total_costs) ->
        num_ltb totalA totalB = true ->
        bar_length totalA max_cost = Ok lA -> bar_length totalB max_cost = Ok lB ->
        lA <= lB).
Proof.
  intros Hv Htot Hmax Hpos HA.
  pose proof (totals_ok _ _ _ Hv Htot) as Tall.
  pose proof (py_max_In _ _ Hmax) as HM.
  rewrite Forall_forall in Tall.
  pose proof (Tall _ HM) as TM.
  apply in_combine_r in HA. pose proof (Tall _ HA) as TA.
  destruct (positive_max max_cost TM Hpos) as (M & -> & Hnz & PM).
  fold (positive_float M) in PM.
  assert (NM : is_nan (to_float (PyFloat M)) = false).
  { destruct PM as [->|(mM & eM & -> & _)]; reflexivity. }
  split; [|split].
  - intros H0 Hfin.
    rewrite bar_length_float, bar_length_floor_float by exact Hnz.
    apply bar_nonneg.
    + now apply total_ok_valid.
    + exact PM.
    + destruct TA as [->|(x & -> & Vx)]; [reflexivity|exact H0].
    + destruct TA as [->|(x & -> & Vx)]; [reflexivity|exact Hfin].
    + assert (NA : is_nan (to_float totalA) = false).
      { destruct TA as [->|(x & -> & Vx)]; [reflexivity|].
        cbn [to_float]. destruct x; try reflexivity; discriminate. }
      refine (py_max_ge total_costs (PyFloat M) totalA _ Hmax NM HA NA).
      now apply Forall_forall.
  - intros Hneg l Hl.
    destruct TA as [->|(x & -> & Vx)]; [discriminate|].
    rewrite bar_length_float in Hl by exact Hnz.
    cbn [py_neg]. rewrite bar_length_floor_float by exact Hnz.
    apply (bar_negative x M l PM); [exact Hneg|exact Hl].
  - intros monthB totalB lA lB HB Hlt HlA HlB.
    apply in_combine_r in HB. pose proof (Tall _ HB) as TB.
    rewrite bar_length_float in HlA, HlB by exact Hnz.
    apply (bar_mono (to_float totalA) (to_float totalB) M lA lB); auto.
    + now apply total_ok_valid.
    + now apply total_ok_valid.
    + pose proof (num_ltb_key totalA totalB TA TB Hlt) as Hk.
      unfold num_key in Hk. intros Hc.
      pose proof (key_lt_trans _ _ _ Hk Hc) as Hcc.
      revert Hcc. generalize (float_key (to_float totalA)).
      intros [[k1 k2] k3]. unfold key_lt. lia.
Qed.

(** *** Every amount that the reshape step stores is a valid float *)

Lemma float_of_decimal_valid (neg : bool) (m t : Z) : valid_float (float_of_decimal neg m t).
Proof.
  unfold float_of_decimal. destruct m as [|p|p]; try reflexivity.
  destruct t as [|k|k]; try apply float_of_Z_valid. apply fdiv_valid.
Qed.

Lemma float_of_str_valid (s : str) (x : float) : float_of_str s = Ok x -> valid_float x.
Proof.
  unfold float_of_str.
  match goal with |- context [let '(_, _) := ?t in _] => destruct t as [neg s1] end.
  destruct (str_eqb (map lower s1) (lit "inf") || str_eqb (map lower s1) (lit "infinity")).
  - intros H. injection H as <-. reflexivity.
  - destruct (str_eqb (map lower s1) (lit "nan")).
    + intros H. injection H as <-. reflexivity.
    + destruct (scan_number s1) as [[[m frac] s2]|]; [|discriminate].
      destruct (scan_exponent s2) as [[e [|c r]]|]; try discriminate.
      intros H. injection H as <-. apply float_of_decimal_valid.
Qed.

Lemma group_entry_valid (item : group) (kv : str * num) :
  group_entry item = Ok kv -> valid_amount (snd kv).
Proof.
  unfold group_entry. destruct (Keys item); simpl; [easy|].
  destruct (float_of_str (Amount item)) as [x|] eqn:E; simpl; [|easy].
  intros [= <-]. exists x. split; [reflexivity|]. exact (float_of_str_valid _ _ E).
Qed.

Lemma month_services_valid (groups : list group) (d : dict num) :
  month_services groups = Ok d -> Forall (fun sv => valid_amount (snd sv)) d.
Proof.
  unfold month_services.
  destruct (mapM group_entry groups) as [entries|] eqn:E; simpl; [|easy].
  intros [= <-]. apply Forall_forall; intros [k v] Hin.
  apply dict_of_pairs_In in Hin.
  destruct (mapM_Ok_In _ _ _ _ E Hin) as (item & _ & Hitem).
  apply (group_entry_valid _ _ Hitem).
Qed.

Lemma build_monthly_costs_valid (cost_data : list result_by_time) (mc0 mc : dict (dict num)) :
  build_monthly_costs cost_data mc0 = Ok mc -> amounts_valid mc0 -> amounts_valid mc.
Proof.
  revert mc0; induction cost_data as [|month_data rest IH]; simpl; intros mc0.
  - now intros [= <-].
  - destruct (strptime_Ymd (Start month_data)) as [d|]; simpl; [|easy].
    destruct (month_services (Groups month_data)) as [services|] eqn:Es; simpl; [|easy].
    intros H Hall. apply (IH _ H).
    apply Forall_forall; intros [k v] Hin.
    destruct (dict_set_In _ _ _ _ _ Hin) as [[_ ->]|Hin'].
    + eapply month_services_valid, Es.
    + unfold amounts_valid in Hall. rewrite Forall_forall in Hall; apply (Hall _ Hin').
Qed.

(** The analyzer's table always qualifies. *)
Lemma analyzer_table_valid (cost_data : list result_by_time) (mc : dict (dict num)) :
  build_monthly_costs cost_data [] = Ok mc -> amounts_valid mc.
Proof. intros H. apply (build_monthly_costs_valid _ _ _ H). constructor. Qed.

(** A month of refunds: a total of -1.00 against a maximum of 100.00 gets
    the bar [int(-0.2) = 0], where [floor(-0.2) = -1].  The second case of
    the theorem is met, and the chart is rendered: its only blocks are the
    20 of the other month. *)
Lemma negative_total_bar_is_not_floor :
  build_monthly_costs refund_cost_data [] = Ok (table_of refund_cost_data)
  /\ mapM (month_total (table_of refund_cost_data))
          (sorted_str (dict_keys (table_of refund_cost_data)))
     = Ok [refund_total; spend_total]
  /\ py_max [refund_total; spend_total] = Ok spend_total
  /\ num_gtb spend_total (PyInt 0) = true
  /\ bar_length refund_total spend_total = Ok 0
  /\ bar_length_floor refund_total spend_total = Ok (-1)
  /\ bar_length refund_total spend_total <> bar_length_floor refund_total spend_total
  /\ exists chart,
       create_ascii_chart (table_of refund_cost_data) = Ok chart
       /\ count_occ N.eq_dec chart FULL_BLOCK = 20%nat.
Proof.
  repeat split; try (vm_compute; reflexivity).
  - vm_compute. discriminate.
  - eexists. split; vm_compute; reflexivity.
Qed.

(** ** Dates: the query period and the month keys *)

(** The Gregorian calendar repeats every 400 years, that is every 146097
    days. *)
Lemma days_from_civil_shift (y m d k : Z) :
  days_from_civil (mk_date (y + 400 * k) m d)
  = days_from_civil (mk_date y m d) + 146097 * k.
Proof.
  unfold days_from_civil; cbn [year month day].
  destruct (m <=? 2); div_lia.
Qed.

Lemma civil_from_days_shift (z k : Z) :
  civil_from_days (z + 146097 * k)
  = mk_date (year (civil_from_days z) + 400 * k)
            (month (civil_from_days z)) (day (civil_from_days z)).
Proof.
  unfold civil_from_days.
  replace (z + 146097 * k + 719468) with (z + 719468 + k * 146097) by lia.
  rewrite Z.div_add by lia.
  set (z0 := z + 719468).
  replace (z0 + k * 146097 - (z0 / 146097 + k) * 146097)
    with (z0 - z0 / 146097 * 146097) by lia.
  cbv zeta. cbn [year month day].
  match goal with |- context [if ?b then _ else _] => destruct b end; f_equal; lia.
Qed.

Lemma six_months_back_era :
  forallb (fun y => forallb (fun m => six_months_back_ok (400 + Z.of_nat y) (1 + Z.of_nat m))
                            (seq 0 12))
          (seq 0 400) = true.
Proof. vm_compute. reflexivity. Qed.

Lemma six_months_back_ok_spec (y m : Z) :
  six_months_back_ok y m = true ->
  year (civil_from_days (days_from_civil (mk_date y m 1) - 180))
  = (if m <=? 6 then y - 1 else y)
  /\ month (civil_from_days (days_from_civil (mk_date y m 1) - 180))
     = (if m <=? 6 then m + 6 else m - 6)
  /\ 2 <= day (civil_from_days (days_from_civil (mk_date y m 1) - 180)) <= 5
  /\ days_from_civil (civil_from_days (days_from_civil (mk_date y m 1) - 180))
     = days_from_civil (mk_date y m 1) - 180.
Proof.
  unfold six_months_back_ok.
  rewrite !andb_true_iff, !Z.eqb_eq, !Z.leb_le. tauto.
Qed.

Lemma six_months_back_first_era (y m : Z) :
  400 <= y < 800 -> 1 <= m <= 12 -> six_months_back_ok y m = true.
Proof.
  intros Hy Hm. pose proof six_months_back_era as H.
  rewrite forallb_forall in H.
  assert (Iy : In (Z.to_nat (y - 400)) (seq 0 400)) by (apply in_seq; lia).
  specialize (H _ Iy). rewrite forallb_forall in H.
  assert (Im : In (Z.to_nat (m - 1)) (seq 0 12)) by (apply in_seq; lia).
  specialize (H _ Im).
  replace (400 + Z.of_nat (Z.to_nat (y - 400))) with y in H by lia.
  replace (1 + Z.of_nat (Z.to_nat (m - 1))) with m in H by lia.
  exact H.
Qed.

Lemma date_eta (d : date) : mk_date (year d) (month d) (day d) = d.
Proof. now destruct d. Qed.

Lemma six_months_back (y m : Z) :
  1 <= m <= 12 ->
  year (civil_from_days (days_from_civil (mk_date y m 1) - 180))
  = (if m <=? 6 then y - 1 else y)
  /\ month (civil_from_days (days_from_civil (mk_date y m 1) - 180))
     = (if m <=? 6 then m + 6 else m - 6)
  /\ 2 <= day (civil_from_days (days_from_civil (mk_date y m 1) - 180)) <= 5
  /\ days_from_civil (civil_from_days (days_from_civil (mk_date y m 1) - 180))
     = days_from_civil (mk_date y m 1) - 180.
Proof.
  intros Hm.
  assert (Hy : exists y0 k, y = y0 + 400 * k /\ 400 <= y0 < 800).
  { exists (400 + y mod 400), (y / 400 - 1). div_lia. }
  destruct Hy as (y0 & k & -> & Hy0).
  destruct (six_months_back_ok_spec y0 m (six_months_back_first_era y0 m Hy0 Hm))
    as (Y & Mo & D & E).
  rewrite days_from_civil_shift.
  replace (days_from_civil (mk_date y0 m 1) + 146097 * k - 180)
    with (days_from_civil (mk_date y0 m 1) - 180 + 146097 * k) by lia.
  rewrite civil_from_days_shift.
  generalize dependent (civil_from_days (days_from_civil (mk_date y0 m 1) - 180)).
  intros r0 Y Mo D E.
  rewrite days_from_civil_shift, date_eta.
  change (year (mk_date (year r0 + 400 * k) (month r0) (day r0))) with (year r0 + 400 * k).
  change (month (mk_date (year r0 + 400 * k) (month r0) (day r0))) with (month r0).
  change (day (mk_date (year r0 + 400 * k) (month r0) (day r0))) with (day r0).
  destruct (m <=? 6); repeat split; lia.
Qed.

Lemma days_in_month_ge_28 (y m : Z) : 28 <= days_in_month y m.
Proof.
  unfold days_in_month.
  destruct (m =? 2); [destruct (is_leap y); lia|].
  destruct ((m =? 4) || (m =? 6) || (m =? 9) || (m =? 11)); lia.
Qed.

(** X1.  Whatever the day and time of the clock, in any month of the years
    1001 to 9999 (so that both years are written with four digits),
    [get_date_range] returns; the end date is the first day of
    the clock's month, the start date is a valid date exactly 180 days
    earlier, and it is the 2nd, 3rd, 4th or 5th day of the month six
    months before the clock's: the period never starts on a month
    boundary. *)
Theorem date_range_starts_inside_sixth_month_back (w : World) :
  1001 <= year (now w) <= 9999 -> 1 <= month (now w) <= 12 ->
  exists start_date,
    get_date_range w
    = Ok (strftime_Ymd start_date,
          strftime_Ymd (mk_date (year (now w)) (month (now w)) 1))
    /\ valid_date start_date = true
    /\ days_from_civil (mk_date (year (now w)) (month (now w)) 1)
       - days_from_civil start_date = 180
    /\ year start_date = (if month (now w) <=? 6 then year (now w) - 1 else year (now w))
    /\ month start_date = (if month (now w) <=? 6 then month (now w) + 6 else month (now w) - 6)
    /\ 2 <= day start_date <= 5.
Proof.
  intros Hy Hm.
  destruct (six_months_back (year (now w)) (month (now w)) Hm) as (Y & Mo & D & E).
  remember (civil_from_days
              (days_from_civil (mk_date (year (now w)) (month (now w)) 1) - 180)) as r eqn:Er.
  assert (V : valid_date r = true).
  { unfold valid_date. pose proof (days_in_month_ge_28 (year r) (month r)).
    rewrite !andb_true_iff, !Z.leb_le.
    destruct (Z.leb_spec (month (now w)) 6); repeat split; lia. }
  exists r. split.
  - unfold get_date_range, date_minus_days. rewrite <- Er, V. reflexivity.
  - repeat split; try assumption; lia.
Qed.

Lemma year_digits_all :
  forallb (fun y => year_digits_ok (1 + Z.of_nat y)) (seq 0 (Z.to_nat 9999)) = true.
Proof. vm_compute. reflexivity. Qed.

Lemma month_day_digits_all :
  forallb (fun m => forallb (fun d => month_day_digits_ok (1 + Z.of_nat m) (1 + Z.of_nat d))
                            (seq 0 31))
          (seq 0 12) = true.
Proof. vm_compute. reflexivity. Qed.

Lemma year_digits (y : Z) :
  1 <= y <= 9999 ->
  exists a b c e,
    zero_pad 4 (Z.to_N y) = [a; b; c; e]
    /\ is_digit a = true /\ is_digit b = true /\ is_digit c = true /\ is_digit e = true
    /\ ((digit_val a * 10 + digit_val b) * 10 + digit_val c) * 10 + digit_val e = y.
Proof.
  intros Hy. pose proof year_digits_all as H.
  rewrite forallb_forall in H.
  assert (Iy : In (Z.to_nat (y - 1)) (seq 0 (Z.to_nat 9999))) by (apply in_seq; lia).
  specialize (H _ Iy).
  replace (1 + Z.of_nat (Z.to_nat (y - 1))) with y in H by lia.
  unfold year_digits_ok in H.
  destruct (zero_pad 4 (Z.to_N y)) as [|a [|b [|c [|e [|f l]]]]]; try discriminate.
  exists a, b, c, e.
  rewrite !andb_true_iff, Z.eqb_eq in H. intuition.
Qed.

Lemma month_day_digits (m d : Z) :
  1 <= m <= 12 -> 1 <= d <= 31 ->
  length (zero_pad 2 (Z.to_N m)) = 2%nat
  /\ exists s2,
       scan_month (zero_pad 2 (Z.to_N m) ++ 45%N :: zero_pad 2 (Z.to_N d)) = Some (m, s2)
       /\ scan_day s2 = Some (d, []).
Proof.
  intros Hm Hd. pose proof month_day_digits_all as H.
  rewrite forallb_forall in H.
  assert (Im : In (Z.to_nat (m - 1)) (seq 0 12)) by (apply in_seq; lia).
  specialize (H _ Im). rewrite forallb_forall in H.
  assert (Id : In (Z.to_nat (d - 1)) (seq 0 31)) by (apply in_seq; lia).
  specialize (H _ Id).
  replace (1 + Z.of_nat (Z.to_nat (m - 1))) with m in H by lia.
  replace (1 + Z.of_nat (Z.to_nat (d - 1))) with d in H by lia.
  unfold month_day_digits_ok in H.
  apply andb_prop in H. destruct H as [L H]. apply Nat.eqb_eq in L.
  split; [exact L|].
  destruct (scan_month _) as [[m' s2]|]; [|discriminate].
  apply andb_prop in H. destruct H as [M H]. apply Z.eqb_eq in M. subst m'.
  exists s2. split; [reflexivity|].
  destruct (scan_day s2) as [[d' [|c r]]|]; try discriminate.
  apply Z.eqb_eq in H. now subst d'.
Qed.

Lemma days_in_month_le_31 (y m : Z) : days_in_month y m <= 31.
Proof.
  unfold days_in_month.
  destruct (m =? 2); [destruct (is_leap y); lia|].
  destruct ((m =? 4) || (m =? 6) || (m =? 9) || (m =? 11)); lia.
Qed.

Lemma valid_date_spec (d : date) :
  valid_date d = true ->
  1 <= year d <= 9999 /\ 1 <= month d <= 12
  /\ 1 <= day d <= days_in_month (year d) (month d).
Proof. unfold valid_date. rewrite !andb_true_iff, !Z.leb_le. lia. Qed.

(** X2.  A period start in ISO form - the text [strftime("%Y-%m-%d")]
    writes for a calendar day of the years 1000 to 9999 - is parsed back by
    [strptime] to that very day, and the month key that the analyzer
    derives from it ([strftime("%Y-%m")] of the parsed day) is the first
    seven characters of the text. *)
Theorem iso_start_round_trip (d : date) :
  valid_date d = true -> 1000 <= year d ->
  strptime_Ymd (strftime_Ymd d) = Ok d
  /\ (parsed <- strptime_Ymd (strftime_Ymd d) ;; Ok (strftime_Ym parsed))
     = Ok (firstn 7 (strftime_Ymd d)).
Proof.
  intros V _. destruct (valid_date_spec d V) as (Hy & Hm & Hd).
  pose proof (days_in_month_le_31 (year d) (month d)) as H31.
  destruct (year_digits (year d) Hy) as (a & b & c & e & Ey & Da & Db & Dc & De & Val).
  destruct (month_day_digits (month d) (day d) Hm ltac:(lia)) as (Lm & s2 & Em & Ed).
  assert (E : strptime_Ymd (strftime_Ymd d) = Ok d).
  { unfold strftime_Ymd. rewrite Ey.
    change ([a; b; c; e] ++ lit "-" ++ zero_pad 2 (Z.to_N (month d)) ++ lit "-"
              ++ zero_pad 2 (Z.to_N (day d)))%list
      with (a :: b :: c :: e :: 45%N
              :: (zero_pad 2 (Z.to_N (month d)) ++ 45%N :: zero_pad 2 (Z.to_N (day d))))%list.
    unfold strptime_Ymd. rewrite Da, Db, Dc, De. cbn [andb].
    rewrite Em, Ed, Val.
    replace (year d =? 0) with false by (symmetry; apply Z.eqb_neq; lia).
    replace (day d <=? days_in_month (year d) (month d)) with true
      by (symmetry; apply Z.leb_le; lia).
    now destruct d. }
  split; [exact E|].
  rewrite E. cbn [bind]. f_equal.
  unfold strftime_Ym, strftime_Ymd. rewrite Ey.
  destruct (zero_pad 2 (Z.to_N (month d))) as [|m1 [|m2 [|m3 l]]]; try discriminate.
  reflexivity.
Qed.

(** ** The analyzer: edge cases and the table *)

(** X3.  The table that the reshape loop builds has one entry per month
    key of the data, and the entry of a month holds the services of the
    last result filed under that key: a result for a month that comes
    again later in the data is overwritten. *)
Theorem table_holds_last_result_per_month
    (cost_data : list result_by_time) (mc : dict (dict num)) :
  build_monthly_costs cost_data [] = Ok mc ->
  NoDup (dict_keys mc)
  /\ (forall key, In key (dict_keys mc)
                  <-> exists md, In md cost_data /\ month_key md = Ok key)
  /\ (forall pre md post key services,
        cost_data = (pre ++ md :: post)%list ->
        month_key md = Ok key ->
        month_services (Groups md) = Ok services ->
        (forall md', In md' post -> month_key md' <> Ok key) ->
        dict_get key mc = Some services).
Proof.
  intros H. split; [|split].
  - apply (build_monthly_costs_ok _ _ _ H table_ok_nil).
  - intros key. rewrite (build_monthly_costs_keys _ _ _ key H). simpl. tauto.
  - intros pre md post key services -> Hk Hs Hlater.
    destruct (build_monthly_costs_app _ _ _ _ H) as (mc1 & _ & H2).
    destruct (build_monthly_costs_cons _ _ _ _ H2) as (k & s & Hk' & Hs' & Hr).
    assert (k = key) by congruence. assert (s = services) by congruence. subst k s.
    rewrite (build_monthly_costs_get_other _ _ _ key Hr Hlater).
    apply dict_get_set_same.
Qed.

(** ** The analyzer: a single month *)

Lemma sorted_str_length (l : list str) : length (sorted_str l) = length l.
Proof. apply sorted_by_length. Qed.

Lemma compare_months_single (mc : dict (dict num)) :
  length mc = 1%nat ->
  compare_months mc = raise IndexError "list index out of range".
Proof.
  intros H. unfold compare_months.
  assert (L : length (sorted_str (dict_keys mc)) = 1%nat).
  { rewrite sorted_str_length. unfold dict_keys. now rewrite length_map. }
  destruct (sorted_str (dict_keys mc)) as [|k [|k' l]]; try discriminate.
  reflexivity.
Qed.

(** X4.  When the billing data reshapes to a table with a single month,
    the analyzer raises [IndexError] at [months[-2]]; the entry point
    answers with status 500 and the body
    [json.dumps("Unexpected error: list index out of range")], and the run
    builds no report and makes no HTTP request. *)
Theorem single_month_is_index_error {E C} (event : E) (context : C) (w : World)
    (start_date end_date : str) (data : list result_by_time) (mc : dict (dict num)) :
  get_date_range w = Ok (start_date, end_date) ->
  get_cost_and_usage w start_date end_date = Ok data ->
  build_monthly_costs data [] = Ok mc ->
  length mc = 1%nat ->
  process_cost_data data = raise IndexError "list index out of range"
  /\ (let '(r, t) := lambda_handler event context w in
      r = unexpected_error_response (mk_exn IndexError (lit "list index out of range"))
      /\ statusCode r = 500
      /\ not_invoked Create_report t
      /\ not_invoked Send_to_slack t
      /\ no_http t).
Proof.
  intros Hd Hq Hb Hlen.
  assert (Hp : process_cost_data data = raise IndexError "list index out of range").
  { unfold process_cost_data. rewrite Hb. cbn [bind]. now apply compare_months_single. }
  split; [exact Hp|].
  assert (Hne : data <> []).
  { intros ->. injection Hb as <-. discriminate. }
  unfold lambda_handler, handler_body, analyze_costs, get_cost_data.
  rewrite Hd; cbn [lift bindM tell fst snd app].
  rewrite Hq; cbn [lift bindM tell try_except ret fst snd app].
  destruct data as [|md rest]; [contradiction|].
  rewrite Hp. unfold raise. cbn [lift bindM tell try_except ret fst snd app].
  repeat split; try reflexivity;
    unfold not_invoked; simpl; intuition discriminate.
Qed.

(** ** The analyzer: what the comparison holds *)

Lemma StronglySorted_app_inv {A} (R : A -> A -> Prop) (l1 l2 : list A) :
  StronglySorted R (l1 ++ l2) -> forall x y, In x l1 -> In y l2 -> R x y.
Proof.
  induction l1 as [|a l1 IH]; simpl; intros H x y Hx Hy; [contradiction|].
  inversion H as [|? ? Hs Hall]; subst.
  destruct Hx as [->|Hx]; [|now apply IH].
  rewrite Forall_forall in Hall. apply Hall, in_or_app. now right.
Qed.

Lemma In_firstn_In {A} (n : nat) (l : list A) (x : A) : In x (firstn n l) -> In x l.
Proof.
  intros H. rewrite <- (firstn_skipn n l). apply in_or_app. now left.
Qed.

Lemma top_10_is_entries (services ps : dict num) :
  NoDup (dict_keys services) ->
  dict_of_pairs (map (entry_of ps) (firstn 10 (sorted_by_value_desc services)))
  = map (entry_of ps) (firstn 10 (sorted_by_value_desc services)).
Proof.
  intros Hnd. apply dict_of_pairs_distinct. rewrite entry_of_fst.
  rewrite <- firstn_map. apply NoDup_firstn.
  eapply Permutation_NoDup; [|exact Hnd].
  apply Permutation_map, Permutation_sym, sorted_by_perm.
Qed.

Lemma current_services_ok (mc : dict (dict num)) (cur : str) (services : dict num) :
  table_ok mc -> dict_get cur mc = Some services -> services_ok services.
Proof.
  intros [_ Hall] Hcur. rewrite Forall_forall in Hall.
  apply (Hall (cur, services)). now apply dict_get_In.
Qed.

(** X5.  The cut at ten services leaves out only services that cost no
    more: when the amounts of the current month are numbers (no NaN),
    every service of the current month that has no entry in the comparison
    has an amount less than or equal to the current amount of every entry. *)
Theorem omitted_services_cost_no_more
    (cost_data : list result_by_time) (mc : dict (dict num)) :
  build_monthly_costs cost_data [] = Ok mc ->
  (2 <= length mc)%nat ->
  exists a services,
    process_cost_data cost_data = Ok a
    /\ dict_get (current_month_of a) mc = Some services
    /\ (Forall (fun kv => not_nan (snd kv)) services ->
        forall service amount,
          In (service, amount) services ->
          ~ In service (dict_keys (top_10_comparison a)) ->
          forall service' e,
            In (service', e) (top_10_comparison a) ->
            num_ge (current e) amount).
Proof.
  intros Hb Hlen.
  destruct (process_cost_data_spec _ _ Hb Hlen)
    as (Hok & pre & prev & cur & services & ps & Hs & Hcur & Hprev & Hrun).
  destruct (current_services_ok mc cur services Hok Hcur) as [Hnd Hfl].
  eexists; exists services. split; [exact Hrun|].
  cbn [top_10_comparison current_month_of]. split; [exact Hcur|].
  rewrite (top_10_is_entries services ps Hnd).
  intros Hnn service amount Hin Hout service' e He.
  pose proof (sorted_by_value_desc_sorted services Hfl Hnn) as Hsorted.
  rewrite <- (firstn_skipn 10 (sorted_by_value_desc services)) in Hsorted.
  apply in_map_iff in He. destruct He as ([k c] & Heq & Hk).
  unfold entry_of in Heq; cbn [fst snd] in Heq. injection Heq as -> <-. cbn [current].
  assert (Hin' : In (service, amount) (sorted_by_value_desc services)).
  { unfold sorted_by_value_desc. now apply sorted_by_In. }
  rewrite <- (firstn_skipn 10 (sorted_by_value_desc services)) in Hin'.
  apply in_app_or in Hin'. destruct Hin' as [Hfirst|Hlast].
  - exfalso. apply Hout. unfold dict_keys. rewrite entry_of_fst.
    apply in_map_iff. now exists (service, amount).
  - exact (StronglySorted_app_inv _ _ _ Hsorted (service', c) (service, amount) Hk Hlast).
Qed.

(** X6.  Every entry of the comparison is computed from the table: its
    current amount is the service's amount in the current month, its
    previous amount the service's amount in the previous month ([0] when
    the service is absent there), its change their difference, and its
    percent change [change / previous * 100] when [previous > 0] and
    [float("inf")] otherwise - also for a previous amount that is
    present but zero or negative. *)
Theorem comparison_entries_from_table
    (cost_data : list result_by_time) (mc : dict (dict num)) :
  build_monthly_costs cost_data [] = Ok mc ->
  (2 <= length mc)%nat ->
  exists a services previous_services,
    process_cost_data cost_data = Ok a
    /\ dict_get (current_month_of a) mc = Some services
    /\ dict_get (previous_month_of a) mc = Some previous_services
    /\ NoDup (dict_keys (top_10_comparison a))
    /\ forall service e,
         In (service, e) (top_10_comparison a) ->
         dict_get service services = Some (current e)
         /\ previous e = match dict_get service previous_services with
                         | Some p => p
                         | None => PyInt 0
                         end
         /\ change e = num_sub (current e) (previous e)
         /\ percent_change e
            = if num_gtb (previous e) (PyInt 0)
              then num_mul (PyFloat (fdiv (to_float (change e)) (to_float (previous e))))
                           (PyInt 100)
              else PyFloat float_inf.
Proof.
  intros Hb Hlen.
  destruct (process_cost_data_spec _ _ Hb Hlen)
    as (Hok & pre & prev & cur & services & ps & Hs & Hcur & Hprev & Hrun).
  destruct (current_services_ok mc cur services Hok Hcur) as [Hnd Hfl].
  eexists; exists services, ps. split; [exact Hrun|].
  cbn [top_10_comparison current_month_of previous_month_of].
  split; [exact Hcur|]. split; [exact Hprev|].
  rewrite (top_10_is_entries services ps Hnd). split.
  - unfold dict_keys. rewrite entry_of_fst, <- firstn_map. apply NoDup_firstn.
    eapply Permutation_NoDup; [|exact Hnd].
    apply Permutation_map, Permutation_sym, sorted_by_perm.
  - intros service e He.
    apply in_map_iff in He. destruct He as ([k c] & Heq & Hk).
    unfold entry_of in Heq; cbn [fst snd] in Heq. injection Heq as -> <-.
    cbn [current previous change percent_change].
    split; [|repeat split].
    apply In_dict_get; [exact Hnd|].
    apply In_firstn_In in Hk. unfold sorted_by_value_desc in Hk.
    now apply sorted_by_In in Hk.
Qed.

(** ** The chart: its rows *)

Lemma mapM_all_Ok {A B} (f : A -> result B) (P : A -> B -> Prop) (l : list A) :
  (forall a, In a l -> exists b, f a = Ok b /\ P a b) ->
  exists bs, mapM f l = Ok bs /\ Forall2 P l bs.
Proof.
  induction l as [|a l IH]; intros H.
  - exists []. split; [reflexivity|constructor].
  - destruct (H a (or_introl eq_refl)) as (b & Eb & Pb).
    destruct IH as (bs & Ebs & Pbs); [intros x Hx; apply H; now right|].
    exists (b :: bs). split; [|now constructor].
    cbn [mapM]. rewrite Eb. cbn [bind]. rewrite Ebs. reflexivity.
Qed.

(** The bar of a finite total that is not negative, under a positive
    maximum of the same totals. *)
Lemma bar_length_of_total (totals : list num) (M A : num) :
  Forall total_ok totals -> py_max totals = Ok M -> num_gtb M (PyInt 0) = true ->
  In A totals ->
  num_leb (PyInt 0) A = true -> num_ltb A (PyFloat float_inf) = true ->
  exists n, bar_length A M = Ok n /\ 0 <= n <= 20.
Proof.
  intros Tall Hmax Hpos HA H0 Hfin.
  pose proof (py_max_In _ _ Hmax) as HM.
  rewrite Forall_forall in Tall.
  pose proof (Tall _ HM) as TM. pose proof (Tall _ HA) as TA.
  destruct (positive_max M TM Hpos) as (x & -> & Hnz & PM).
  fold (positive_float x) in PM.
  assert (NM : is_nan (to_float (PyFloat x)) = false).
  { destruct PM as [->|(mM & eM & -> & _)]; reflexivity. }
  assert (NA : is_nan (to_float A) = false).
  { destruct TA as [->|(y & -> & Vy)]; [reflexivity|].
    cbn [to_float]. destruct y; try reflexivity; discriminate. }
  rewrite bar_length_float by exact Hnz.
  destruct (bar_nonneg (to_float A) x) as (n & En & _ & Hn).
  - now apply total_ok_valid.
  - exact PM.
  - destruct TA as [->|(y & -> & Vy)]; [reflexivity|exact H0].
  - destruct TA as [->|(y & -> & Vy)]; [reflexivity|exact Hfin].
  - refine (py_max_ge totals (PyFloat x) A _ Hmax NM HA NA). now apply Forall_forall.
  - exists n. split; [exact En|exact Hn].
Qed.

Lemma ljust_blocks (n : Z) :
  0 <= n <= 20 ->
  ljust (str_repeat FULL_BLOCK n) (Z.to_nat chart_width)
  = (repeat FULL_BLOCK (Z.to_nat n) ++ repeat 32%N (20 - Z.to_nat n))%list.
Proof. intros H. unfold ljust, str_repeat. now rewrite repeat_length. Qed.

(** X7.  When every amount is a float, every month total is finite and
    not negative, and the greatest total is positive, the chart is
    rendered: it is the title followed by one row per month, in ascending
    order of the month keys, and the bar line of every row is exactly 20
    characters wide before the separator - [n] blocks, with [n] between 0
    and 20 the month's bar length, then [20 - n] spaces. *)
Theorem chart_renders_with_fixed_width
    (monthly_costs : dict (dict num)) (total_costs : list num) (max_cost : num) :
  amounts_valid monthly_costs ->
  mapM (month_total monthly_costs) (sorted_str (dict_keys monthly_costs)) = Ok total_costs ->
  py_max total_costs = Ok max_cost ->
  num_gtb max_cost (PyInt 0) = true ->
  Forall (fun t => num_leb (PyInt 0) t = true /\ num_ltb t (PyFloat float_inf) = true)
         total_costs ->
  exists rows,
    create_ascii_chart monthly_costs
    = Ok (lit "6-Month Cost Overview" ++ [10%N; 10%N] ++ concat rows)%list
    /\ Forall2
         (fun (mt : str * num) (row : str) =>
            exists n,
              bar_length (snd mt) max_cost = Ok n /\ 0 <= n <= 20
              /\ row = (fst mt ++ lit ": $" ++ format_2f (snd mt) ++ [10%N]
                        ++ (repeat FULL_BLOCK (Z.to_nat n) ++ repeat 32%N (20 - Z.to_nat n))
                        ++ lit " | " ++ format_2f (snd mt) ++ [10%N; 10%N])%list)
         (combine (sorted_str (dict_keys monthly_costs)) total_costs) rows.
Proof.
  intros Hv Htot Hmax Hpos Hall.
  pose proof (totals_ok _ _ _ Hv Htot) as Tall.
  rewrite Forall_forall in Hall.
  destruct (mapM_all_Ok (chart_row max_cost)
              (fun (mt : str * num) (row : str) =>
                 exists n,
                   bar_length (snd mt) max_cost = Ok n /\ 0 <= n <= 20
                   /\ row = (fst mt ++ lit ": $" ++ format_2f (snd mt) ++ [10%N]
                             ++ (repeat FULL_BLOCK (Z.to_nat n)
                                   ++ repeat 32%N (20 - Z.to_nat n))
                             ++ lit " | " ++ format_2f (snd mt) ++ [10%N; 10%N])%list)
              (combine (sorted_str (dict_keys monthly_costs)) total_costs))
    as (rows & Erows & Hrows).
  - intros [month t] Hin. pose proof (in_combine_r _ _ _ _ Hin) as Ht.
    destruct (Hall t Ht) as [H0 Hfin].
    destruct (bar_length_of_total total_costs max_cost t Tall Hmax Hpos Ht H0 Hfin)
      as (n & En & Hn).
    eexists. split.
    + unfold chart_row. rewrite En. cbn [bind]. reflexivity.
    + exists n. cbn [fst snd]. split; [exact En|]. split; [exact Hn|].
      now rewrite (ljust_blocks n Hn).
  - exists rows. split; [|exact Hrows].
    unfold create_ascii_chart. rewrite Htot. cbn [bind]. rewrite Hmax. cbn [bind].
    rewrite Erows. reflexivity.
Qed.

(** X8.  The month with the greatest total always gets the full bar: when
    the greatest total is positive and finite, its bar length is exactly
    20, because [max / max] is exactly [1.0] in binary64. *)
Theorem costliest_month_fills_the_bar
    (monthly_costs : dict (dict num)) (total_costs : list num) (max_cost : num) :
  amounts_valid monthly_costs ->
  mapM (month_total monthly_costs) (sorted_str (dict_keys monthly_costs)) = Ok total_costs ->
  py_max total_costs = Ok max_cost ->
  num_gtb max_cost (PyInt 0) = true ->
  num_ltb max_cost (PyFloat float_inf) = true ->
  In max_cost total_costs
  /\ bar_length max_cost max_cost = Ok chart_width.
Proof.
  intros Hv Htot Hmax Hpos Hfin.
  pose proof (totals_ok _ _ _ Hv Htot) as Tall.
  pose proof (py_max_In _ _ Hmax) as HM. split; [exact HM|].
  rewrite Forall_forall in Tall.
  destruct (positive_max max_cost (Tall _ HM) Hpos) as (x & -> & Hnz & PM).
  rewrite bar_length_float by exact Hnz. cbn [to_float].
  destruct PM as [->|(mM & eM & -> & _)]; [discriminate|].
  unfold bar_float. rewrite fdiv_self. reflexivity.
Qed.

(** X9.  When the greatest month total, as [max] returns it, is zero, the
    chart raises [ZeroDivisionError] at the first month, and so does the
    report builder. *)
Theorem zero_maximum_raises
    (top_10 : dict comparison_entry) (monthly_costs : dict (dict num))
    (current_month previous_month : str) (total_costs : list num) (max_cost : num) :
  mapM (month_total monthly_costs) (sorted_str (dict_keys monthly_costs)) = Ok total_costs ->
  py_max total_costs = Ok max_cost ->
  num_is_zero max_cost = true ->
  exists e,
    exn_cls e = ZeroDivisionError
    /\ create_ascii_chart monthly_costs = Raise e
    /\ create_report top_10 monthly_costs current_month previous_month = Raise e.
Proof.
  intros Htot Hmax Hz.
  assert (Hc : exists e, exn_cls e = ZeroDivisionError
                         /\ create_ascii_chart monthly_costs = Raise e).
  { unfold create_ascii_chart. rewrite Htot. cbn [bind]. rewrite Hmax. cbn [bind].
    pose proof (mapM_Ok_length _ _ _ Htot) as Hlen.
    destruct total_costs as [|t ts]; [discriminate|].
    destruct (sorted_str (dict_keys monthly_costs)) as [|m ms]; [discriminate|].
    cbn [combine mapM chart_row]. unfold bar_length, num_div. rewrite Hz.
    destruct t, max_cost; cbn [bind]; eexists; (split; [|reflexivity]); reflexivity. }
  destruct Hc as (e & He & Hc). exists e. split; [exact He|]. split; [exact Hc|].
  unfold create_report. rewrite Hc. reflexivity.
Qed.

(** ** The delivery client: the payload *)

Lemma plain_char_norm (c : char) :
  plain_char c = true ->
  norm_char c = c /\ is_high_surrogate c = false /\ is_low_surrogate c = false.
Proof.
  unfold plain_char, norm_char, is_high_surrogate, is_low_surrogate, MAX_CODE_POINT.
  intros H. apply andb_prop in H. destruct H as [H1 H2].
  apply N.leb_le in H1. apply negb_true_iff in H2.
  split; [|split].
  - destruct (N.ltb_spec c 65536); [reflexivity|].
    rewrite N.mod_small by lia. lia.
  - apply andb_false_iff in H2. apply andb_false_iff.
    rewrite !N.leb_gt in *. lia.
  - apply andb_false_iff in H2. apply andb_false_iff.
    rewrite !N.leb_gt in *. lia.
Qed.

Lemma norm_str_plain (s : str) : plain_str s -> norm_str s = s.
Proof.
  unfold plain_str. induction s as [|c s IH]; [reflexivity|].
  cbn [forallb]. intros H. apply andb_prop in H. destruct H as [Hc Hs].
  destruct (plain_char_norm c Hc) as (N & Hh & _).
  rewrite (norm_str_cons c s Hh), N, (IH Hs). reflexivity.
Qed.

Lemma map_id_on {A} (f : A -> A) (l : list A) :
  Forall (fun x => f x = x) l -> map f l = l.
Proof. induction 1 as [|x l Hx _ IH]; simpl; congruence. Qed.

Lemma norm_json_plain (v : json) : plain_json v -> norm_json v = v.
Proof.
  induction v as [s|l IH|members IH] using json_induction; intros H;
    inversion H as [s' Hs|l' Hl|ms' Hnd Hk Hv]; subst; cbn [norm_json].
  - now rewrite norm_str_plain.
  - f_equal. apply map_id_on. rewrite Forall_forall in *.
    intros x Hx. apply IH; auto.
  - f_equal.
    assert (E : map (fun kv => (norm_str (fst kv), norm_json (snd kv))) members = members).
    { apply map_id_on. rewrite Forall_forall in *. intros [k x] Hin. cbn [fst snd].
      rewrite (norm_str_plain k (Hk _ Hin)).
      pose proof (IH _ Hin (Hv _ Hin)) as Ex. cbn [snd] in Ex. rewrite Ex. reflexivity. }
    rewrite E. now apply dict_of_pairs_distinct.
Qed.

(** X10.  The body that [send_to_slack] posts is pure ASCII JSON: for
    every report, whatever characters its texts hold, [json.dumps] escapes
    them, [.encode("utf-8")] cannot fail and yields the text byte for
    byte, and the body is in the first effect of the call, the request
    built for the configured URL.  Decoding the body gives back the
    object [{"blocks": report}] itself whenever the report's strings hold
    no surrogate code points and its objects have distinct keys. *)
Theorem payload_is_ascii_json_of_blocks (w : World) (report : list json) (url : str) :
  SLACK_WEBHOOK_URL w = Some url -> url <> [] ->
  let data := json_dumps (JObj [(lit "blocks", JArr report)]) in
  ascii_only data
  /\ encode_utf8 data = Ok data
  /\ (exists rest, snd (send_to_slack w report) = HttpRequestBuilt url data :: rest)
  /\ (plain_json (JArr report) ->
      json_loads data = Some (JObj [(lit "blocks", JArr report)])).
Proof.
  intros Hu Hne data.
  assert (Ha : ascii_only data) by apply json_dumps_ascii.
  assert (He : encode_utf8 data = Ok data) by now apply encode_utf8_ascii.
  split; [exact Ha|]. split; [exact He|]. split.
  - unfold send_to_slack, webhook_url. rewrite Hu.
    destruct url as [|c u]; [contradiction|].
    fold data. rewrite He. cbn [lift bindM tell fst snd app].
    destruct (Request w (c :: u) data) as [[]|ex]; cbn [lift bindM tell fst snd app].
    + destruct (try_except _ _ _) as [r t]. eexists. reflexivity.
    + eexists. reflexivity.
  - intros Hp. unfold data. rewrite json_loads_dumps. f_equal.
    apply norm_json_plain. constructor.
    + cbn. constructor; [intros []|constructor].
    + constructor; [reflexivity|constructor].
    + constructor; [exact Hp|constructor].
Qed.

(** X11.  Once the request object is built, [send_to_slack] never raises:
    whatever [urlopen] and [read] do, it sends exactly one request and
    returns; it returns a body exactly when [urlopen] answers with status
    200 and [read] yields that body, and in every other case it returns
    [None] after logging exactly one error. *)
Theorem send_to_slack_absorbs_delivery_errors (w : World) (report : list json) (url : str) :
  SLACK_WEBHOOK_URL w = Some url -> url <> [] ->
  let data := json_dumps (JObj [(lit "blocks", JArr report)]) in
  Request w url data = Ok tt ->
  exists r log,
    send_to_slack w report
    = (Ok r, (HttpRequestBuilt url data :: HttpRequestSent url data :: log)%list)
    /\ (forall b, r = Some b
                  <-> exists resp, urlopen w url data = Ok resp
                                   /\ getcode resp = 200 /\ read resp = Ok b)
    /\ (r = None -> exists msg, log = [LogError msg])
    /\ (r <> None -> log = []).
Proof.
  intros Hu Hne data Hr.
  unfold send_to_slack, webhook_url. rewrite Hu.
  destruct url as [|c u]; [contradiction|].
  rewrite (encode_utf8_ascii _ (json_dumps_ascii _)).
  fold data. cbn [lift bindM tell fst snd app].
  rewrite Hr. cbn [lift bindM tell fst snd app].
  unfold post_request.
  destruct (urlopen w (c :: u) data) as [resp|ex] eqn:Ho;
    cbn [lift bindM tell try_except ret is_Exception fst snd app].
  - destruct (Z.eqb_spec (getcode resp) 200) as [Hc|Hc];
      cbn [negb lift bindM tell try_except ret is_Exception fst snd app].
    + destruct (read resp) as [b|ex] eqn:Hread;
        cbn [lift bindM tell try_except ret is_Exception fst snd app].
      * exists (Some b), []. split; [reflexivity|]. split; [|split].
        -- intros b'. split.
           ++ intros [= <-]. exists resp. auto.
           ++ intros (resp' & [= <-] & _ & Hb). congruence.
        -- discriminate.
        -- reflexivity.
      * eexists None, _. split; [reflexivity|]. split; [|split].
        -- intros b'. split; [discriminate|].
           intros (resp' & [= <-] & _ & Hb). congruence.
        -- intros _. eexists. reflexivity.
        -- intros H. now contradiction H.
    + eexists None, _. split; [reflexivity|]. split; [|split].
      * intros b'. split; [discriminate|].
        intros (resp' & [= <-] & Hc' & _). contradiction.
      * intros _. eexists. reflexivity.
      * intros H. now contradiction H.
  - eexists None, _. split; [reflexivity|]. split; [|split].
    + intros b'. split; [discriminate|]. intros (resp' & H & _). discriminate.
    + intros _. eexists. reflexivity.
    + intros H. now contradiction H.
Qed.

(** ** The entry point: every run *)

Lemma webhook_url_Some (w : World) (url : str) :
  webhook_url w = Some url -> SLACK_WEBHOOK_URL w = Some url /\ url <> [].
Proof.
  unfold webhook_url. destruct (SLACK_WEBHOOK_URL w) as [[|c u]|]; try discriminate.
  intros [= <-]. split; [reflexivity|discriminate].
Qed.

Lemma handler_run_shape {E C} (event : E) (context : C) (w : World) :
  run_shape w (fst (lambda_handler event context w)) (snd (lambda_handler event context w)).
Proof.
  unfold lambda_handler, handler_body, analyze_costs, get_cost_data.
  destruct (get_date_range w) as [[s e]|ex0] eqn:Hd;
    cbn [lift bindM tell try_except ret fst snd app];
    [|now apply run_dates_fail].
  destruct (get_cost_and_usage w s e) as [data|ex1] eqn:Hq;
    cbn [lift bindM tell try_except ret fst snd app].
  2:{ destruct (is_ClientError (exn_cls ex1)) eqn:Hc;
        cbn [lift bindM tell try_except ret fst snd app].
      - apply (run_client_error w s e ex1 Hd Hq).
        destruct (exn_cls ex1); try discriminate; reflexivity.
      - now apply run_analysis_fail. }
  destruct data as [|md rest]; cbn [lift bindM tell try_except ret fst snd app];
    [now apply run_no_data|].
  destruct (process_cost_data (md :: rest)) as [[top mc cur prev]|ex2] eqn:Hp;
    cbn [lift bindM tell try_except ret fst snd app];
    [|now apply run_analysis_fail].
  destruct top as [|en es]; cbn [lift bindM tell try_except ret fst snd app];
    [now apply run_no_data|].
  destruct (create_report (en :: es) mc cur prev) as [report|ex3] eqn:Hr;
    cbn [lift bindM tell try_except ret fst snd app];
    [|now apply run_report_fail].
  unfold send_to_slack.
  destruct (webhook_url w) as [url|] eqn:Hu;
    cbn [lift bindM tell try_except ret fst snd app truthy_bytes];
    [|now apply run_no_url].
  destruct (webhook_url_Some w url Hu) as [Hu' Hne].
  rewrite (encode_utf8_ascii _ (json_dumps_ascii _)).
  cbn [lift bindM tell try_except ret fst snd app].
  destruct (Request w url _) as [[]|ex4] eqn:Hreq;
    cbn [lift bindM tell try_except ret fst snd app];
    [|now apply run_request_fail].
  unfold post_request.
  destruct (urlopen w url _) as [resp|ex5] eqn:Ho;
    cbn [lift bindM tell try_except ret is_Exception fst snd app truthy_bytes].
  2:{ apply run_delivery_fail; auto. intros resp b H. congruence. }
  destruct (Z.eqb_spec (getcode resp) 200) as [Hc|Hc];
    cbn [negb lift bindM tell try_except ret is_Exception fst snd app truthy_bytes].
  2:{ apply run_delivery_fail; auto. intros resp' b H Hc'. congruence. }
  destruct (read resp) as [b|ex6] eqn:Hread;
    cbn [lift bindM tell try_except ret is_Exception fst snd app truthy_bytes].
  2:{ apply run_delivery_fail; auto. intros resp' b H _ Hb. congruence. }
  destruct b as [|c b]; cbn [lift bindM tell try_except ret fst snd app truthy_bytes].
  - now apply (run_empty_body w s e url report resp).
  - apply (run_success w s e url (md :: rest) (mk_analysis (en :: es) mc cur prev)
             report resp c b); auto.
Qed.

(** X12.  The entry point answers 200 only for a report that was
    delivered: if the status code is 200, then the billing query returned
    data, the analyzer and the report builder returned, the webhook URL
    was configured, the request carrying [{"blocks": report}] was sent to
    it, the webhook answered with status 200 and a body that is not
    empty, and the response is the success response. *)
Theorem success_only_if_delivered {E C} (event : E) (context : C) (w : World) :
  statusCode (fst (lambda_handler event context w)) = 200 ->
  fst (lambda_handler event context w) = success_response
  /\ exists start_date end_date data a report url resp c b,
       get_date_range w = Ok (start_date, end_date)
       /\ get_cost_and_usage w start_date end_date = Ok data
       /\ process_cost_data data = Ok a
       /\ create_report (top_10_comparison a) (monthly_costs_of a)
                        (current_month_of a) (previous_month_of a) = Ok report
       /\ SLACK_WEBHOOK_URL w = Some url
       /\ urlopen w url (json_dumps (JObj [(lit "blocks", JArr report)])) = Ok resp
       /\ getcode resp = 200
       /\ read resp = Ok (c :: b)
       /\ In (HttpRequestSent url (json_dumps (JObj [(lit "blocks", JArr report)])))
             (snd (lambda_handler event context w)).
Proof.
  pose proof (handler_run_shape event context w) as H.
  destruct (lambda_handler event context w) as [r t]. cbn [fst snd] in *.
  intros Hs.
  inversion H; subst; cbn [statusCode unexpected_error_response fetch_error_response
                           send_error_response] in Hs; try discriminate.
  split; [reflexivity|].
  exists s, e, data, a, report, url, resp, c, b.
  repeat split; auto. simpl. tauto.
Qed.

(** X13.  In every run the entry point makes at most one billing query,
    for the period that [get_date_range] computed, and sends at most one
    HTTP request; when it sends one, the billing query, the entry into the
    report builder and the construction of that request all come before
    it in the trace. *)
Theorem billing_query_precedes_delivery {E C} (event : E) (context : C) (w : World) :
  let t := snd (lambda_handler event context w) in
  (length (filter is_billing_query t) <= 1)%nat
  /\ (length (filter is_http_sent t) <= 1)%nat
  /\ (forall s e, In (CostExplorerQuery s e) t -> get_date_range w = Ok (s, e))
  /\ (forall url data,
        In (HttpRequestSent url data) t ->
        exists t1 t2 s e,
          t = (t1 ++ HttpRequestSent url data :: t2)%list
          /\ In (CostExplorerQuery s e) t1
          /\ In (Invoke Create_report) t1
          /\ In (HttpRequestBuilt url data) t1).
Proof.
  pose proof (handler_run_shape event context w) as H.
  destruct (lambda_handler event context w) as [r t]. cbn [fst snd] in *.
  cbv zeta.
  inversion H; subst; cbn [filter is_billing_query is_http_sent length];
    (split; [lia|]); (split; [lia|]); split;
    try (intros s' e' Hin; simpl in Hin;
         repeat (destruct Hin as [Hin|Hin]; [try discriminate; injection Hin as <- <-; assumption|]);
         contradiction);
    intros url' data' Hin; simpl in Hin;
    repeat (destruct Hin as [Hin|Hin]; try discriminate; try contradiction);
    injection Hin as <- <-;
    match goal with
    | |- exists t1 t2 s0 e0, ?l = _ /\ _ =>
        exists (firstn 7 l), (skipn 8 l), s, e
    end;
    cbn [firstn skipn app]; repeat split; simpl; tauto.
Qed.

(** X14.  Every failure is logged and no success is: a run that answers
    with status 500 ends its trace with an error record, and a run that
    answers with status 200 writes no error record at all and ends with
    the information record of the success. *)
Theorem every_failure_is_logged {E C} (event : E) (context : C) (w : World) :
  let '(r, t) := lambda_handler event context w in
  (statusCode r = 200 \/ statusCode r = 500)
  /\ (statusCode r = 500 -> exists t' msg, t = (t' ++ [LogError msg])%list)
  /\ (statusCode r = 200 ->
      existsb is_log_error t = false
      /\ exists t', t = (t' ++ [LogInfo (lit "Report sent to Slack successfully")])%list).
Proof.
  pose proof (handler_run_shape event context w) as H.
  destruct (lambda_handler event context w) as [r t]. cbn [fst snd] in *.
  inversion H; subst;
    cbn [statusCode unexpected_error_response fetch_error_response
         send_error_response success_response];
    (split; [auto|]); split; intros Hs; try discriminate;
    try (match goal with
         | |- exists t' msg, ?l = _ =>
             exists (removelast l);
             match eval cbn in (last l (LogInfo [])) with
             | LogError ?m => exists m
             end; reflexivity
         end).
  split; [reflexivity|].
  match goal with |- exists t', ?l = _ => exists (removelast l); reflexivity end.
Qed.

(** ** The analyzer: when the reshape step succeeds *)

Lemma mapM_Ok_iff {A B} (f : A -> result B) (l : list A) :
  (exists bs, mapM f l = Ok bs) <-> Forall (fun a => exists b, f a = Ok b) l.
Proof.
  split.
  - intros [bs H]. apply mapM_Ok_Forall2 in H.
    induction H as [|a b l bs Hab _ IH]; constructor; eauto.
  - intros H.
    destruct (mapM_all_Ok f (fun _ _ => True) l) as (bs & E & _).
    + rewrite Forall_forall in H. intros a Ha. destruct (H a Ha) as [b Hb]. eauto.
    + now exists bs.
Qed.

Lemma group_entry_Ok_iff (g : group) :
  (exists kv, group_entry g = Ok kv)
  <-> Keys g <> [] /\ exists x, float_of_str (Amount g) = Ok x.
Proof.
  unfold group_entry. destruct (Keys g) as [|k ks]; cbn [bind].
  - split; [intros [kv H]; discriminate|intros [H _]; now contradiction H].
  - destruct (float_of_str (Amount g)) as [x|ex]; cbn [bind].
    + split; [intros _; split; [discriminate|eauto]|eauto].
    + split; [intros [kv H]; discriminate|intros [_ [x H]]; discriminate].
Qed.

Lemma month_services_Ok_iff (groups : list group) :
  (exists d, month_services groups = Ok d)
  <-> Forall (fun g => Keys g <> [] /\ exists x, float_of_str (Amount g) = Ok x) groups.
Proof.
  unfold month_services.
  assert (E : Forall (fun g => Keys g <> [] /\ exists x, float_of_str (Amount g) = Ok x) groups
              <-> Forall (fun g => exists kv, group_entry g = Ok kv) groups).
  { split; apply Forall_impl; intros g; apply group_entry_Ok_iff. }
  rewrite E, <- mapM_Ok_iff.
  destruct (mapM group_entry groups) as [entries|ex]; cbn [bind].
  - split; eauto.
  - split; intros [x H]; discriminate.
Qed.

Lemma build_monthly_costs_Ok_iff (data : list result_by_time) : forall mc0,
  (exists mc, build_monthly_costs data mc0 = Ok mc)
  <-> Forall (fun md =>
                (exists d, strptime_Ymd (Start md) = Ok d)
                /\ Forall (fun g => Keys g <> []
                                    /\ exists x, float_of_str (Amount g) = Ok x)
                          (Groups md))
             data.
Proof.
  induction data as [|md rest IH]; intros mc0; cbn [build_monthly_costs].
  - split; [constructor|eauto].
  - destruct (strptime_Ymd (Start md)) as [d|ex] eqn:Hd; cbn [bind].
    + destruct (month_services (Groups md)) as [services|ex] eqn:Hs; cbn [bind].
      * rewrite IH. split.
        -- intros H. constructor; [|exact H]. split; [eauto|].
           apply month_services_Ok_iff. eauto.
        -- intros H. now inversion H.
      * split; [intros [mc H]; discriminate|].
        intros H. inversion H as [|? ? [_ Hg] _]; subst.
        apply month_services_Ok_iff in Hg. destruct Hg as [x Hx]. congruence.
    + split; [intros [mc H]; discriminate|].
      intros H. inversion H as [|? ? [[d' Hd'] _] _]; subst. congruence.
Qed.

(** X15.  The reshape loop returns a table exactly when every field it
    reads parses: every period start matches [%Y-%m-%d] and names a real
    day, every group has a key, and every amount is text that [float()]
    accepts; a single bad field anywhere in the data makes the whole
    analysis raise. *)
Theorem reshape_succeeds_iff_every_field_parses (cost_data : list result_by_time) :
  ((exists mc, build_monthly_costs cost_data [] = Ok mc)
   <-> Forall (fun md =>
                 (exists d, strptime_Ymd (Start md) = Ok d)
                 /\ Forall (fun g => Keys g <> []
                                     /\ exists x, float_of_str (Amount g) = Ok x)
                           (Groups md))
              cost_data)
  /\ (forall ex, build_monthly_costs cost_data [] = Raise ex ->
                 process_cost_data cost_data = Raise ex).
Proof.
  split; [apply build_monthly_costs_Ok_iff|].
  intros ex H. unfold process_cost_data. now rewrite H.
Qed.

(* ================================================================= *)
(** * Part III. The theorems at work on sample runs *)
(* ================================================================= *)

Lemma analyzer_selects_two_latest_months_witness :
  exists a,
    process_cost_data sample_cost_data = Ok a
    /\ current_month_of a = lit "2024-06"
    /\ previous_month_of a = lit "2024-05"
    /\ (forall key, In key (dict_keys (table_of sample_cost_data))
                    <-> exists md, In md sample_cost_data /\ month_key md = Ok key).
Proof.
  destruct (analyzer_selects_two_latest_months sample_cost_data (table_of sample_cost_data))
    as (a & pre & H1 & _ & _ & H4 & _).
  - vm_compute; reflexivity.
  - do 4 eexists.
    split; [left; reflexivity|].
    split; [right; left; reflexivity|].
    split; [vm_compute; reflexivity|].
    split; [vm_compute; reflexivity|].
    vm_compute; discriminate.
  - exists a. split; [exact H1|].
    split; [|split; [|exact H4]];
      revert H1; vm_compute; intros [= <-]; reflexivity.
Defined.

Lemma top_10_length_and_order_witness :
  exists a,
    process_cost_data sample_cost_data_12 = Ok a
    /\ (length (top_10_comparison a) <= 10)%nat.
Proof.
  destruct (top_10_length_and_order sample_cost_data_12 (table_of sample_cost_data_12))
    as (a & services & H1 & _ & _ & _ & H5 & _).
  - vm_compute; reflexivity.
  - vm_compute; lia.
  - exists a; split; assumption.
Defined.


Lemma client_error_aborts_run_witness :
  statusCode (fst (lambda_handler tt tt throttled_world)) = 500.
Proof.
  pose proof (client_error_aborts_run tt tt throttled_world
                (lit "2024-01-03") (lit "2024-07-01")
                (mk_exn ClientError
                   (lit "An error occurred (ThrottlingException) when calling the GetCostAndUsage operation: Rate exceeded"))
                ltac:(vm_compute; reflexivity) ltac:(reflexivity) ltac:(reflexivity)) as H.
  destruct (lambda_handler tt tt throttled_world) as [r t].
  exact (proj1 H).
Defined.

Lemma report_block_count_round_trip_witness :
  exists report,
    create_report (top_10_comparison sample_analysis) (monthly_costs_of sample_analysis)
                  (current_month_of sample_analysis) (previous_month_of sample_analysis)
    = Ok report
    /\ length report = 8%nat.
Proof.
  destruct (report_block_count_round_trip
              (top_10_comparison sample_analysis) (monthly_costs_of sample_analysis)
              (current_month_of sample_analysis) (previous_month_of sample_analysis)
              (match create_ascii_chart (monthly_costs_of sample_analysis) with
               | Ok c => c
               | Raise _ => []
               end))
    as (report & parsed & H1 & _ & H3 & _).
  - vm_compute; reflexivity.
  - exists report; split; [exact H1|exact H3].
Defined.

Lemma missing_webhook_url_no_request_witness :
  fst (send_to_slack no_url_world sample_report) = Ok None.
Proof.
  destruct (missing_webhook_url_no_request no_url_world sample_report) as [H _].
  - left; reflexivity.
  - rewrite H; reflexivity.
Defined.

Lemma empty_data_is_fetch_error_witness :
  fst (lambda_handler tt tt empty_world) = fetch_error_response.
Proof.
  pose proof (empty_data_is_fetch_error tt tt empty_world
                (lit "2024-01-03") (lit "2024-07-01") []
                ltac:(vm_compute; reflexivity) ltac:(reflexivity)
                ltac:(left; reflexivity)) as H.
  destruct (lambda_handler tt tt empty_world) as [r t].
  exact (proj1 H).
Defined.

Lemma empty_webhook_body_is_failure_witness :
  fst (lambda_handler tt tt empty_body_world) = send_error_response.
Proof.
  destruct (empty_webhook_body_is_failure tt tt empty_body_world sample_analysis
              [Invoke Get_date_range; Invoke Get_cost_data;
               CostExplorerQuery (lit "2024-01-03") (lit "2024-07-01")]
              sample_report sample_url) as (_ & H & _).
  - vm_compute; reflexivity.
  - vm_compute; discriminate.
  - vm_compute; reflexivity.
  - reflexivity.
  - vm_compute; discriminate.
  - reflexivity.
  - reflexivity.
  - exact H.
Defined.

Lemma bar_length_truncates_and_is_monotone_witness :
  amounts_valid (table_of sample_cost_data)
  /\ mapM (month_total (table_of sample_cost_data))
          (sorted_str (dict_keys (table_of sample_cost_data)))
     = Ok [PyFloat (S754_finite false 5277655813324800 (-45));
           PyFloat (S754_finite false 5752644836524032 (-45))]
  /\ py_max [PyFloat (S754_finite false 5277655813324800 (-45));
             PyFloat (S754_finite false 5752644836524032 (-45))]
     = Ok (PyFloat (S754_finite false 5752644836524032 (-45)))
  /\ num_gtb (PyFloat (S754_finite false 5752644836524032 (-45))) (PyInt 0) = true
  /\ In (lit "2024-05", PyFloat (S754_finite false 5277655813324800 (-45)))
        (combine (sorted_str (dict_keys (table_of sample_cost_data)))
                 [PyFloat (S754_finite false 5277655813324800 (-45));
                  PyFloat (S754_finite false 5752644836524032 (-45))])
  /\ (exists l,
        bar_length (PyFloat (S754_finite false 5277655813324800 (-45)))
                   (PyFloat (S754_finite false 5752644836524032 (-45))) = Ok l
        /\ bar_length_floor (PyFloat (S754_finite false 5277655813324800 (-45)))
                            (PyFloat (S754_finite false 5752644836524032 (-45))) = Ok l
        /\ 0 <= l <= chart_width)
  /\ (forall monthB totalB lA lB,
        In (monthB, totalB)
           (combine (sorted_str (dict_keys (table_of sample_cost_data)))
                    [PyFloat (S754_finite false 5277655813324800 (-45));
                     PyFloat (S754_finite false 5752644836524032 (-45))]) ->
        num_ltb (PyFloat (S754_finite false 5277655813324800 (-45))) totalB = true ->
        bar_length (PyFloat (S754_finite false 5277655813324800 (-45)))
                   (PyFloat (S754_finite false 5752644836524032 (-45))) = Ok lA ->
        bar_length totalB (PyFloat (S754_finite false 5752644836524032 (-45))) = Ok lB ->
        lA <= lB).
Proof.
  assert (H1 : amounts_valid (table_of sample_cost_data))
    by (vm_compute; repeat econstructor).
  assert (H2 : mapM (month_total (table_of sample_cost_data))
                    (sorted_str (dict_keys (table_of sample_cost_data)))
               = Ok [PyFloat (S754_finite false 5277655813324800 (-45));
                     PyFloat (S754_finite false 5752644836524032 (-45))])
    by (vm_compute; reflexivity).
  assert (H3 : py_max [PyFloat (S754_finite false 5277655813324800 (-45));
                       PyFloat (S754_finite false 5752644836524032 (-45))]
               = Ok (PyFloat (S754_finite false 5752644836524032 (-45))))
    by (vm_compute; reflexivity).
  assert (H4 : num_gtb (PyFloat (S754_finite false 5752644836524032 (-45))) (PyInt 0) = true)
    by (vm_compute; reflexivity).
  assert (H5 : In (lit "2024-05", PyFloat (S754_finite false 5277655813324800 (-45)))
                  (combine (sorted_str (dict_keys (table_of sample_cost_data)))
                           [PyFloat (S754_finite false 5277655813324800 (-45));
                            PyFloat (S754_finite false 5752644836524032 (-45))]))
    by (vm_compute; left; reflexivity).
  repeat (split; [assumption|]).
  destruct (bar_length_truncates_and_is_monotone _ _ _ _ _ H1 H2 H3 H4 H5)
    as (P1 & _ & P3).
  split; [|exact P3].
  apply P1; vm_compute; reflexivity.
Defined.

Lemma date_range_starts_inside_sixth_month_back_witness :
  exists start_date,
    get_date_range sample_world
    = Ok (strftime_Ymd start_date, strftime_Ymd (mk_date 2024 7 1))
    /\ valid_date start_date = true
    /\ days_from_civil (mk_date 2024 7 1) - days_from_civil start_date = 180
    /\ year start_date = 2024 /\ month start_date = 1 /\ 2 <= day start_date <= 5.
Proof.
  destruct (date_range_starts_inside_sixth_month_back sample_world)
    as (s & H1 & H2 & H3 & H4 & H5 & H6).
  - simpl; lia.
  - simpl; lia.
  - exists s. repeat split; try assumption; lia.
Defined.

Lemma iso_start_round_trip_witness :
  strptime_Ymd (strftime_Ymd (mk_date 2024 2 29)) = Ok (mk_date 2024 2 29)
  /\ (parsed <- strptime_Ymd (strftime_Ymd (mk_date 2024 2 29)) ;; Ok (strftime_Ym parsed))
     = Ok (firstn 7 (strftime_Ymd (mk_date 2024 2 29))).
Proof. apply (iso_start_round_trip (mk_date 2024 2 29)); [reflexivity|simpl; lia]. Defined.

Lemma table_holds_last_result_per_month_witness :
  dict_keys (table_of repeated_month_cost_data) = [lit "2024-05"; lit "2024-06"]
  /\ exists x, dict_get (lit "2024-05") (table_of repeated_month_cost_data)
               = Some [(lit "Lambda", PyFloat x)].
Proof.
  destruct (table_holds_last_result_per_month repeated_month_cost_data
              (table_of repeated_month_cost_data)) as (_ & _ & H).
  - vm_compute; reflexivity.
  - split; [vm_compute; reflexivity|].
    eexists.
    apply (H [mk_result_by_time (lit "2024-05-01") [sample_group "EC2" "1.0"];
              mk_result_by_time (lit "2024-06-01") [sample_group "S3" "2.0"]]
             (mk_result_by_time (lit "2024-05-01") [sample_group "Lambda" "3.0"])
             [] (lit "2024-05")).
    + reflexivity.
    + vm_compute; reflexivity.
    + vm_compute; reflexivity.
    + intros md' [].
Defined.

Lemma single_month_is_index_error_witness :
  statusCode (fst (lambda_handler tt tt single_month_world)) = 500
  /\ process_cost_data single_month_cost_data
     = raise IndexError "list index out of range".
Proof.
  destruct (single_month_is_index_error tt tt single_month_world
              (lit "2024-01-03") (lit "2024-07-01") single_month_cost_data
              (table_of single_month_cost_data)) as [H1 H2].
  - vm_compute; reflexivity.
  - reflexivity.
  - vm_compute; reflexivity.
  - vm_compute; reflexivity.
  - split; [|exact H1].
    destruct (lambda_handler tt tt single_month_world) as [r t].
    exact (proj1 (proj2 H2)).
Defined.

Lemma omitted_services_cost_no_more_witness :
  exists a,
    process_cost_data sample_cost_data_12 = Ok a
    /\ length (top_10_comparison a) = 10%nat.
Proof.
  destruct (omitted_services_cost_no_more sample_cost_data_12 (table_of sample_cost_data_12))
    as (a & services & H1 & _).
  - vm_compute; reflexivity.
  - vm_compute; lia.
  - exists a. split; [exact H1|].
    vm_compute in H1. injection H1 as <-. reflexivity.
Defined.

Lemma comparison_entries_from_table_witness :
  exists a,
    process_cost_data sample_cost_data = Ok a
    /\ NoDup (dict_keys (top_10_comparison a)).
Proof.
  destruct (comparison_entries_from_table sample_cost_data (table_of sample_cost_data))
    as (a & services & ps & H1 & _ & _ & H4 & _).
  - vm_compute; reflexivity.
  - vm_compute; lia.
  - exists a. split; assumption.
Defined.

Lemma chart_renders_with_fixed_width_witness :
  exists rows,
    create_ascii_chart (table_of sample_cost_data)
    = Ok (lit "6-Month Cost Overview" ++ [10%N; 10%N] ++ concat rows)%list
    /\ length rows = 2%nat.
Proof.
  destruct (chart_renders_with_fixed_width (table_of sample_cost_data)
              [PyFloat (S754_finite false 5277655813324800 (-45));
               PyFloat (S754_finite false 5752644836524032 (-45))]
              (PyFloat (S754_finite false 5752644836524032 (-45))))
    as (rows & H1 & H2).
  - vm_compute; repeat econstructor.
  - vm_compute; reflexivity.
  - vm_compute; reflexivity.
  - vm_compute; reflexivity.
  - repeat constructor.
  - exists rows. split; [exact H1|].
    apply Forall2_length in H2.
    etransitivity; [symmetry; exact H2|vm_compute; reflexivity].
Defined.

Lemma costliest_month_fills_the_bar_witness :
  bar_length (PyFloat (S754_finite false 5752644836524032 (-45)))
             (PyFloat (S754_finite false 5752644836524032 (-45))) = Ok chart_width.
Proof.
  apply (costliest_month_fills_the_bar (table_of sample_cost_data)
           [PyFloat (S754_finite false 5277655813324800 (-45));
            PyFloat (S754_finite false 5752644836524032 (-45))]
           (PyFloat (S754_finite false 5752644836524032 (-45)))).
  - vm_compute; repeat econstructor.
  - vm_compute; reflexivity.
  - vm_compute; reflexivity.
  - vm_compute; reflexivity.
  - vm_compute; reflexivity.
Defined.

Lemma zero_maximum_raises_witness :
  exists e,
    exn_cls e = ZeroDivisionError
    /\ create_ascii_chart (table_of free_tier_cost_data) = Raise e.
Proof.
  destruct (zero_maximum_raises [] (table_of free_tier_cost_data) (lit "2024-06")
              (lit "2024-05") [PyFloat (S754_zero false); PyFloat (S754_zero false)]
              (PyFloat (S754_zero false))) as (e & H1 & H2 & _).
  - vm_compute; reflexivity.
  - vm_compute; reflexivity.
  - reflexivity.
  - exists e. split; assumption.
Defined.

Lemma payload_is_ascii_json_of_blocks_witness :
  ascii_only (json_dumps (JObj [(lit "blocks", JArr sample_report)]))
  /\ encode_utf8 (json_dumps (JObj [(lit "blocks", JArr sample_report)]))
     = Ok (json_dumps (JObj [(lit "blocks", JArr sample_report)])).
Proof.
  destruct (payload_is_ascii_json_of_blocks sample_world sample_report sample_url)
    as (H1 & H2 & _).
  - reflexivity.
  - discriminate.
  - split; assumption.
Defined.

Lemma send_to_slack_absorbs_delivery_errors_witness :
  exists r log,
    send_to_slack sample_world sample_report
    = (Ok r,
       HttpRequestBuilt sample_url (json_dumps (JObj [(lit "blocks", JArr sample_report)]))
       :: HttpRequestSent sample_url (json_dumps (JObj [(lit "blocks", JArr sample_report)]))
       :: log).
Proof.
  destruct (send_to_slack_absorbs_delivery_errors sample_world sample_report sample_url)
    as (r & log & H & _).
  - reflexivity.
  - discriminate.
  - reflexivity.
  - exists r, log. exact H.
Defined.

Lemma success_only_if_delivered_witness :
  fst (lambda_handler tt tt sample_world) = success_response.
Proof.
  apply (success_only_if_delivered tt tt sample_world).
  vm_compute; reflexivity.
Defined.
